(** * QA coverage dashboard: the normalisation and aggregation pipeline

    A shallow embedding of [src/config.py], [src/transformer.py] and
    [src/metrics.py], of the filters of [dashboard.py] and of the paging
    loop of [src/connector.py], and the properties stated about them.

    Conventions of the embedding.
    - A Python [str] is a [string] whose characters are read as the code
      points U+0000..U+00FF; [lower], [strip] and the float grammar are
      given for that range.
    - A Python [int] is a [Z].  A Python [float] is an IEEE-754 binary64
      value, a [spec_float] of the Standard Library with [prec = 53] and
      [emax = 1024]; arithmetic on floats is the correctly rounded one of
      [SpecFloat].
    - Code that may raise returns a [result]; the exceptions that occur are
      [ValueError], [TypeError] and [OverflowError].
    - A pandas table is a list of rows.  [Metrics] computes on the [Count]
      column as on mathematical integers, which is what the code does on
      the counts of cases held in memory; pandas stores the column as
      int64, and [Metrics64] is the same code with sums that wrap around
      at 2^63, for tables whose counts are arbitrary.
    - A cell of a raw table is a scalar ([None], an [int], a [float], a
      [str]) or a list of scalars.
    - [groupby] yields its groups by increasing key, each with its rows in
      their order; [sort_values] here keeps the order of rows with equal
      keys, which pandas leaves to its sorting algorithm.
    - [Dashboard.apply_filters] gives the rows the three masks keep;
      [Frames.apply_filters] is the function with what pandas makes of a
      mask over a frame without rows.
    - Logging, the Streamlit cache decorators and the statistics that
      [calculate_epic_metrics] derives from its pivot are left out; what
      [process] shows through [st.error] is kept as a list of reports. *)

From Stdlib Require Import ZArith List String Ascii Bool Lia.
From Stdlib Require Import Permutation Sorted DecimalString.
From Stdlib Require Import Floats.SpecFloat.
Import ListNotations.

Local Open Scope string_scope.
Local Open Scope Z_scope.

(* ================================================================== *)
(** * Python values and builtins *)
(* ================================================================== *)

Module Py.

(** ** Exceptions *)

Inductive exn : Set := ValueError | TypeError | OverflowError.

Inductive result (A : Type) : Type :=
| Ok (a : A)
| Raise (e : exn).

Arguments Ok {A} a.
Arguments Raise {A} e.

Definition bind {A B : Type} (r : result A) (k : A -> result B) : result B :=
  match r with
  | Ok a => k a
  | Raise e => Raise e
  end.

Notation "x <- e ;; k" := (bind e (fun x => k))
  (at level 61, e at next level, right associativity).

(** [try: body; except (ValueError, TypeError): handler]; an
    [OverflowError] passes through. *)
Definition try_except_ValueError_TypeError {A : Type}
  (body : result A) (handler : result A) : result A :=
  match body with
  | Ok a => Ok a
  | Raise ValueError => handler
  | Raise TypeError => handler
  | Raise OverflowError => Raise OverflowError
  end.

(** ** Characters and strings *)

Definition code (c : ascii) : Z := Z.of_N (N_of_ascii c).

Definition between (lo hi x : Z) : bool := (lo <=? x) && (x <=? hi).

(** [str.isspace] on one character: the Unicode white space below U+0100. *)
Definition is_space (c : ascii) : bool :=
  let n := code c in
  between 9 13 n || between 28 32 n || (n =? 133) || (n =? 160).

(** White space as [float()] strips it: the ASCII white space of C, and the
    two Unicode spaces above U+007F, which are first rewritten to [' ']. *)
Definition is_float_space (c : ascii) : bool :=
  let n := code c in
  between 9 13 n || (n =? 32) || (n =? 133) || (n =? 160).

Definition is_digit (c : ascii) : bool := between 48 57 (code c).

Definition digit_value (c : ascii) : Z := code c - 48.

(** [str.lower] on one character. *)
Definition lower_char (c : ascii) : ascii :=
  let n := code c in
  if between 65 90 n || (between 192 222 n && negb (n =? 215))
  then ascii_of_N (Z.to_N (n + 32))
  else c.

Fixpoint lower (s : string) : string :=
  match s with
  | EmptyString => EmptyString
  | String c s' => String (lower_char c) (lower s')
  end.

Fixpoint lstrip_with (sp : ascii -> bool) (s : list ascii) : list ascii :=
  match s with
  | c :: s' => if sp c then lstrip_with sp s' else s
  | [] => []
  end.

Definition strip_with (sp : ascii -> bool) (s : list ascii) : list ascii :=
  rev (lstrip_with sp (rev (lstrip_with sp s))).

(** [s.strip()] *)
Definition strip (s : string) : string :=
  string_of_list_ascii (strip_with is_space (list_ascii_of_string s)).

(** [needle in hay] on strings *)
Fixpoint str_in (needle hay : string) : bool :=
  if prefix needle hay then true
  else match hay with
       | EmptyString => false
       | String _ hay' => str_in needle hay'
       end.

(** [sep.join(parts)] *)
Fixpoint join (sep : string) (parts : list string) : string :=
  match parts with
  | [] => ""
  | [p] => p
  | p :: rest => p ++ sep ++ join sep rest
  end.

(** [s.split(sep)] for a separator that is not empty: the pieces between
    the occurrences of [sep], found from left to right without overlap.
    [skip] counts the characters of an occurrence still to be passed over,
    [piece] is the piece read so far. *)
Fixpoint split_from (sep : string) (skip : nat) (piece : string) (s : string)
  : list string :=
  match s with
  | EmptyString => [piece]
  | String c s' =>
      match skip with
      | S k => split_from sep k piece s'
      | O =>
          if prefix sep s
          then piece :: split_from sep (String.length sep - 1) "" s'
          else split_from sep 0 (piece ++ String c "") s'
      end
  end.

Definition split (s sep : string) : list string := split_from sep 0 "" s.

(** [s.startswith(p)] *)
Definition startswith (s p : string) : bool := prefix p s.

(** [str(n)] for an [int] *)
Definition str_of_int (n : Z) : string := NilZero.string_of_int (Z.to_int n).

Fixpoint repeat_char (c : ascii) (n : nat) : string :=
  match n with
  | O => ""
  | S n' => String c (repeat_char c n')
  end.

(** ** Floats *)

Definition float : Set := spec_float.

Definition prec : Z := 53.
Definition emax : Z := 1024.

(** [float(n)] for an [int]: round to nearest, ties to even. *)
Definition float_of_int_rounded (n : Z) : float :=
  binary_normalize prec emax n 0 false.

(** The binary64 nearest to [(-1)^neg * m * 10^e10], as [strtod] returns it. *)
Definition float_of_decimal (neg : bool) (m : Z) (e10 : Z) : float :=
  match m with
  | Zpos p =>
      if 0 <=? e10
      then binary_normalize prec emax
             (if neg then - (m * 10 ^ e10) else m * 10 ^ e10) 0 false
      else SFdiv prec emax (S754_finite neg p 0)
             (S754_finite false (Z.to_pos (10 ^ (- e10))) 0)
  | _ => S754_zero neg
  end.

(** [int(x)] for a [float]: truncation toward zero. *)
Definition int_of_float (x : float) : result Z :=
  match x with
  | S754_nan => Raise ValueError
  | S754_infinity _ => Raise OverflowError
  | S754_zero _ => Ok 0
  | S754_finite s m e =>
      let a := if 0 <=? e then Zpos m * 2 ^ e else Zpos m / 2 ^ (- e) in
      Ok (if s then - a else a)
  end.

(** The integer a float is equal to, if any ([3.0 == 3]). *)
Definition float_as_int (x : float) : option Z :=
  match x with
  | S754_zero _ => Some 0
  | S754_finite s m e =>
      if 0 <=? e then Some (if s then - (Zpos m * 2 ^ e) else Zpos m * 2 ^ e)
      else if Zpos m mod 2 ^ (- e) =? 0
           then Some (if s then - (Zpos m / 2 ^ (- e)) else Zpos m / 2 ^ (- e))
           else None
  | _ => None
  end.

(** *** [float(s)] for a [str] *)

(** PEP 515: an underscore is dropped when it stands between two digits;
    any other underscore is an error. *)
Fixpoint drop_underscores (prev : ascii) (s : list ascii)
  : option (list ascii) :=
  match s with
  | [] => if Ascii.eqb prev "_" then None else Some []
  | c :: s' =>
      if Ascii.eqb c "_"
      then if is_digit prev then drop_underscores c s' else None
      else if Ascii.eqb prev "_" && negb (is_digit c) then None
           else option_map (cons c) (drop_underscores c s')
  end.

Fixpoint span_digits (s : list ascii) : list ascii * list ascii :=
  match s with
  | c :: s' =>
      if is_digit c
      then let (d, r) := span_digits s' in (c :: d, r)
      else ([], s)
  | [] => ([], [])
  end.

Definition digits_value (ds : list ascii) : Z :=
  fold_left (fun acc c => acc * 10 + digit_value c) ds 0.

Definition parse_sign (s : list ascii) : bool * list ascii :=
  match s with
  | c :: s' =>
      if Ascii.eqb c "-" then (true, s')
      else if Ascii.eqb c "+" then (false, s')
      else (false, s)
  | [] => (false, [])
  end.

(** The exponent part: nothing, or [e]/[E], an optional sign and at least
    one digit, up to the end of the text. *)
Definition parse_exponent (s : list ascii) : option Z :=
  match s with
  | [] => Some 0
  | c :: s' =>
      if Ascii.eqb (lower_char c) "e"
      then let (neg, s1) := parse_sign s' in
           match span_digits s1 with
           | ((_ :: _) as ds, []) =>
               Some (if neg then - digits_value ds else digits_value ds)
           | _ => None
           end
      else None
  end.

Definition lowered (s : list ascii) : string :=
  string_of_list_ascii (map lower_char s).

(** The text of a float, white space already stripped. *)
Definition parse_float_body (s : list ascii) : option float :=
  let (neg, s1) := parse_sign s in
  let (ip, s2) := span_digits s1 in
  let (fp, s3) :=
    match s2 with
    | c :: r => if Ascii.eqb c "." then span_digits r else ([], s2)
    | [] => ([], s2)
    end in
  match (ip ++ fp)%list with
  | [] =>
      if (lowered s1 =? "inf")%string || (lowered s1 =? "infinity")%string
      then Some (S754_infinity neg)
      else if (lowered s1 =? "nan")%string then Some S754_nan
      else None
  | ds =>
      match parse_exponent s3 with
      | Some e =>
          Some (float_of_decimal neg (digits_value ds)
                  (e - Z.of_nat (List.length fp)))
      | None => None
      end
  end.

Definition float_of_string (s : string) : result float :=
  let cs := list_ascii_of_string s in
  if existsb (fun c => (127 <=? code c) && negb (is_float_space c)) cs
  then Raise ValueError
  else match drop_underscores "000" cs with
       | None => Raise ValueError
       | Some cs' =>
           match parse_float_body (strip_with is_float_space cs') with
           | Some x => Ok x
           | None => Raise ValueError
           end
       end.

(** *** [repr(x)] for a [float]: the shortest decimal that reads back as
    [x], the nearest to [x] among the shortest. *)

Definition float_same (x y : float) : bool :=
  match x, y with
  | S754_zero a, S754_zero b => Bool.eqb a b
  | S754_infinity a, S754_infinity b => Bool.eqb a b
  | S754_nan, S754_nan => true
  | S754_finite a m e, S754_finite b n f =>
      Bool.eqb a b && Pos.eqb m n && (e =? f)
  | _, _ => false
  end.

(** [m * 2^e] as a fraction *)
Definition ratio_of (m : positive) (e : Z) : Z * Z :=
  if 0 <=? e then (Zpos m * 2 ^ e, 1) else (Zpos m, 2 ^ (- e)).

(** the fraction divided by [10^q] *)
Definition scale10 (nd : Z * Z) (q : Z) : Z * Z :=
  let (n, d) := nd in
  if 0 <=? q then (n, d * 10 ^ q) else (n * 10 ^ (- q), d).

Definition decimal_length (n : Z) : Z :=
  Z.of_nat (String.length (str_of_int n)).

(** [floor (log10 (n / d))] *)
Definition floor_log10 (nd : Z * Z) : Z :=
  let g := decimal_length (fst nd) - decimal_length (snd nd) in
  let (a, b) := scale10 nd g in
  if b <=? a then g else g - 1.

(** The decimal [c * 10^q] of [k] digits that reads back as [x], if any. *)
Definition candidate (x : float) (nd : Z * Z) (e10 k : Z) : option (Z * Z) :=
  let q := e10 - k + 1 in
  let (a, b) := scale10 nd q in
  let lo := a / b in
  let r := a mod b in
  let ok c := float_same (float_of_decimal false c q) x in
  if r =? 0 then (if ok lo then Some (lo, q) else None)
  else if (2 * r <? b) || ((2 * r =? b) && Z.even lo)
       then if ok lo then Some (lo, q)
            else if ok (lo + 1) then Some (lo + 1, q) else None
       else if ok (lo + 1) then Some (lo + 1, q)
            else if ok lo then Some (lo, q) else None.

Fixpoint shortest_from (fuel : nat) (x : float) (nd : Z * Z) (e10 k : Z)
  : Z * Z :=
  match fuel with
  | O => let (a, b) := scale10 nd (e10 - 16) in (a / b, e10 - 16)
  | S fuel' =>
      match candidate x nd e10 k with
      | Some r => r
      | None => shortest_from fuel' x nd e10 (k + 1)
      end
  end.

Definition strip_trailing_zeros (s : string) : string :=
  string_of_list_ascii
    (rev (lstrip_with (fun c => Ascii.eqb c "0") (rev (list_ascii_of_string s)))).

Definition zeros (n : Z) : string := repeat_char "0" (Z.to_nat n).

(** The digits [ds] with the decimal point after [decpt] of them. *)
Definition format_short (ds : string) (decpt : Z) : string :=
  let len := Z.of_nat (String.length ds) in
  if (decpt <=? -4) || (16 <? decpt)
  then let e := decpt - 1 in
       let ex := str_of_int (Z.abs e) in
       substring 0 1 ds
       ++ (if 1 <? len then "." ++ substring 1 (String.length ds - 1) ds else "")
       ++ "e" ++ (if e <? 0 then "-" else "+")
       ++ (if Z.abs e <? 10 then "0" ++ ex else ex)
  else if decpt <=? 0 then "0." ++ zeros (- decpt) ++ ds
  else if len <=? decpt then ds ++ zeros (decpt - len) ++ ".0"
  else substring 0 (Z.to_nat decpt) ds ++ "."
       ++ substring (Z.to_nat decpt) (String.length ds - Z.to_nat decpt) ds.

Definition repr_float (x : float) : string :=
  match x with
  | S754_nan => "nan"
  | S754_infinity s => if s then "-inf" else "inf"
  | S754_zero s => if s then "-0.0" else "0.0"
  | S754_finite s m e =>
      let nd := ratio_of m e in
      let e10 := floor_log10 nd in
      let (c, q) := shortest_from 17 (S754_finite false m e) nd e10 1 in
      (if s then "-" else "")
      ++ format_short (strip_trailing_zeros (str_of_int c))
           (decimal_length c + q)
  end.

(** *** NumPy rounding *)

(** [numpy.rint]: the nearest integer, ties to even. *)
Definition rint (x : float) : float :=
  match x with
  | S754_finite s m e =>
      if 0 <=? e then x
      else let d := 2 ^ (- e) in
           let q := Zpos m / d in
           let r := Zpos m mod d in
           let n := if 2 * r <? d then q
                    else if (2 * r =? d) && Z.even q then q else q + 1 in
           if n =? 0 then S754_zero s
           else binary_normalize prec emax (if s then - n else n) 0 false
  | _ => x
  end.

Definition ten : float := float_of_int_rounded 10.
Definition hundred : float := float_of_int_rounded 100.

(** [numpy.round(x, 1)]: multiply by ten, [rint], divide by ten. *)
Definition round1 (x : float) : float :=
  SFdiv prec emax (rint (SFmul prec emax x ten)) ten.

(** ** Values held by the cells of a raw table *)

Inductive scalar : Set :=
| SNone
| SInt (n : Z)
| SFloat (x : float)
| SStr (s : string).

(** A cell is a scalar or a list of scalars (a multi-select field). *)
Inductive value : Set :=
| One (x : scalar)
| Many (xs : list scalar).

(** [pd.isna(x)] for a scalar *)
Definition isna (x : scalar) : bool :=
  match x with
  | SNone => true
  | SFloat S754_nan => true
  | _ => false
  end.

(** [if pd.isna(val):] -- on a list [pd.isna] returns an array, whose truth
    value is that of its element when it has one, and an error otherwise
    (NumPy 2.2 and later for the empty array). *)
Definition isna_truth (val : value) : result bool :=
  match val with
  | One x => Ok (isna x)
  | Many [x] => Ok (isna x)
  | Many _ => Raise ValueError
  end.

(** [float(val)] *)
Definition py_float (val : value) : result float :=
  match val with
  | One (SInt n) =>
      match float_of_int_rounded n with
      | S754_infinity _ => Raise OverflowError
      | x => Ok x
      end
  | One (SFloat x) => Ok x
  | One (SStr s) => float_of_string s
  | One SNone => Raise TypeError
  | Many _ => Raise TypeError
  end.

(** [int(float(val))] *)
Definition int_float (val : value) : result Z :=
  bind (py_float val) int_of_float.

(** [repr(s)] for a [str] *)
Definition hex_digit (n : Z) : ascii :=
  ascii_of_N (Z.to_N (if n <? 10 then 48 + n else 87 + n)).

Definition repr_char (quote : ascii) (c : ascii) : string :=
  let n := code c in
  if Ascii.eqb c quote || Ascii.eqb c "\" then String "\" (String c "")
  else if n =? 9 then "\t"
  else if n =? 10 then "\n"
  else if n =? 13 then "\r"
  else if (n <? 32) || between 127 160 n || (n =? 173)
       then String "\" (String "x"
              (String (hex_digit (n / 16)) (String (hex_digit (n mod 16)) "")))
       else String c "".

Fixpoint repr_chars (quote : ascii) (s : string) : string :=
  match s with
  | EmptyString => ""
  | String c s' => repr_char quote c ++ repr_chars quote s'
  end.

Definition double_quote : ascii := ascii_of_N 34.

Definition repr_str (s : string) : string :=
  let quote :=
    if str_in "'" s && negb (str_in (String double_quote "") s)
    then double_quote else "'"%char in
  String quote (repr_chars quote s ++ String quote "").

(** [str(x)] and [repr(x)] *)
Definition str_scalar (x : scalar) : string :=
  match x with
  | SNone => "None"
  | SInt n => str_of_int n
  | SFloat f => repr_float f
  | SStr s => s
  end.

Definition repr_scalar (x : scalar) : string :=
  match x with
  | SStr s => repr_str s
  | _ => str_scalar x
  end.

Definition py_str (val : value) : string :=
  match val with
  | One x => str_scalar x
  | Many xs => "[" ++ join ", " (map repr_scalar xs) ++ "]"
  end.

(** ** Dictionaries *)

Definition int_dict : Set := list (Z * string).
Definition str_dict : Set := list (string * string).

Fixpoint int_dict_get (d : int_dict) (k : Z) : option string :=
  match d with
  | [] => None
  | (k', v) :: d' => if k' =? k then Some v else int_dict_get d' k
  end.

Fixpoint str_dict_get (d : str_dict) (k : string) : option string :=
  match d with
  | [] => None
  | (k', v) :: d' => if (k' =? k)%string then Some v else str_dict_get d' k
  end.

(** [val in mapping] then [mapping[val]], for a dictionary with [int]
    keys: an [int] or a float equal to one can be a key, a list cannot be
    hashed. *)
Definition int_dict_lookup (d : int_dict) (val : value)
  : result (option string) :=
  match val with
  | One (SInt n) => Ok (int_dict_get d n)
  | One (SFloat x) =>
      Ok (match float_as_int x with
          | Some n => int_dict_get d n
          | None => None
          end)
  | One _ => Ok None
  | Many _ => Raise TypeError
  end.

End Py.

(* ================================================================== *)
(** * pandas operations used by the pipeline *)
(* ================================================================== *)

Module Pandas.
Import Py.

(** [Series.apply(f)]: [f] on each element in turn; the first exception
    ends the traversal. *)
Fixpoint apply {A : Type} (f : value -> result A) (col : list value)
  : result (list A) :=
  match col with
  | [] => Ok []
  | v :: col' =>
      a <- f v ;;
      rest <- apply f col' ;;
      Ok (a :: rest)
  end.

(** Lexicographic order on pairs of keys *)
Definition cmp_pair {A B : Type} (ca : A -> A -> comparison)
  (cb : B -> B -> comparison) (x y : A * B) : comparison :=
  match ca (fst x) (fst y) with
  | Eq => cb (snd x) (snd y)
  | c => c
  end.

Section GroupBy.

Context {K A : Type}.
Variable cmp : K -> K -> comparison.

Definition same_key (k k' : K) : bool :=
  match cmp k k' with
  | Eq => true
  | _ => false
  end.

Fixpoint insert_key (k : K) (ks : list K) : list K :=
  match ks with
  | [] => [k]
  | h :: t =>
      match cmp k h with
      | Lt => k :: ks
      | Eq => ks
      | Gt => h :: insert_key k t
      end
  end.

(** The distinct keys in increasing order *)
Definition unique_sorted (ks : list K) : list K :=
  fold_right insert_key [] ks.

(** [df.groupby(key)]: one group per distinct key, the keys in increasing
    order, each group holding its rows in their original order. *)
Definition groupby (key : A -> K) (df : list A) : list (K * list A) :=
  map (fun k => (k, filter (fun r => same_key (key r) k) df))
      (unique_sorted (map key df)).

End GroupBy.

(** What the order of the keys of a [groupby] satisfies *)
Record order_laws {K : Type} (cmp : K -> K -> comparison) : Prop := {
  cmp_eq : forall a b, cmp a b = Eq -> a = b;
  cmp_refl : forall a, cmp a a = Eq;
  cmp_antisym : forall a b, cmp b a = CompOpp (cmp a b);
  cmp_trans : forall a b c, cmp a b = Lt -> cmp b c = Lt -> cmp a c = Lt
}.

(** The sum of a column [f] *)
Definition sum_of {A : Type} (f : A -> Z) (l : list A) : Z :=
  fold_right (fun x acc => f x + acc) 0 l.

End Pandas.

(* ================================================================== *)
(** * [src/config.py] *)
(* ================================================================== *)

Module Config.
Import Py.

Definition COUNTRY_MAPPINGS : list (string * str_dict) :=
  [ ("Marionnaud",
     [ ("3", "MRN"); ("9", "MFR"); ("10", "MCH"); ("11", "MAT");
       ("12", "MRO"); ("13", "MIT"); ("14", "MCZ"); ("15", "MSK");
       ("16", "MHU"); ("22", "MCH_SPR"); ("23", "MAT_SPR");
       ("24", "MRO_SPR"); ("25", "MIT_SPR"); ("26", "MCZ_SPR");
       ("27", "MSK_SPR"); ("28", "MHU_SPR") ]);
    ("Drogas", [ ("5", "LT"); ("6", "LV"); ("7", "RU") ]) ].

Definition PRIORITY_MAPPINGS : int_dict :=
  [ (3, "High"); (4, "Highest"); (5, "Medium") ].

Definition DEVICE_MAPPINGS : int_dict :=
  [ (1, "Desktop"); (2, "Mobile"); (3, "Both") ].

Definition JAVA_STATUS_MAPPINGS : int_dict :=
  [ (1, "Not Automated"); (2, "To Be Automated"); (3, "Automated");
    (4, "N/A"); (5, "To Be Automated"); (6, "To Be Automated");
    (7, "Not Automated"); (8, "Automated"); (9, "Automated");
    (10, "To Be Automated") ].

Definition TESTIM_STATUS_MAPPINGS : int_dict :=
  [ (1, "Not Automated"); (2, "To Be Automated"); (3, "Automated");
    (4, "N/A"); (5, "To Be Automated"); (6, "To Be Automated");
    (7, "Not Automated"); (8, "Automated"); (9, "Automated") ].

Definition FIELD_VARIATIONS : list (string * list string) :=
  [ ("java", ["custom_automation_status"; "automation_status"]);
    ("testim_desktop",
     ["custom_case_automation_status_testim";
      "custom_automation_status_testim_desktop_view";
      "automation_status_testim_desktop"]);
    ("testim_mobile",
     ["custom_case_automation_status_mobile_view";
      "custom_automation_status_testim_mobile_view";
      "automation_status_testim_mobile"]);
    ("epic",
     ["custom_epic_reference"; "custom_epicreference"; "custom_epic"; "refs"]);
    ("device", ["custom_device"; "device"; "custom_devices"]);
    ("country", ["multi_countries"; "custom_multi_countries"; "countries"]);
    ("priority", ["priority_id"; "priority"; "custom_priority"]) ].

(** [d.get(k, default)] for the dictionaries keyed by a name *)
Fixpoint named_get {A : Type} (d : list (string * A)) (k : string) (default : A)
  : A :=
  match d with
  | [] => default
  | (k', v) :: d' => if (k' =? k)%string then v else named_get d' k default
  end.

(** ** Business units *)

Record BusinessUnitConfig : Set := {
  name : string;
  project_id : Z;
  suite_id : Z
}.

Definition _BU_DATA : list (string * (Z * Z)) :=
  [ ("Microservices", (17, 9570));
    ("ICI Paris XL", (4, 1399));
    ("Kruidvat", (11, 115));
    ("Trekpleister", (3, 30784));
    ("Superdrug", (5, 71));
    ("Savers", (3, 30784));
    ("The Perfume Shop", (22, 11833));
    ("Marionnaud", (3, 30784));
    ("Drogas", (22, 16093)) ].

Definition BU_CONFIG : list (string * BusinessUnitConfig) :=
  map (fun item : string * (Z * Z) =>
         let '(name, (pid, sid)) := item in
         (name, {| name := name; project_id := pid; suite_id := sid |}))
      _BU_DATA.

Definition get_bu_names : list string := map fst BU_CONFIG.

(** [d[k]] when [k in d], for a dictionary keyed by a name *)
Fixpoint named_lookup {A : Type} (d : list (string * A)) (k : string)
  : option A :=
  match d with
  | [] => None
  | (k', v) :: d' => if (k' =? k)%string then Some v else named_lookup d' k
  end.

Definition get_bu_config (bu_name : string) : result BusinessUnitConfig :=
  match named_lookup BU_CONFIG bu_name with
  | None => Raise ValueError
  | Some config => Ok config
  end.

End Config.

(* ================================================================== *)
(** * [src/transformer.py] *)
(* ================================================================== *)

Module Transformer.
Import Py Pandas Config.

Definition or_default (o : option string) (default : string) : string :=
  match o with
  | Some v => v
  | None => default
  end.

Definition _map_field_value (val : value) (mapping : int_dict)
  (default : string) : result string :=
  na <- isna_truth val ;;
  if na then Ok default
  else
    (* Try direct lookup *)
    direct <- int_dict_lookup mapping val ;;
    match direct with
    | Some v => Ok v
    | None =>
        (* Try as integer *)
        found <- try_except_ValueError_TypeError
                   (val_int <- int_float val ;;
                    Ok (int_dict_get mapping val_int))
                   (Ok None) ;;
        Ok (or_default found default)
    end.

Definition map_country_id (val : value) (bu_name : string) : result string :=
  let country_map := named_get COUNTRY_MAPPINGS bu_name [] in
  match val with
  | Many [] => Ok "Unknown"
  | Many xs =>
      Ok (join ", "
            (map (fun v =>
                    or_default (str_dict_get country_map (strip (str_scalar v)))
                      ("ID_" ++ str_scalar v))
               xs))
  | One x =>
      if isna x then Ok "Unknown"
      else
        let val_str := strip (str_scalar x) in
        match str_dict_get country_map val_str with
        | Some c => Ok c
        | None =>
            found <- try_except_ValueError_TypeError
                       (val_int <- int_float (One (SStr val_str)) ;;
                        Ok (str_dict_get country_map (str_of_int val_int)))
                       (Ok None) ;;
            Ok (or_default found ("ID_" ++ val_str))
        end
  end.

Definition map_priority (val : value) : result string :=
  na <- isna_truth val ;;
  if na then Ok "Unknown"
  else
    match int_float val with
    | Ok val_int => Ok (or_default (int_dict_get PRIORITY_MAPPINGS val_int) "Unknown")
    | Raise OverflowError => Raise OverflowError
    | Raise _ =>
        let val_str := lower (strip (py_str val)) in
        if str_in "highest" val_str then Ok "Highest"
        else if str_in "high" val_str then Ok "High"
        else if str_in "medium" val_str then Ok "Medium"
        else Ok "Unknown"
    end.

Definition map_device_status (val : value) : result string :=
  _map_field_value val DEVICE_MAPPINGS "Both".

Definition map_automation_status_java (val : value) : result (option string) :=
  na <- isna_truth val ;;
  if na then Ok None
  else try_except_ValueError_TypeError
         (val_int <- int_float val ;;
          Ok (int_dict_get JAVA_STATUS_MAPPINGS val_int))
         (Ok None).

Definition map_automation_status_testim (val : value) : result (option string) :=
  na <- isna_truth val ;;
  if na then Ok None
  else try_except_ValueError_TypeError
         (val_int <- int_float val ;;
          Ok (int_dict_get TESTIM_STATUS_MAPPINGS val_int))
         (Ok None).

(** The three status fields [determine_final_status] reads from a row;
    [None] is what [row.get] yields for an absent status. *)
Record status_row : Set := {
  Java_Status : option string;
  Testim_Desktop_Status : option string;
  Testim_Mobile_Status : option string
}.

(** [x == "label"] for a status that may be [None] *)
Definition is_status (x : option string) (label : string) : bool :=
  match x with
  | Some s => (s =? label)%string
  | None => false
  end.

Definition determine_final_status (row : status_row) : string :=
  let java_status := Java_Status row in
  let testim_desktop := Testim_Desktop_Status row in
  let testim_mobile := Testim_Mobile_Status row in
  let testim_desktop_automated := is_status testim_desktop "Automated" in
  let testim_mobile_automated := is_status testim_mobile "Automated" in
  let java_automated := is_status java_status "Automated" in
  (* Check for Testim automation (highest priority) *)
  if testim_desktop_automated && testim_mobile_automated
  then "Automated - Testim Both"
  else if testim_desktop_automated && java_automated
  then "Automated - Testim Desktop"
  else if testim_mobile_automated && java_automated
  then "Automated - Testim Mobile"
  else if testim_desktop_automated then "Automated - Testim Desktop"
  else if testim_mobile_automated then "Automated - Testim Mobile"
  else if java_automated then "Automated - Java"
  (* Check for N/A status *)
  else if is_status java_status "N/A" || is_status testim_desktop "N/A"
          || is_status testim_mobile "N/A"
  then "N/A"
  (* Check for To Be Automated *)
  else if is_status java_status "To Be Automated"
          || is_status testim_desktop "To Be Automated"
          || is_status testim_mobile "To Be Automated"
  then "To Be Automated"
  else "Not Automated".

(** ** The raw table and the summary *)

(** A raw DataFrame: its column names, and its rows as the value each holds
    under a column name. *)
Record DataFrame : Type := {
  columns : list string;
  rows : list (string -> value)
}.

(** [df.empty]: no row or no column *)
Definition empty (df : DataFrame) : bool :=
  match rows df, columns df with
  | [], _ => true
  | _, [] => true
  | _, _ => false
  end.

(** [df[name]] *)
Definition column (df : DataFrame) (name : string) : list value :=
  map (fun row => row name) (rows df).

(** A column holding the same value in every row: [df[name] = v] *)
Definition constant {A : Type} (df : DataFrame) (v : A) : list A :=
  map (fun _ => v) (rows df).

Definition find_field (df : DataFrame) (field_type : string) : option string :=
  let possible_fields := named_get FIELD_VARIATIONS field_type [] in
  find (fun field => existsb (String.eqb field) (columns df)) possible_fields.

(** One row of the summary *)
Record SummaryRow : Set := {
  Epic : string;
  Status : string;
  Device : string;
  Country : string;
  Priority : string;
  Count : Z
}.

(** The five columns [process] derives for a case *)
Definition case_key : Set := string * string * string * string * string.

Definition cmp_case_key : case_key -> case_key -> comparison :=
  cmp_pair (cmp_pair (cmp_pair (cmp_pair String.compare String.compare)
                        String.compare) String.compare) String.compare.

Fixpoint status_rows (java desktop mobile : list (option string))
  : list status_row :=
  match java, desktop, mobile with
  | j :: java', d :: desktop', m :: mobile' =>
      {| Java_Status := j; Testim_Desktop_Status := d;
         Testim_Mobile_Status := m |} :: status_rows java' desktop' mobile'
  | _, _, _ => []
  end.

Fixpoint case_keys (epic status device country priority : list string)
  : list case_key :=
  match epic, status, device, country, priority with
  | e :: epic', s :: status', d :: device', c :: country', p :: priority' =>
      (e, s, d, c, p) :: case_keys epic' status' device' country' priority'
  | _, _, _, _, _ => []
  end.

(** [fillna('No Epic Assigned').astype(str)] on one cell *)
Definition epic_label (v : value) : string :=
  match v with
  | One x => if isna x then "No Epic Assigned" else str_scalar x
  | Many _ => py_str v
  end.

(** [groupby([...], dropna=False).size().reset_index(name='Count')] *)
Definition summarize (cases : list case_key) : list SummaryRow :=
  map (fun g : case_key * list case_key =>
         let '(e, s, d, c, p) := fst g in
         {| Epic := e; Status := s; Device := d; Country := c; Priority := p;
            Count := Z.of_nat (List.length (snd g)) |})
      (groupby cmp_case_key (fun k => k) cases).

(** What [process] reports through [st.error] *)
Inductive report : Set :=
| NoDataToProcess
| JavaFieldNotFound
| ProcessingError (e : exn).

(** The body of the [try] block of [process].  The columns the code adds to
    [df] are kept as lists of their own: none of their names is an alias of
    [FIELD_VARIATIONS], so the later [find_field] calls see the same
    columns. *)
Definition process_try (df : DataFrame) (bu_name : string)
  : result (list SummaryRow * list report) :=
  (* Find field names *)
  match find_field df "java" with
  | None => Ok ([], [JavaFieldNotFound])
  | Some java_field =>
      (* Map automation statuses *)
      Java_Status_col <-
        apply map_automation_status_java (column df java_field) ;;
      Testim_Desktop_Status_col <-
        match find_field df "testim_desktop" with
        | Some f => apply map_automation_status_testim (column df f)
        | None => Ok (constant df None)
        end ;;
      Testim_Mobile_Status_col <-
        match find_field df "testim_mobile" with
        | Some f => apply map_automation_status_testim (column df f)
        | None => Ok (constant df None)
        end ;;
      (* Determine final status *)
      let Status_col :=
        map determine_final_status
          (status_rows Java_Status_col Testim_Desktop_Status_col
             Testim_Mobile_Status_col) in
      (* Map Epic *)
      let Epic_col :=
        match find_field df "epic" with
        | Some f => map epic_label (column df f)
        | None => constant df "No Epic Assigned"
        end in
      (* Map Device *)
      Device_col <-
        match find_field df "device" with
        | Some f => apply map_device_status (column df f)
        | None => Ok (constant df "Both")
        end ;;
      (* Map Country *)
      Country_col <-
        match find_field df "country" with
        | Some f => apply (fun x => map_country_id x bu_name) (column df f)
        | None => Ok (constant df "Unknown")
        end ;;
      (* Map Priority *)
      Priority_col <-
        match find_field df "priority" with
        | Some f => apply map_priority (column df f)
        | None => Ok (constant df "Unknown")
        end ;;
      (* Create summary *)
      Ok (summarize
            (case_keys Epic_col Status_col Device_col Country_col Priority_col),
          [])
  end.

(** [process]: the summary table and what was reported; [[]] is the empty
    DataFrame. *)
Definition process (df : DataFrame) (bu_name : string)
  : list SummaryRow * list report :=
  if empty df then ([], [NoDataToProcess])
  else match process_try df bu_name with
       | Ok out => out
       | Raise e => ([], [ProcessingError e])
       end.


(** Cells on which no mapper raises: a scalar whose conversion by
    [int(float(...))] does not overflow; for the country, a list as well. *)
Definition plain (v : value) : Prop :=
  match v with
  | One _ => int_float v <> Raise OverflowError
  | Many _ => False
  end.

Definition plain_country (v : value) : Prop :=
  match v with
  | One x => int_float (One (SStr (strip (str_scalar x)))) <> Raise OverflowError
  | Many _ => True
  end.

Definition scalar_categories : list string :=
  ["java"; "testim_desktop"; "testim_mobile"; "device"; "priority"].

(** A raw table whose mapped columns hold such cells *)
Definition plain_table (df : DataFrame) : Prop :=
  forall row, In row (rows df) ->
    (forall category field,
        In category scalar_categories ->
        find_field df category = Some field -> plain (row field))
    /\ (forall field,
          find_field df "country" = Some field -> plain_country (row field)).

(** What the priority mapper yields for an integer code and for a text *)
Definition priority_of_code (n : Z) : string :=
  if n =? 3 then "High"
  else if n =? 4 then "Highest"
  else if n =? 5 then "Medium"
  else "Unknown".

Definition priority_of_text (s : string) : string :=
  let t := lower (strip s) in
  if str_in "highest" t then "Highest"
  else if str_in "high" t then "High"
  else if str_in "medium" t then "Medium"
  else "Unknown".

(** The number of raw cases whose primary-framework status code maps to a
    status, [field] being the column that holds the code. *)
Definition resolvable_cases (df : DataFrame) (field : string) : nat :=
  List.length
    (filter (fun row =>
               match map_automation_status_java (row field) with
               | Ok (Some _) => true
               | _ => false
               end)
       (rows df)).

End Transformer.

(* ================================================================== *)
(** * [src/metrics.py] *)
(* ================================================================== *)

Module Metrics.
Import Py Pandas Transformer.

(** ** Column operations on the summary *)

(** [df['Count'].sum()] *)
Definition sum_count (df : list SummaryRow) : Z :=
  fold_right (fun r acc => Count r + acc) 0 df.

(** [df[df['Status'] == label]] *)
Definition with_status (label : string) (df : list SummaryRow)
  : list SummaryRow :=
  filter (fun r => (Status r =? label)%string) df.

(** [s.str.contains('Automated -', na=False)]: the pattern has no regular
    expression operator, and matches where it occurs as a substring. *)
Definition contains_automated (status : string) : bool :=
  str_in "Automated -" status.

(** A Python number: the [0] of a guarded ratio is an [int], the ratio
    itself a float. *)
Inductive number : Set :=
| Int (n : Z)
| Float (x : float).

(** [a / b * 100] on NumPy integers *)
Definition percent (a b : Z) : float :=
  SFmul prec emax
    (SFdiv prec emax (float_of_int_rounded a) (float_of_int_rounded b))
    hundred.

(** [(a / b * 100) if b > 0 else 0] *)
Definition percent_if_positive (a b : Z) : number :=
  if 0 <? b then Float (percent a b) else Int 0.

(** ** Overall metrics *)

Record OverallMetrics : Set := {
  total : Z;
  automated_java : Z;
  automated_testim_desktop : Z;
  automated_testim_mobile : Z;
  automated_testim_both : Z;
  total_automated : Z;
  total_testim : Z;
  to_be_automated : Z;
  not_applicable : Z;
  not_automated : Z;
  effective_total : Z;
  coverage : number
}.

Definition calculate_overall_metrics (df : list SummaryRow) : OverallMetrics :=
  let total := sum_count df in
  (* Calculate automated counts by framework *)
  let automated_java := sum_count (with_status "Automated - Java" df) in
  let automated_testim_desktop :=
    sum_count (with_status "Automated - Testim Desktop" df) in
  let automated_testim_mobile :=
    sum_count (with_status "Automated - Testim Mobile" df) in
  let automated_testim_both :=
    sum_count (with_status "Automated - Testim Both" df) in
  let total_automated :=
    automated_java + automated_testim_desktop + automated_testim_mobile
    + automated_testim_both in
  let total_testim :=
    automated_testim_desktop + automated_testim_mobile + automated_testim_both in
  (* Calculate other status counts *)
  let to_be_automated := sum_count (with_status "To Be Automated" df) in
  let not_applicable := sum_count (with_status "N/A" df) in
  let not_automated := sum_count (with_status "Not Automated" df) in
  (* Calculate coverage *)
  let effective_total := total - not_applicable in
  let coverage := percent_if_positive total_automated effective_total in
  {| total := total;
     automated_java := automated_java;
     automated_testim_desktop := automated_testim_desktop;
     automated_testim_mobile := automated_testim_mobile;
     automated_testim_both := automated_testim_both;
     total_automated := total_automated;
     total_testim := total_testim;
     to_be_automated := to_be_automated;
     not_applicable := not_applicable;
     not_automated := not_automated;
     effective_total := effective_total;
     coverage := coverage |}.

(** ** Testim metrics *)

Record TestimMetrics : Set := {
  testim_total : Z;
  tm_total_testim : Z;
  testim_coverage : number;
  desktop : Z;
  mobile : Z;
  both : Z;
  desktop_pct : number;
  mobile_pct : number;
  both_pct : number;
  tm_to_be_automated : Z;
  tm_not_automated : Z
}.

Definition calculate_testim_metrics (df : list SummaryRow) : TestimMetrics :=
  let automated_testim_desktop :=
    sum_count (with_status "Automated - Testim Desktop" df) in
  let automated_testim_mobile :=
    sum_count (with_status "Automated - Testim Mobile" df) in
  let automated_testim_both :=
    sum_count (with_status "Automated - Testim Both" df) in
  let total_testim :=
    automated_testim_desktop + automated_testim_mobile + automated_testim_both in
  let testim_total :=
    total_testim
    + sum_count
        (filter (fun r => (Status r =? "To Be Automated")%string
                          || (Status r =? "Not Automated")%string) df) in
  let testim_coverage := percent_if_positive total_testim testim_total in
  (* Calculate device percentages *)
  let desktop_pct := percent_if_positive automated_testim_desktop total_testim in
  let mobile_pct := percent_if_positive automated_testim_mobile total_testim in
  let both_pct := percent_if_positive automated_testim_both total_testim in
  {| testim_total := testim_total;
     tm_total_testim := total_testim;
     testim_coverage := testim_coverage;
     desktop := automated_testim_desktop;
     mobile := automated_testim_mobile;
     both := automated_testim_both;
     desktop_pct := desktop_pct;
     mobile_pct := mobile_pct;
     both_pct := both_pct;
     tm_to_be_automated := sum_count (with_status "To Be Automated" df);
     tm_not_automated := sum_count (with_status "Not Automated" df) |}.

(** ** Device metrics *)

Record DeviceMetrics : Set := {
  dm_automated : Z;
  dm_total : Z;
  dm_coverage : number
}.

(** The dictionary, as its items in insertion order *)
Definition calculate_device_metrics (df : list SummaryRow)
  : list (string * DeviceMetrics) :=
  map (fun device =>
         let device_data := filter (fun r => (Device r =? device)%string) df in
         let device_automated :=
           sum_count (filter (fun r => contains_automated (Status r)) device_data) in
         let device_total := sum_count device_data in
         let device_coverage := percent_if_positive device_automated device_total in
         (device,
          {| dm_automated := device_automated;
             dm_total := device_total;
             dm_coverage := device_coverage |}))
      ["Desktop"; "Mobile"; "Both"].

(** ** Epic pivot *)

(** A row of [epic_summary]: the count of one status within one epic *)
Record EpicStatusRow : Set := {
  es_Epic : string;
  es_Status : string;
  es_Count : Z
}.

Definition es_sum (group : list EpicStatusRow) : Z :=
  fold_right (fun r acc => es_Count r + acc) 0 group.

(** A row of the pivot, indexed by its epic *)
Record PivotRow : Set := {
  index : string;
  Automated : Z;
  To_Be_Automated : Z;
  N_A : Z;
  Not_Automated : Z;
  TOTAL : Z;
  EFFECTIVE_TOTAL : Z;
  COVERAGE : float
}.

(** The counts [aggregate_epic_status] returns for a group *)
Record EpicCounts : Set := {
  ec_Automated : Z;
  ec_To_Be_Automated : Z;
  ec_N_A : Z;
  ec_Not_Automated : Z;
  ec_TOTAL : Z
}.

Definition aggregate_epic_status (group : list EpicStatusRow) : EpicCounts :=
  let automated_count :=
    es_sum (filter (fun r => contains_automated (es_Status r)) group) in
  let to_be_count :=
    es_sum (filter (fun r => (es_Status r =? "To Be Automated")%string) group) in
  let na_count :=
    es_sum (filter (fun r => (es_Status r =? "N/A")%string) group) in
  let not_auto_count :=
    es_sum (filter (fun r => (es_Status r =? "Not Automated")%string) group) in
  let total := es_sum group in
  {| ec_Automated := automated_count;
     ec_To_Be_Automated := to_be_count;
     ec_N_A := na_count;
     ec_Not_Automated := not_auto_count;
     ec_TOTAL := total |}.

(** [((a / e) * 100).round(1)], then [.fillna(0).replace([inf], 0)] *)
Definition zero : float := S754_zero false.

Definition fillna_replace_inf (x : float) : float :=
  match x with
  | S754_nan => zero
  | S754_infinity false => zero
  | _ => x
  end.

Definition coverage_pct (automated effective : Z) : float :=
  fillna_replace_inf (round1 (percent automated effective)).

(** [sort_values(by='COVERAGE %', ascending=False)].  pandas leaves the
    order of rows of equal coverage to the sorting algorithm; here they keep
    their order. *)
Fixpoint insert_desc (r : PivotRow) (sorted : list PivotRow) : list PivotRow :=
  match sorted with
  | [] => [r]
  | h :: t =>
      if SFltb (COVERAGE r) (COVERAGE h) then h :: insert_desc r t
      else r :: sorted
  end.

Definition sort_values_desc (pivot : list PivotRow) : list PivotRow :=
  fold_right insert_desc [] pivot.

(** Descending order of coverage: each row has a coverage at least that of
    the row after it. *)
Definition covers_desc (a b : PivotRow) : Prop :=
  SFleb (COVERAGE b) (COVERAGE a) = true.

Definition has_coverage (r : PivotRow) : Prop := COVERAGE r <> S754_nan.

(** [df.groupby(['Epic', 'Status'])['Count'].sum().reset_index()] *)
Definition epic_status_summary (df : list SummaryRow) : list EpicStatusRow :=
  map (fun g : (string * string) * list SummaryRow =>
         {| es_Epic := fst (fst g); es_Status := snd (fst g);
            es_Count := sum_count (snd g) |})
      (groupby (cmp_pair String.compare String.compare)
         (fun r => (Epic r, Status r)) df).

(** The pivot before sorting: one row per epic, in the order of the epics *)
Definition epic_pivot (df : list SummaryRow) : list PivotRow :=
  map (fun g : string * list EpicStatusRow =>
         let c := aggregate_epic_status (snd g) in
         let effective := ec_TOTAL c - ec_N_A c in
         {| index := fst g;
            Automated := ec_Automated c;
            To_Be_Automated := ec_To_Be_Automated c;
            N_A := ec_N_A c;
            Not_Automated := ec_Not_Automated c;
            TOTAL := ec_TOTAL c;
            EFFECTIVE_TOTAL := effective;
            COVERAGE := coverage_pct (ec_Automated c) effective |})
      (groupby String.compare es_Epic (epic_status_summary df)).

(** The pivot [calculate_epic_metrics] returns (its first component; the
    statistics it derives from the pivot are not part of this model). *)
Definition calculate_epic_metrics (df : list SummaryRow) : list PivotRow :=
  sort_values_desc (epic_pivot df).

(** ** Epic search *)

(** The regular expressions modelled: a sequence of literal characters and
    [.]; a pattern that starts with a repetition operator, which [re]
    rejects; any other pattern is outside the model. *)
Inductive re_item : Set :=
| ReChar (c : ascii)
| ReAny.

Inductive compiled : Set :=
| Regex (items : list re_item)
| ReError
| Unsupported.

Definition is_special (c : ascii) : bool :=
  existsb (Ascii.eqb c) (list_ascii_of_string ".^$*+?{}[]\|()").

Definition is_repeat (c : ascii) : bool :=
  existsb (Ascii.eqb c) (list_ascii_of_string "*+?").

Fixpoint re_items (pat : string) : option (list re_item) :=
  match pat with
  | EmptyString => Some []
  | String c pat' =>
      if Ascii.eqb c "." then option_map (cons ReAny) (re_items pat')
      else if is_special c then None
      else option_map (cons (ReChar c)) (re_items pat')
  end.

(** [re.compile(pat, re.IGNORECASE)] *)
Definition re_compile (pat : string) : compiled :=
  match pat with
  | String c _ =>
      if is_repeat c then ReError
      else match re_items pat with
           | Some items => Regex items
           | None => Unsupported
           end
  | EmptyString => Regex []
  end.

Definition item_matches (i : re_item) (c : ascii) : bool :=
  match i with
  | ReChar p => Ascii.eqb (lower_char p) (lower_char c)
  | ReAny => negb (code c =? 10)
  end.

Fixpoint match_here (items : list re_item) (s : string) : bool :=
  match items, s with
  | [], _ => true
  | i :: items', String c s' => item_matches i c && match_here items' s'
  | _ :: _, EmptyString => false
  end.

(** [regex.search(s) is not None] *)
Fixpoint re_search (items : list re_item) (s : string) : bool :=
  if match_here items s then true
  else match s with
       | EmptyString => false
       | String _ s' => re_search items s'
       end.

(** [None]: the search term is a regular expression outside the model. *)
Definition filter_epic_by_search (pivot : list PivotRow) (search_term : string)
  : option (list PivotRow) :=
  if (search_term =? "")%string then Some pivot
  else match re_compile search_term with
       | Regex items => Some (filter (fun r => re_search items (index r)) pivot)
       | ReError => Some pivot
       | Unsupported => None
       end.

End Metrics.

(* ================================================================== *)
(** * [src/metrics.py] on int64 counts *)
(* ================================================================== *)

(** The [Count] column is an int64 column, and NumPy computes its sums,
    and the sums and differences of the results, in int64: a result
    outside [-2^63, 2^63) wraps around.  This module is [metrics.py] with
    that arithmetic, for counts that are int64 values; [Metrics] above is the same code on mathematical
    integers, and the two agree on the tables whose counts are not negative
    and sum to less than 2^63. *)
Module Metrics64.
Import Py Pandas Transformer Metrics.

(** The int64 that holds the exact result [z] reduced modulo 2^64 *)
Definition int64 (z : Z) : Z := (z + 2 ^ 63) mod 2 ^ 64 - 2 ^ 63.

(** [df['Count'].sum()] *)
Definition sum_count (df : list SummaryRow) : Z :=
  fold_right (fun r acc => int64 (Count r + acc)) 0 df.

Definition calculate_overall_metrics (df : list SummaryRow) : OverallMetrics :=
  let total := sum_count df in
  (* Calculate automated counts by framework *)
  let automated_java := sum_count (with_status "Automated - Java" df) in
  let automated_testim_desktop :=
    sum_count (with_status "Automated - Testim Desktop" df) in
  let automated_testim_mobile :=
    sum_count (with_status "Automated - Testim Mobile" df) in
  let automated_testim_both :=
    sum_count (with_status "Automated - Testim Both" df) in
  let total_automated :=
    int64 (int64 (int64 (automated_java + automated_testim_desktop)
                  + automated_testim_mobile)
           + automated_testim_both) in
  let total_testim :=
    int64 (int64 (automated_testim_desktop + automated_testim_mobile)
           + automated_testim_both) in
  (* Calculate other status counts *)
  let to_be_automated := sum_count (with_status "To Be Automated" df) in
  let not_applicable := sum_count (with_status "N/A" df) in
  let not_automated := sum_count (with_status "Not Automated" df) in
  (* Calculate coverage *)
  let effective_total := int64 (total - not_applicable) in
  let coverage := percent_if_positive total_automated effective_total in
  {| total := total;
     automated_java := automated_java;
     automated_testim_desktop := automated_testim_desktop;
     automated_testim_mobile := automated_testim_mobile;
     automated_testim_both := automated_testim_both;
     total_automated := total_automated;
     total_testim := total_testim;
     to_be_automated := to_be_automated;
     not_applicable := not_applicable;
     not_automated := not_automated;
     effective_total := effective_total;
     coverage := coverage |}.

Definition calculate_testim_metrics (df : list SummaryRow) : TestimMetrics :=
  let automated_testim_desktop :=
    sum_count (with_status "Automated - Testim Desktop" df) in
  let automated_testim_mobile :=
    sum_count (with_status "Automated - Testim Mobile" df) in
  let automated_testim_both :=
    sum_count (with_status "Automated - Testim Both" df) in
  let total_testim :=
    int64 (int64 (automated_testim_desktop + automated_testim_mobile)
           + automated_testim_both) in
  let testim_total :=
    int64 (total_testim
           + sum_count
               (filter (fun r => (Status r =? "To Be Automated")%string
                                 || (Status r =? "Not Automated")%string) df)) in
  let testim_coverage := percent_if_positive total_testim testim_total in
  (* Calculate device percentages *)
  let desktop_pct := percent_if_positive automated_testim_desktop total_testim in
  let mobile_pct := percent_if_positive automated_testim_mobile total_testim in
  let both_pct := percent_if_positive automated_testim_both total_testim in
  {| testim_total := testim_total;
     tm_total_testim := total_testim;
     testim_coverage := testim_coverage;
     desktop := automated_testim_desktop;
     mobile := automated_testim_mobile;
     both := automated_testim_both;
     desktop_pct := desktop_pct;
     mobile_pct := mobile_pct;
     both_pct := both_pct;
     tm_to_be_automated := sum_count (with_status "To Be Automated" df);
     tm_not_automated := sum_count (with_status "Not Automated" df) |}.

Definition calculate_device_metrics (df : list SummaryRow)
  : list (string * DeviceMetrics) :=
  map (fun device =>
         let device_data := filter (fun r => (Device r =? device)%string) df in
         let device_automated :=
           sum_count (filter (fun r => contains_automated (Status r)) device_data) in
         let device_total := sum_count device_data in
         let device_coverage := percent_if_positive device_automated device_total in
         (device,
          {| dm_automated := device_automated;
             dm_total := device_total;
             dm_coverage := device_coverage |}))
      ["Desktop"; "Mobile"; "Both"].

(** [group['Count'].sum()] on a group of [epic_summary] *)
Definition es_sum (group : list EpicStatusRow) : Z :=
  fold_right (fun r acc => int64 (es_Count r + acc)) 0 group.

Definition aggregate_epic_status (group : list EpicStatusRow) : EpicCounts :=
  let automated_count :=
    es_sum (filter (fun r => contains_automated (es_Status r)) group) in
  let to_be_count :=
    es_sum (filter (fun r => (es_Status r =? "To Be Automated")%string) group) in
  let na_count :=
    es_sum (filter (fun r => (es_Status r =? "N/A")%string) group) in
  let not_auto_count :=
    es_sum (filter (fun r => (es_Status r =? "Not Automated")%string) group) in
  let total := es_sum group in
  {| ec_Automated := automated_count;
     ec_To_Be_Automated := to_be_count;
     ec_N_A := na_count;
     ec_Not_Automated := not_auto_count;
     ec_TOTAL := total |}.

(** [df.groupby(['Epic', 'Status'])['Count'].sum().reset_index()] *)
Definition epic_status_summary (df : list SummaryRow) : list EpicStatusRow :=
  map (fun g : (string * string) * list SummaryRow =>
         {| es_Epic := fst (fst g); es_Status := snd (fst g);
            es_Count := sum_count (snd g) |})
      (groupby (cmp_pair String.compare String.compare)
         (fun r => (Epic r, Status r)) df).

(** The pivot before sorting *)
Definition epic_pivot (df : list SummaryRow) : list PivotRow :=
  map (fun g : string * list EpicStatusRow =>
         let c := aggregate_epic_status (snd g) in
         let effective := int64 (ec_TOTAL c - ec_N_A c) in
         {| index := fst g;
            Automated := ec_Automated c;
            To_Be_Automated := ec_To_Be_Automated c;
            N_A := ec_N_A c;
            Not_Automated := ec_Not_Automated c;
            TOTAL := ec_TOTAL c;
            EFFECTIVE_TOTAL := effective;
            COVERAGE := coverage_pct (ec_Automated c) effective |})
      (groupby String.compare es_Epic (epic_status_summary df)).

(** The pivot [calculate_epic_metrics] returns *)
Definition calculate_epic_metrics (df : list SummaryRow) : list PivotRow :=
  sort_values_desc (epic_pivot df).

End Metrics64.

(* ================================================================== *)
(** * [dashboard.py]: the filters *)
(* ================================================================== *)

Module Dashboard.
Import Py Pandas Transformer.

(** [df[column]] for the summary, whose columns are the five texts and the
    count; [None] when the summary has no such column. *)
Definition summary_column (column : string) : option (SummaryRow -> scalar) :=
  if (column =? "Epic")%string then Some (fun r => SStr (Epic r))
  else if (column =? "Status")%string then Some (fun r => SStr (Status r))
  else if (column =? "Device")%string then Some (fun r => SStr (Device r))
  else if (column =? "Country")%string then Some (fun r => SStr (Country r))
  else if (column =? "Priority")%string then Some (fun r => SStr (Priority r))
  else if (column =? "Count")%string then Some (fun r => SInt (Count r))
  else None.

(** [x == label] for a cell *)
Definition is_text (x : scalar) (label : string) : bool :=
  match x with
  | SStr s => (s =? label)%string
  | _ => false
  end.

(** [not exclude_prefix or not value.startswith(exclude_prefix)]: no prefix
    and the empty prefix exclude nothing. *)
Definition not_excluded (exclude_prefix : option string) (value : string)
  : bool :=
  match exclude_prefix with
  | None => true
  | Some EmptyString => true
  | Some p => negb (startswith value p)
  end.

(** The values one cell adds to [all_values] *)
Definition filter_values_of (exclude_prefix : option string)
  (value_str : scalar) : list string :=
  if is_text value_str "Unknown" then []
  else if str_in ", " (str_scalar value_str)
  then filter (not_excluded exclude_prefix) (split (str_scalar value_str) ", ")
  else if not_excluded exclude_prefix (str_scalar value_str)
       then [str_scalar value_str]
       else [].

(** The values go into a set, which is then sorted: visiting a value of the
    column once, as [unique()] has it, or once per row adds the same
    elements. *)
Definition get_unique_filter_values (df : list SummaryRow) (column : string)
  (exclude_prefix : option string) : list string :=
  match summary_column column with
  | None => []
  | Some cell =>
      let all_values :=
        flat_map (fun r => filter_values_of exclude_prefix (cell r)) df in
      unique_sorted String.compare all_values
  end.

(** [x in filter_list], and [Series.isin(filter_list)] on one cell *)
Definition isin (x : string) (filter_list : list string) : bool :=
  existsb (String.eqb x) filter_list.

Definition country_matches_filter (country_str : string)
  (filter_list : list string) : bool :=
  if (country_str =? "Unknown")%string then false
  else if str_in ", " country_str
  then existsb (fun c => isin c filter_list) (split country_str ", ")
  else isin country_str filter_list.

(** [df] is a summary with its six columns, as [process] returns it. *)
Definition apply_filters (df : list SummaryRow)
  (device_filter country_filter priority_filter : list string)
  : list SummaryRow :=
  let df_filtered := filter (fun r => isin (Device r) device_filter) df in
  let df_filtered :=
    match country_filter with
    | [] => df_filtered
    | _ => filter (fun r => country_matches_filter (Country r) country_filter)
             df_filtered
    end in
  let df_filtered :=
    match priority_filter with
    | [] => df_filtered
    | _ => filter (fun r => isin (Priority r) priority_filter) df_filtered
    end in
  df_filtered.

(** The filters [render_filters] sets on a reset *)
Definition reset_device_filter : list string := ["Desktop"; "Mobile"; "Both"].

Definition reset_country_filter (df_summary : list SummaryRow) : list string :=
  get_unique_filter_values df_summary "Country" (Some "ID_").

Definition reset_priority_filter (df_summary : list SummaryRow) : list string :=
  get_unique_filter_values df_summary "Priority" None.

End Dashboard.

(* ================================================================== *)
(** * [dashboard.py]: the filters on frames that may lose their columns *)
(* ================================================================== *)

(** [Dashboard.apply_filters] above gives the rows the three masks keep.
    pandas reads [df_filtered[mask]] as a selection of rows only when
    [mask] is a Boolean Series.  [Series.apply] on a column without rows
    returns an empty Series of the column's own dtype, which is not
    Boolean: indexing with it selects the empty list of columns, and the
    later [df_filtered['Priority']] then raises [KeyError].  This module
    is [apply_filters] with that path. *)
Module Frames.
Import Py Pandas Transformer Dashboard.

(** What [apply_filters] ends in: a frame with the six columns of the
    summary and the rows kept, a frame without any column or row, or a
    [KeyError]. *)
Inductive outcome : Type :=
| Table (kept : list SummaryRow)
| NoColumns
| KeyError.

Definition apply_filters (df : list SummaryRow)
  (device_filter country_filter priority_filter : list string) : outcome :=
  let df_filtered := filter (fun r => isin (Device r) device_filter) df in
  let df_filtered :=
    match country_filter with
    | [] => Table df_filtered
    | _ =>
        match df_filtered with
        | [] => NoColumns
        | _ => Table (filter (fun r =>
                                country_matches_filter (Country r) country_filter)
                        df_filtered)
        end
    end in
  match priority_filter with
  | [] => df_filtered
  | _ =>
      match df_filtered with
      | Table kept =>
          Table (filter (fun r => isin (Priority r) priority_filter) kept)
      | NoColumns => KeyError
      | KeyError => KeyError
      end
  end.

End Frames.

(* ================================================================== *)
(** * [src/connector.py]: the paging loop *)
(* ================================================================== *)

Module Connector.

(** [src/constants.py] *)
Definition API_BATCH_SIZE : nat := 250.

(** What [api.cases.get_cases] answers: a dictionary, whose ['cases'] entry
    may be absent or hold nothing, or the list of cases itself. *)
Inductive response (case : Type) : Type :=
| Dict (cases : option (list case))
| Cases (batch : list case).

Arguments Dict {case} cases.
Arguments Cases {case} batch.

(** [response.get('cases', []) if isinstance(response, dict) else response] *)
Definition batch_of {case : Type} (r : response case) : list case :=
  match r with
  | Dict (Some batch) => batch
  | Dict None => []
  | Cases batch => batch
  end.

(** How a run of the loop ends, if it does within the steps allowed *)
Inductive run (A : Type) : Type :=
| Running
| Raised
| Returned (a : A).

Arguments Running {A}.
Arguments Raised {A}.
Arguments Returned {A} a.

Section Fetch.

Context {case : Type}.

(** The client: [get_cases limit offset] is the answer to one call, [None]
    when the call raises. *)
Variable get_cases : nat -> nat -> option (response case).

(** The [while True] loop, run for at most [fuel] calls. *)
Fixpoint fetch_loop (fuel : nat) (limit offset : nat) (all_cases : list case)
  : run (list case) :=
  match fuel with
  | O => Running
  | S fuel' =>
      match get_cases limit offset with
      | None => Raised
      | Some response =>
          let batch := batch_of response in
          match batch with
          | [] => Returned all_cases
          | _ :: _ =>
              let all_cases := (all_cases ++ batch)%list in
              if (List.length batch <? limit)%nat then Returned all_cases
              else fetch_loop fuel' limit (offset + limit)%nat all_cases
          end
      end
  end.

End Fetch.

(** [fetch_data_recursive]: the table is given by the list of its cases,
    the empty DataFrame by [[]]; [api] is [None] when no client could be
    made. *)
Definition fetch_data_recursive {case : Type}
  (api : option (nat -> nat -> option (response case))) (fuel : nat)
  : run (list case) :=
  match api with
  | None => Returned []
  | Some get_cases =>
      match fetch_loop get_cases fuel API_BATCH_SIZE 0 [] with
      | Running => Running
      | Raised => Returned []
      | Returned all_cases => Returned all_cases
      end
  end.

(** A server that holds [data] and answers a call with the cases from
    [offset] on, at most [limit] of them, as a dictionary or as a list. *)
Definition paging_server {case : Type} (as_dict : bool) (data : list case)
  (limit offset : nat) : option (response case) :=
  let batch := firstn limit (skipn offset data) in
  Some (if as_dict then Dict (Some batch) else Cases batch).

(** The same server, but the call at [failing] raises. *)
Definition failing_server {case : Type} (failing : nat) (as_dict : bool)
  (data : list case) (limit offset : nat) : option (response case) :=
  if (offset =? failing)%nat then None
  else paging_server as_dict data limit offset.

End Connector.

(* ================================================================== *)
(** * The Status Resolver as the specification words it *)
(* ================================================================== *)

Module Resolver.

Inductive StatusCode : Set :=
| NotAutomated
| ToBeAutomated
| IsAutomated
| NotApplicable.

Inductive FinalStatus : Set :=
| Automated_Primary
| Automated_Secondary_Desktop
| Automated_Secondary_Mobile
| Automated_Secondary_Both
| Final_ToBeAutomated
| Final_NotAutomated
| Final_NotApplicable.

Definition code_eqb (a b : StatusCode) : bool :=
  match a, b with
  | NotAutomated, NotAutomated => true
  | ToBeAutomated, ToBeAutomated => true
  | IsAutomated, IsAutomated => true
  | NotApplicable, NotApplicable => true
  | _, _ => false
  end.

(** [x == c] for a status that may be absent *)
Definition has (x : option StatusCode) (c : StatusCode) : bool :=
  match x with
  | Some a => code_eqb a c
  | None => false
  end.

Definition statuses : Set :=
  option StatusCode * option StatusCode * option StatusCode.

Definition java (s : statuses) : option StatusCode := fst (fst s).
Definition secondary_desktop (s : statuses) : option StatusCode := snd (fst s).
Definition secondary_mobile (s : statuses) : option StatusCode := snd s.

Definition any_is (c : StatusCode) (s : statuses) : bool :=
  has (java s) c || has (secondary_desktop s) c || has (secondary_mobile s) c.

(** Rules 1 to 8, top to bottom *)
Definition precedence : list ((statuses -> bool) * FinalStatus) :=
  [ (fun s => has (secondary_desktop s) IsAutomated
              && has (secondary_mobile s) IsAutomated,
     Automated_Secondary_Both);
    (fun s => has (secondary_desktop s) IsAutomated && has (java s) IsAutomated,
     Automated_Secondary_Desktop);
    (fun s => has (secondary_mobile s) IsAutomated && has (java s) IsAutomated,
     Automated_Secondary_Mobile);
    (fun s => has (secondary_desktop s) IsAutomated, Automated_Secondary_Desktop);
    (fun s => has (secondary_mobile s) IsAutomated, Automated_Secondary_Mobile);
    (fun s => has (java s) IsAutomated, Automated_Primary);
    (any_is NotApplicable, Final_NotApplicable);
    (any_is ToBeAutomated, Final_ToBeAutomated) ].

(** First match wins; rule 9 is the [otherwise]. *)
Fixpoint first_match (rules : list ((statuses -> bool) * FinalStatus))
  (s : statuses) : FinalStatus :=
  match rules with
  | [] => Final_NotAutomated
  | (applies, final) :: rules' =>
      if applies s then final else first_match rules' s
  end.

Definition resolve_final_status
  (java secondary_desktop secondary_mobile : option StatusCode) : FinalStatus :=
  first_match precedence (java, secondary_desktop, secondary_mobile).

(** The labels of the seven final statuses *)
Definition label (f : FinalStatus) : string :=
  match f with
  | Automated_Primary => "Automated - Java"
  | Automated_Secondary_Desktop => "Automated - Testim Desktop"
  | Automated_Secondary_Mobile => "Automated - Testim Mobile"
  | Automated_Secondary_Both => "Automated - Testim Both"
  | Final_ToBeAutomated => "To Be Automated"
  | Final_NotAutomated => "Not Automated"
  | Final_NotApplicable => "N/A"
  end.

(** The status a mapped field holds: one of the four labels the status
    mappers produce, or none. *)
Definition status_code (x : option string) : option StatusCode :=
  match x with
  | Some s =>
      if (s =? "Automated")%string then Some IsAutomated
      else if (s =? "N/A")%string then Some NotApplicable
      else if (s =? "To Be Automated")%string then Some ToBeAutomated
      else if (s =? "Not Automated")%string then Some NotAutomated
      else None
  | None => None
  end.

Definition canonical_labels : list string :=
  [ "Automated - Java"; "Automated - Testim Desktop";
    "Automated - Testim Mobile"; "Automated - Testim Both";
    "To Be Automated"; "Not Automated"; "N/A" ].

Definition automated_labels : list string :=
  [ "Automated - Java"; "Automated - Testim Desktop";
    "Automated - Testim Mobile"; "Automated - Testim Both" ].

(** The status is one of the four [Automated - ...] labels. *)
Definition is_automated (status : string) : bool :=
  existsb (String.eqb status) automated_labels.

(** A SummaryRow table: every status is one of the seven labels and every
    count is non-negative. *)
Definition summary_table (T : list Transformer.SummaryRow) : Prop :=
  Forall (fun r => In (Transformer.Status r) canonical_labels
                   /\ 0 <= Transformer.Count r) T.

End Resolver.

(* ================================================================== *)
(** * Sample inputs *)
(* ================================================================== *)

Module Samples.
Import Py Transformer Metrics.

(** One raw case whose primary status code, 99, is in no table *)
Definition unmapped_case : DataFrame :=
  {| columns := ["custom_automation_status"];
     rows := [fun name =>
                if (name =? "custom_automation_status")%string
                then One (SInt 99) else One SNone] |}.

(** A raw table with no column for the primary status *)
Definition no_java_field : DataFrame :=
  {| columns := ["title"; "priority_id"];
     rows := [fun name =>
                if (name =? "priority_id")%string
                then One (SInt 3) else One (SStr "Login")] |}.

(** A raw table with no row *)
Definition no_case : DataFrame :=
  {| columns := ["custom_automation_status"]; rows := [] |}.

(** The summary of [tests/test_metrics.py] *)
Definition sample_summary : list SummaryRow :=
  [ {| Epic := "Epic1"; Status := "Automated - Java"; Device := "Desktop";
       Country := "MRN"; Priority := "High"; Count := 10 |};
    {| Epic := "Epic1"; Status := "Automated - Testim Desktop";
       Device := "Desktop"; Country := "MFR"; Priority := "Highest";
       Count := 20 |};
    {| Epic := "Epic2"; Status := "To Be Automated"; Device := "Mobile";
       Country := "MRN"; Priority := "Medium"; Count := 15 |};
    {| Epic := "Epic2"; Status := "Not Automated"; Device := "Both";
       Country := "MRN"; Priority := "High"; Count := 5 |};
    {| Epic := "Epic3"; Status := "N/A"; Device := "Desktop";
       Country := "Unknown"; Priority := "Unknown"; Count := 8 |} ].

(** The pivot of [tests/test_metrics.py]: three epics, of which only the
    name and the [Automated] count are given there. *)
Definition pivot_row (name : string) (automated : Z) : PivotRow :=
  {| index := name; Automated := automated; To_Be_Automated := 0; N_A := 0;
     Not_Automated := 0; TOTAL := automated; EFFECTIVE_TOTAL := automated;
     COVERAGE := hundred |}.

Definition sample_pivot : list PivotRow :=
  [ pivot_row "Epic One" 10; pivot_row "Epic Two" 20;
    pivot_row "Story Three" 30 ].

(** The floats [3.0] and [3.5] *)
Definition three : float := S754_finite false 6755399441055744 (-51).
Definition three_and_a_half : float := S754_finite false 7881299347898368 (-51).

End Samples.

(* ================================================================== *)
(** * Terms of the statements *)
(* ================================================================== *)

Module Terms.
Import Py Pandas Transformer Metrics Dashboard.

(** The labels the status mappers return *)
Definition status_labels : list string :=
  ["Not Automated"; "To Be Automated"; "Automated"; "N/A"].

(** The five grouping columns of a row of the summary *)
Definition summary_key (r : SummaryRow) : case_key :=
  (Epic r, Status r, Device r, Country r, Priority r).

(** The labels of the device and priority mappers *)
Definition device_labels : list string := ["Desktop"; "Mobile"; "Both"].

Definition priority_labels : list string :=
  ["High"; "Highest"; "Medium"; "Unknown"].

(** A row as [process] forms it *)
Definition well_formed_row (r : SummaryRow) : Prop :=
  In (Status r) Resolver.canonical_labels
  /\ In (Device r) device_labels
  /\ In (Priority r) priority_labels
  /\ 1 <= Count r.

(** A search term without any character that [re] reads as an operator *)
Definition plain_term (term : string) : bool :=
  forallb (fun c => negb (is_special c)) (list_ascii_of_string term).

(** The condition under which [apply_filters] keeps a row *)
Definition row_passes (device_filter country_filter priority_filter : list string)
  (r : SummaryRow) : bool :=
  isin (Device r) device_filter
  && match country_filter with
     | [] => true
     | _ => negb (Country r =? "Unknown")%string
            && existsb (fun c => isin c country_filter) (split (Country r) ", ")
     end
  && match priority_filter with
     | [] => true
     | _ => isin (Priority r) priority_filter
     end.

(** What a mapper gives for a cell, its default when it raises *)
Definition forced {A : Type} (default : A) (r : result A) : A :=
  match r with
  | Ok a => a
  | Raise _ => default
  end.

(** The five columns [process] derives for one raw case *)
Definition row_case (df : DataFrame) (bu_name : string)
  (row : string -> value) : case_key :=
  let status_of (category : string)
                (f : value -> result (option string)) : option string :=
    match find_field df category with
    | Some field => forced None (f (row field))
    | None => None
    end in
  (match find_field df "epic" with
   | Some field => epic_label (row field)
   | None => "No Epic Assigned"
   end,
   determine_final_status
     {| Java_Status := status_of "java" map_automation_status_java;
        Testim_Desktop_Status :=
          status_of "testim_desktop" map_automation_status_testim;
        Testim_Mobile_Status :=
          status_of "testim_mobile" map_automation_status_testim |},
   match find_field df "device" with
   | Some field => forced "Both" (map_device_status (row field))
   | None => "Both"
   end,
   match find_field df "country" with
   | Some field => forced "Unknown" (map_country_id (row field) bu_name)
   | None => "Unknown"
   end,
   match find_field df "priority" with
   | Some field => forced "Unknown" (map_priority (row field))
   | None => "Unknown"
   end).

(** Two raw cases, automated and not automated in Java, in both orders *)
Definition two_cases : DataFrame :=
  {| columns := ["custom_automation_status"];
     rows := [fun _ => One (SInt 3); fun _ => One (SInt 1)] |}.

Definition two_cases_swapped : DataFrame :=
  {| columns := ["custom_automation_status"];
     rows := [fun _ => One (SInt 1); fun _ => One (SInt 3)] |}.

(** Two rows whose counts sum to 2^63 *)
Definition wrapping_summary : list SummaryRow :=
  [ {| Epic := "Epic1"; Status := "Automated - Java"; Device := "Desktop";
       Country := "MRN"; Priority := "High"; Count := 2 ^ 62 |};
    {| Epic := "Epic1"; Status := "Not Automated"; Device := "Desktop";
       Country := "MRN"; Priority := "High"; Count := 2 ^ 62 |} ].

(** The binary64 nearest to [k / 10] *)
Definition tenths (k : Z) : float := float_of_decimal false k (-1).

(** [x] is [k / 10] for an integer [k] nearest to [1000 * a / e]: the
    ratio [a / e] times 100, rounded to one decimal. *)
Definition one_decimal_of (a e : Z) (x : float) : Prop :=
  exists k, 2 * Z.abs (k * e - 1000 * a) <= e /\ x = tenths k.

(** The same, decided: [k] is the quotient of [1000 * a] by [e] or the
    integer after it. *)
Definition nearest_tenth (a e : Z) (x : float) : bool :=
  let k := 1000 * a / e in
  ((2 * (1000 * a - k * e) <=? e) && float_same x (tenths k))
  || ((2 * ((k + 1) * e - 1000 * a) <=? e) && float_same x (tenths (k + 1))).

(** The integers from [n] down to 0 *)
Fixpoint down_from (n : nat) : list Z :=
  match n with
  | O => [0]
  | S n' => Z.of_nat n :: down_from n'
  end.

(** The coverage is so rounded for every effective total up to [n] and
    every automated count up to the effective total. *)
Definition coverage_rounds_upto (n : nat) : bool :=
  forallb (fun e =>
             (e =? 0)
             || forallb (fun a => nearest_tenth a e (coverage_pct a e))
                  (down_from (Z.to_nat e)))
    (down_from n).

(** The largest effective total for which the rounding is checked *)
Definition checked_effective_total : nat := 100.

(** An epic with one case automated out of three, and one with two *)
Definition thirds_summary : list SummaryRow :=
  [ {| Epic := "Epic1"; Status := "Automated - Java"; Device := "Desktop";
       Country := "MRN"; Priority := "High"; Count := 1 |};
    {| Epic := "Epic1"; Status := "Not Automated"; Device := "Desktop";
       Country := "MRN"; Priority := "High"; Count := 2 |};
    {| Epic := "Epic2"; Status := "Automated - Testim Both"; Device := "Both";
       Country := "MFR"; Priority := "Medium"; Count := 2 |};
    {| Epic := "Epic2"; Status := "To Be Automated"; Device := "Mobile";
       Country := "MFR"; Priority := "Medium"; Count := 1 |} ].

(** The status a secondary-framework field of a raw case maps to; none
    when the table has no such field *)
Definition secondary_status (df : DataFrame) (category : string)
  (row : string -> value) : option string :=
  match find_field df category with
  | Some field => forced None (map_automation_status_testim (row field))
  | None => None
  end.

End Terms.

(* ================================================================== *)
(** * Properties *)
(* ================================================================== *)

Import Py Pandas Config Transformer Metrics.

(** ** The Status Resolver *)

Lemma is_status_code (x : option string) :
  is_status x "Automated" = Resolver.has (Resolver.status_code x) Resolver.IsAutomated
  /\ is_status x "N/A" = Resolver.has (Resolver.status_code x) Resolver.NotApplicable
  /\ is_status x "To Be Automated"
     = Resolver.has (Resolver.status_code x) Resolver.ToBeAutomated.
Proof.
  destruct x as [s|]; simpl; [|auto].
  destruct (String.eqb_spec s "Automated") as [->|_]; [now vm_compute|].
  destruct (String.eqb_spec s "N/A") as [->|_]; [now vm_compute|].
  destruct (String.eqb_spec s "To Be Automated") as [->|_]; [now vm_compute|].
  destruct (s =? "Not Automated")%string; auto.
Qed.

Lemma resolver_agrees (row : status_row) :
  determine_final_status row
  = Resolver.label
      (Resolver.resolve_final_status
         (Resolver.status_code (Java_Status row))
         (Resolver.status_code (Testim_Desktop_Status row))
         (Resolver.status_code (Testim_Mobile_Status row))).
Proof.
  destruct row as [j d m].
  unfold determine_final_status, Resolver.resolve_final_status;
    cbn [Java_Status Testim_Desktop_Status Testim_Mobile_Status].
  destruct (is_status_code j) as (-> & -> & ->).
  destruct (is_status_code d) as (-> & -> & ->).
  destruct (is_status_code m) as (-> & -> & ->).
  destruct (Resolver.status_code j) as [[]|], (Resolver.status_code d) as [[]|],
    (Resolver.status_code m) as [[]|]; reflexivity.
Qed.

(** C2.  For every combination of the three per-framework statuses, each
    possibly absent, [determine_final_status] returns the label of the final
    status that the nine precedence rules, read top to bottom with the first
    match winning, prescribe. *)
Theorem determine_final_status_precedence :
  forall java desktop mobile : option string,
    determine_final_status
      {| Java_Status := java; Testim_Desktop_Status := desktop;
         Testim_Mobile_Status := mobile |}
    = Resolver.label
        (Resolver.resolve_final_status (Resolver.status_code java)
           (Resolver.status_code desktop) (Resolver.status_code mobile)).
Proof.
  intros java desktop mobile.
  exact (resolver_agrees
           {| Java_Status := java; Testim_Desktop_Status := desktop;
              Testim_Mobile_Status := mobile |}).
Qed.

(** C10.  The resolver is total over absent inputs: whatever the three
    statuses hold, absent ones included, the result is one of the seven
    canonical labels; with all three absent it is "Not Automated". *)
Theorem determine_final_status_total :
  (forall row, In (determine_final_status row) Resolver.canonical_labels)
  /\ determine_final_status
       {| Java_Status := None; Testim_Desktop_Status := None;
          Testim_Mobile_Status := None |} = "Not Automated".
Proof.
  split; [|reflexivity].
  intros row. rewrite resolver_agrees.
  destruct (Resolver.resolve_final_status _ _ _); simpl; auto 10.
Qed.

(** ** Orders on the keys of a [groupby] *)

Lemma ascii_compare_refl (c : ascii) : Ascii.compare c c = Eq.
Proof. apply N.compare_refl. Qed.

Lemma ascii_compare_trans (a b c : ascii) :
  Ascii.compare a b = Lt -> Ascii.compare b c = Lt -> Ascii.compare a c = Lt.
Proof.
  unfold Ascii.compare. rewrite !N.compare_lt_iff. apply N.lt_trans.
Qed.

Lemma string_compare_refl (s : string) : String.compare s s = Eq.
Proof.
  induction s as [|c s IH]; simpl; [reflexivity|].
  now rewrite ascii_compare_refl.
Qed.

Lemma string_compare_trans (a b c : string) :
  String.compare a b = Lt -> String.compare b c = Lt -> String.compare a c = Lt.
Proof.
  revert b c.
  induction a as [|x a IH]; intros [|y b] [|z c]; simpl; try discriminate; auto.
  destruct (Ascii.compare x y) eqn:Hxy; try discriminate;
    destruct (Ascii.compare y z) eqn:Hyz; try discriminate; intros H1 H2.
  - apply Ascii.compare_eq_iff in Hxy, Hyz. subst.
    rewrite ascii_compare_refl. eauto.
  - apply Ascii.compare_eq_iff in Hxy. subst. now rewrite Hyz.
  - apply Ascii.compare_eq_iff in Hyz. subst. now rewrite Hxy.
  - now rewrite (ascii_compare_trans _ _ _ Hxy Hyz).
Qed.

Lemma string_order : order_laws String.compare.
Proof.
  constructor.
  - apply String.compare_eq_iff.
  - apply string_compare_refl.
  - intros a b. apply String.compare_antisym.
  - apply string_compare_trans.
Qed.

Lemma pair_order {A B : Type} (ca : A -> A -> comparison)
  (cb : B -> B -> comparison) :
  order_laws ca -> order_laws cb -> order_laws (cmp_pair ca cb).
Proof.
  intros Ha Hb. constructor; unfold cmp_pair.
  - intros [a1 b1] [a2 b2]; simpl.
    destruct (ca a1 a2) eqn:E; try discriminate.
    intros H. apply (cmp_eq _ Ha) in E. apply (cmp_eq _ Hb) in H. congruence.
  - intros [a b]; simpl. rewrite (cmp_refl _ Ha). apply (cmp_refl _ Hb).
  - intros [a1 b1] [a2 b2]; simpl.
    rewrite (cmp_antisym _ Ha a1 a2).
    destruct (ca a1 a2); simpl; auto. apply (cmp_antisym _ Hb).
  - intros [a1 b1] [a2 b2] [a3 b3]; simpl.
    destruct (ca a1 a2) eqn:E12; try discriminate;
      destruct (ca a2 a3) eqn:E23; try discriminate; intros H1 H2.
    + apply (cmp_eq _ Ha) in E12, E23. subst.
      rewrite (cmp_refl _ Ha). eapply (cmp_trans _ Hb); eauto.
    + apply (cmp_eq _ Ha) in E12. subst. now rewrite E23.
    + apply (cmp_eq _ Ha) in E23. subst. now rewrite E12.
    + now rewrite (cmp_trans _ Ha _ _ _ E12 E23).
Qed.

Lemma case_key_order : order_laws cmp_case_key.
Proof. repeat apply pair_order; apply string_order. Qed.

Lemma epic_status_order : order_laws (cmp_pair String.compare String.compare).
Proof. apply pair_order; apply string_order. Qed.

(** ** The keys of a [groupby] *)

Section GroupByFacts.

Context {K : Type} (cmp : K -> K -> comparison).
Hypothesis laws : order_laws cmp.

Let lt (a b : K) : Prop := cmp a b = Lt.

Lemma same_key_true (a b : K) : same_key cmp a b = true <-> a = b.
Proof.
  unfold same_key. split.
  - destruct (cmp a b) eqn:E; try discriminate. intros _. now apply (cmp_eq _ laws).
  - intros ->. now rewrite (cmp_refl _ laws).
Qed.

Lemma cmp_gt_lt (a b : K) : cmp a b = Gt -> cmp b a = Lt.
Proof. intros H. rewrite (cmp_antisym _ laws a b), H. reflexivity. Qed.

Lemma lt_irrefl (a : K) : ~ lt a a.
Proof. unfold lt. rewrite (cmp_refl _ laws). discriminate. Qed.

Lemma insert_key_In (k x : K) (ks : list K) :
  In x (insert_key cmp k ks) <-> x = k \/ In x ks.
Proof.
  induction ks as [|h t IH]; simpl.
  - intuition.
  - destruct (cmp k h) eqn:E; simpl.
    + apply (cmp_eq _ laws) in E. subst. intuition.
    + intuition.
    + rewrite IH. intuition.
Qed.

Lemma insert_key_sorted (k : K) (ks : list K) :
  StronglySorted lt ks -> StronglySorted lt (insert_key cmp k ks).
Proof.
  induction 1 as [|h t Ht IH Hh]; simpl.
  - repeat constructor.
  - destruct (cmp k h) eqn:E.
    + now constructor.
    + constructor; [now constructor|].
      constructor; [exact E|].
      rewrite Forall_forall in *. intros x Hx.
      eapply (cmp_trans _ laws); [exact E|]. now apply Hh.
    + constructor; [exact IH|].
      rewrite Forall_forall in *. intros x Hx.
      apply insert_key_In in Hx. destruct Hx as [->|Hx]; [|now apply Hh].
      now apply cmp_gt_lt.
Qed.

Lemma unique_sorted_In (x : K) (ks : list K) :
  In x (unique_sorted cmp ks) <-> In x ks.
Proof.
  induction ks as [|k ks IH]; simpl; [tauto|].
  rewrite insert_key_In, IH. intuition.
Qed.

Lemma unique_sorted_sorted (ks : list K) :
  StronglySorted lt (unique_sorted cmp ks).
Proof.
  induction ks as [|k ks IH]; simpl; [constructor|].
  now apply insert_key_sorted.
Qed.

Lemma sorted_NoDup (ks : list K) : StronglySorted lt ks -> NoDup ks.
Proof.
  induction 1 as [|h t Ht IH Hh]; constructor; auto.
  intros Hin. rewrite Forall_forall in Hh.
  exact (lt_irrefl h (Hh h Hin)).
Qed.

Lemma unique_sorted_NoDup (ks : list K) : NoDup (unique_sorted cmp ks).
Proof. apply sorted_NoDup, unique_sorted_sorted. Qed.

(** Two increasing lists with the same elements are the same list. *)
Lemma sorted_ext (l1 l2 : list K) :
  StronglySorted lt l1 -> StronglySorted lt l2 ->
  (forall x, In x l1 <-> In x l2) -> l1 = l2.
Proof.
  intros H1. revert l2.
  induction H1 as [|h1 t1 Ht1 IH Hh1]; intros l2 H2 Hext.
  - destruct l2 as [|h2 t2]; [reflexivity|].
    exfalso. apply (Hext h2). now left.
  - destruct H2 as [|h2 t2 Ht2 Hh2].
    + exfalso. apply (Hext h1). now left.
    + rewrite Forall_forall in Hh1, Hh2.
      assert (h1 = h2) as ->.
      { destruct (proj1 (Hext h1) (or_introl eq_refl)) as [E|Hin1]; [now subst|].
        destruct (proj2 (Hext h2) (or_introl eq_refl)) as [E|Hin2]; [now subst|].
        exfalso. apply (lt_irrefl h1).
        eapply (cmp_trans _ laws); [apply Hh1, Hin2 | apply Hh2, Hin1]. }
      f_equal. apply IH; [exact Ht2|].
      intros x. split; intros Hx.
      * destruct (proj1 (Hext x) (or_intror Hx)) as [E|Hin]; [|exact Hin].
        subst. exfalso. exact (lt_irrefl x (Hh1 x Hx)).
      * destruct (proj2 (Hext x) (or_intror Hx)) as [E|Hin]; [|exact Hin].
        subst. exfalso. exact (lt_irrefl x (Hh2 x Hx)).
Qed.

Lemma unique_sorted_perm (l1 l2 : list K) :
  Permutation l1 l2 -> unique_sorted cmp l1 = unique_sorted cmp l2.
Proof.
  intros HP. apply sorted_ext; try apply unique_sorted_sorted.
  intros x. rewrite !unique_sorted_In.
  split; apply Permutation_in; [exact HP | now apply Permutation_sym].
Qed.

End GroupByFacts.

(** ** Sums of a column *)

Section Totals.

Context {A : Type} (f : A -> Z).

Lemma sum_of_cons (x : A) (l : list A) : sum_of f (x :: l) = f x + sum_of f l.
Proof. reflexivity. Qed.

Lemma total_app (l1 l2 : list A) :
  sum_of f (l1 ++ l2)%list = sum_of f l1 + sum_of f l2.
Proof. induction l1 as [|x l1 IH]; simpl; lia. Qed.

Lemma total_perm (l1 l2 : list A) :
  Permutation l1 l2 -> sum_of f l1 = sum_of f l2.
Proof. induction 1; simpl; lia. Qed.

Lemma filter_perm (p : A -> bool) (l1 l2 : list A) :
  Permutation l1 l2 -> Permutation (filter p l1) (filter p l2).
Proof.
  induction 1 as [| x l1 l2 _ IH | x y l | l1 l2 l3 _ IH1 _ IH2]; simpl.
  - constructor.
  - destruct (p x); [now constructor | exact IH].
  - destruct (p x), (p y); try reflexivity. constructor.
  - now transitivity (filter p l2).
Qed.

Lemma total_filter_perm (p : A -> bool) (l1 l2 : list A) :
  Permutation l1 l2 -> sum_of f (filter p l1) = sum_of f (filter p l2).
Proof. intros H. now apply total_perm, filter_perm. Qed.

Lemma total_nonneg (l : list A) :
  Forall (fun x => 0 <= f x) l -> 0 <= sum_of f l.
Proof. induction 1; simpl; lia. Qed.

Lemma total_filter_nonneg (p : A -> bool) (l : list A) :
  Forall (fun x => 0 <= f x) l -> 0 <= sum_of f (filter p l).
Proof.
  intros H. apply total_nonneg. rewrite Forall_forall in *.
  intros x Hx. apply filter_In in Hx. now apply H.
Qed.

Lemma total_filter_false (l : list A) :
  sum_of f (filter (fun _ => false) l) = 0.
Proof. induction l; simpl; auto. Qed.

Lemma total_filter_disjoint (p q : A -> bool) (l : list A) :
  (forall x, In x l -> p x && q x = false) ->
  sum_of f (filter (fun x => p x || q x) l)
  = sum_of f (filter p l) + sum_of f (filter q l).
Proof.
  induction l as [|x l IH]; intros H; [reflexivity|].
  assert (Hx := H x (or_introl eq_refl)).
  assert (IH' := IH (fun y Hy => H y (or_intror Hy))).
  cbn [filter].
  destruct (p x), (q x); simpl in Hx; try discriminate;
    cbn [orb]; rewrite ?sum_of_cons; lia.
Qed.

Lemma total_filter_ext (p q : A -> bool) (l : list A) :
  (forall x, In x l -> p x = q x) ->
  sum_of f (filter p l) = sum_of f (filter q l).
Proof. intros H. now rewrite (filter_ext_in p q l H). Qed.

End Totals.

Lemma total_map {A B : Type} (f : A -> Z) (h : B -> A) (l : list B) :
  sum_of f (map h l) = sum_of (fun x => f (h x)) l.
Proof. induction l as [|x l IH]; simpl; congruence. Qed.

Lemma total_ones {A : Type} (l : list A) :
  sum_of (fun _ => 1) l = Z.of_nat (List.length l).
Proof. induction l as [|x l IH]; [reflexivity|]. cbn [sum_of fold_right List.length]. fold (sum_of (fun _ : A => 1) l). lia. Qed.

Lemma filter_map_comm {A B : Type} (p : A -> bool) (h : B -> A) (l : list B) :
  filter p (map h l) = map h (filter (fun x => p (h x)) l).
Proof.
  induction l as [|x l IH]; simpl; [reflexivity|].
  destruct (p (h x)); simpl; congruence.
Qed.

Lemma filter_filter {A : Type} (p q : A -> bool) (l : list A) :
  filter p (filter q l) = filter (fun x => q x && p x) l.
Proof.
  induction l as [|x l IH]; simpl; [reflexivity|].
  destruct (q x); simpl; [destruct (p x)|]; congruence.
Qed.

Lemma filter_all {A : Type} (l : list A) : filter (fun _ => true) l = l.
Proof. induction l; simpl; congruence. Qed.

(** ** Sums over the groups of a [groupby] *)

Section GroupTotals.

Context {K A : Type} (cmp : K -> K -> comparison).
Hypothesis laws : order_laws cmp.
Variable key : A -> K.
Variable f : A -> Z.

Let in_keys (ks : list K) (x : A) : bool := existsb (same_key cmp (key x)) ks.

Let groups (ks : list K) (l : list A) : list (K * list A) :=
  map (fun k => (k, filter (fun r => same_key cmp (key r) k) l)) ks.

Lemma in_keys_In (ks : list K) (x : A) : in_keys ks x = true <-> In (key x) ks.
Proof.
  unfold in_keys. rewrite existsb_exists. split.
  - intros (k & Hk & E). apply (same_key_true cmp laws) in E. now subst.
  - intros H. exists (key x). split; [exact H|]. now apply same_key_true.
Qed.

Lemma total_over_keys (P : K -> bool) (ks : list K) (l : list A) :
  NoDup ks ->
  sum_of (fun g : K * list A => sum_of f (snd g))
    (filter (fun g => P (fst g)) (groups ks l))
  = sum_of f (filter (fun x => P (key x) && in_keys ks x) l).
Proof.
  induction 1 as [|k0 ks Hk0 Hnd IH].
  - simpl. symmetry.
    rewrite (total_filter_ext f _ (fun _ => false)); [apply total_filter_false|].
    intros x _. apply andb_false_r.
  - transitivity
      (sum_of f (filter (fun x => P (key x) && same_key cmp (key x) k0) l)
       + sum_of f (filter (fun x => P (key x) && in_keys ks x) l)).
    + rewrite <- IH. cbn [groups map filter fst].
      destruct (P k0) eqn:HP; cbn [sum_of fold_right snd];
        fold (sum_of (fun g : K * list A => sum_of f (snd g))).
      * f_equal. apply total_filter_ext. intros x _.
        destruct (same_key cmp (key x) k0) eqn:E; [|now rewrite andb_false_r].
        apply (same_key_true cmp laws) in E. now rewrite E, HP.
      * rewrite (total_filter_ext f _ (fun _ => false)), total_filter_false;
          [reflexivity|].
        intros x _.
        destruct (same_key cmp (key x) k0) eqn:E; [|now rewrite andb_false_r].
        apply (same_key_true cmp laws) in E. now rewrite E, HP.
    + rewrite <- total_filter_disjoint.
      * apply total_filter_ext. intros x _. unfold in_keys. simpl.
        now rewrite andb_orb_distrib_r.
      * intros x _.
        destruct (same_key cmp (key x) k0) eqn:E; [|now rewrite andb_false_r].
        apply (same_key_true cmp laws) in E.
        destruct (in_keys ks x) eqn:E'; [|now rewrite !andb_false_r].
        apply in_keys_In in E'. rewrite E in E'. contradiction.
Qed.

(** The rows of the groups whose key satisfies [P] are the rows whose key
    satisfies [P]. *)
Lemma total_groupby (P : K -> bool) (l : list A) :
  sum_of (fun g : K * list A => sum_of f (snd g))
    (filter (fun g => P (fst g)) (groupby cmp key l))
  = sum_of f (filter (fun x => P (key x)) l).
Proof.
  unfold groupby. fold (groups (unique_sorted cmp (map key l)) l).
  rewrite total_over_keys by apply (unique_sorted_NoDup cmp laws).
  apply total_filter_ext. intros x Hx.
  replace (in_keys (unique_sorted cmp (map key l)) x) with true;
    [apply andb_true_r|].
  symmetry. apply in_keys_In, (unique_sorted_In cmp laws), in_map, Hx.
Qed.

Lemma groupby_keys (l : list A) :
  map fst (groupby cmp key l) = unique_sorted cmp (map key l).
Proof. unfold groupby. rewrite map_map. simpl. apply map_id. Qed.

(** The groups depend on the order of the rows only through the order of
    the rows within each group. *)
Lemma groupby_perm (l1 l2 : list A) :
  Permutation l1 l2 ->
  Forall2 (fun g1 g2 => fst g1 = fst g2 /\ Permutation (snd g1) (snd g2))
    (groupby cmp key l1) (groupby cmp key l2).
Proof.
  intros HP. unfold groupby.
  rewrite (unique_sorted_perm cmp laws (map key l1) (map key l2))
    by now apply Permutation_map.
  induction (unique_sorted cmp (map key l2)) as [|k ks IH]; simpl; constructor.
  - split; [reflexivity|]. simpl. now apply filter_perm.
  - exact IH.
Qed.

End GroupTotals.

(** ** Overall, Testim and device metrics *)

Lemma sum_count_filter_perm (p : SummaryRow -> bool) (T T' : list SummaryRow) :
  Permutation T T' -> sum_count (filter p T) = sum_count (filter p T').
Proof. apply (total_filter_perm Count). Qed.

Lemma sum_count_perm (T T' : list SummaryRow) :
  Permutation T T' -> sum_count T = sum_count T'.
Proof. apply (total_perm Count). Qed.

Lemma overall_metrics_perm (T T' : list SummaryRow) :
  Permutation T T' -> calculate_overall_metrics T = calculate_overall_metrics T'.
Proof.
  intros HP. unfold calculate_overall_metrics, with_status.
  rewrite (sum_count_perm T T' HP).
  now rewrite !(fun p => sum_count_filter_perm p T T' HP).
Qed.

Lemma testim_metrics_perm (T T' : list SummaryRow) :
  Permutation T T' -> calculate_testim_metrics T = calculate_testim_metrics T'.
Proof.
  intros HP. unfold calculate_testim_metrics, with_status.
  now rewrite !(fun p => sum_count_filter_perm p T T' HP).
Qed.

Lemma device_metrics_perm (T T' : list SummaryRow) :
  Permutation T T' -> calculate_device_metrics T = calculate_device_metrics T'.
Proof.
  intros HP. unfold calculate_device_metrics.
  apply map_ext. intros device.
  rewrite !filter_filter.
  now rewrite !(fun p => sum_count_filter_perm p T T' HP).
Qed.

Lemma map_Forall2 {A B : Type} (R : A -> A -> Prop) (h : A -> B)
  (l1 l2 : list A) :
  (forall a b, R a b -> h a = h b) -> Forall2 R l1 l2 -> map h l1 = map h l2.
Proof.
  intros Hh. induction 1 as [|a b l1 l2 Hab _ IH]; simpl; [reflexivity|].
  now rewrite (Hh a b Hab), IH.
Qed.

Lemma epic_status_summary_perm (T T' : list SummaryRow) :
  Permutation T T' -> epic_status_summary T = epic_status_summary T'.
Proof.
  intros HP. unfold epic_status_summary.
  eapply map_Forall2; [|apply (groupby_perm _ epic_status_order), HP].
  intros [k1 g1] [k2 g2] [Hk Hg]; simpl in *. subst.
  now rewrite (sum_count_perm g1 g2 Hg).
Qed.

Lemma epic_metrics_perm (T T' : list SummaryRow) :
  Permutation T T' -> calculate_epic_metrics T = calculate_epic_metrics T'.
Proof.
  intros HP. unfold calculate_epic_metrics, epic_pivot.
  now rewrite (epic_status_summary_perm T T' HP).
Qed.

(** C9.  Each of the four reductions of the Metrics Aggregator gives the
    same result on a table and on any permutation of its rows. *)
Theorem metrics_order_independent (T T' : list SummaryRow) :
  Permutation T T' ->
  calculate_overall_metrics T = calculate_overall_metrics T'
  /\ calculate_testim_metrics T = calculate_testim_metrics T'
  /\ calculate_device_metrics T = calculate_device_metrics T'
  /\ calculate_epic_metrics T = calculate_epic_metrics T'.
Proof.
  intros HP. repeat split.
  - now apply overall_metrics_perm.
  - now apply testim_metrics_perm.
  - now apply device_metrics_perm.
  - now apply epic_metrics_perm.
Qed.

Lemma with_status_cons (label : string) (r : SummaryRow) (T : list SummaryRow) :
  sum_count (with_status label (r :: T))
  = (if (Status r =? label)%string then Count r else 0)
    + sum_count (with_status label T).
Proof.
  unfold with_status. cbn [filter].
  destruct (Status r =? label)%string; reflexivity.
Qed.

(** The seven statuses partition a table. *)
Lemma overall_partition (T : list SummaryRow) :
  Resolver.summary_table T ->
  sum_count T
  = sum_count (with_status "Automated - Java" T)
    + sum_count (with_status "Automated - Testim Desktop" T)
    + sum_count (with_status "Automated - Testim Mobile" T)
    + sum_count (with_status "Automated - Testim Both" T)
    + sum_count (with_status "To Be Automated" T)
    + sum_count (with_status "Not Automated" T)
    + sum_count (with_status "N/A" T).
Proof.
  induction 1 as [|r T [Hr _] _ IH]; [reflexivity|].
  rewrite !with_status_cons.
  change (sum_count (r :: T)) with (Count r + sum_count T). rewrite IH.
  simpl in Hr.
  repeat (destruct Hr as [Hr|Hr];
          [rewrite <- Hr; cbn [String.eqb Ascii.eqb Bool.eqb]; lia|]).
  contradiction.
Qed.

Lemma with_status_nonneg (label : string) (T : list SummaryRow) :
  Resolver.summary_table T -> 0 <= sum_count (with_status label T).
Proof.
  intros H. apply (total_filter_nonneg Count).
  eapply Forall_impl; [|exact H]. now intros r [_ Hr].
Qed.

(** On mathematical integers: the four classes of the overall metrics of a
    SummaryRow table add up to the total, and the coverage is the guarded
    ratio. *)
Lemma overall_relations (T : list SummaryRow) :
  Resolver.summary_table T ->
  let m := calculate_overall_metrics T in
  total_automated m + to_be_automated m + not_automated m + not_applicable m
  = total m
  /\ effective_total m = total m - not_applicable m
  /\ (effective_total m = 0 -> coverage m = Int 0)
  /\ (effective_total m <> 0 ->
      coverage m = Float (percent (total_automated m) (effective_total m))).
Proof.
  intros HT m.
  assert (Hp := overall_partition T HT).
  assert (H1 := with_status_nonneg "Automated - Java" T HT).
  assert (H2 := with_status_nonneg "Automated - Testim Desktop" T HT).
  assert (H3 := with_status_nonneg "Automated - Testim Mobile" T HT).
  assert (H4 := with_status_nonneg "Automated - Testim Both" T HT).
  assert (H5 := with_status_nonneg "To Be Automated" T HT).
  assert (H6 := with_status_nonneg "Not Automated" T HT).
  subst m. unfold calculate_overall_metrics.
  cbn [total total_automated to_be_automated not_automated not_applicable
         effective_total coverage].
  unfold percent_if_positive.
  repeat split.
  - lia.
  - intros ->. reflexivity.
  - intros Hne.
    destruct (Z.ltb_spec 0 (sum_count T - sum_count (with_status "N/A" T)));
      [reflexivity | lia].
Qed.

(** ** The epic pivot *)

(** The order of floats, away from NaN *)
Lemma SFcompare_antisym (a b : float) :
  a <> S754_nan -> b <> S754_nan ->
  SFcompare b a = option_map CompOpp (SFcompare a b).
Proof.
  intros Ha Hb.
  destruct a as [sa|sa| |sa ma ea], b as [sb|sb| |sb mb eb];
    try contradiction; try (destruct sa, sb; reflexivity);
    try (destruct sa; reflexivity); try (destruct sb; reflexivity).
  assert (Hm : Pos.compare_cont Eq mb ma = CompOpp (Pos.compare_cont Eq ma mb))
    by (symmetry; apply (Pos.compare_cont_antisym ma mb Eq)).
  destruct sa, sb; simpl; try reflexivity;
    rewrite (Z.compare_antisym ea eb);
    destruct (ea ?= eb); simpl; try reflexivity;
    now rewrite Hm.
Qed.

Lemma SFltb_false_SFleb (a b : float) :
  a <> S754_nan -> b <> S754_nan -> SFltb a b = false -> SFleb b a = true.
Proof.
  intros Ha Hb. unfold SFltb, SFleb.
  rewrite (SFcompare_antisym a b Ha Hb).
  destruct (SFcompare a b) as [[]|] eqn:E; simpl; try discriminate; auto.
  destruct a, b; try contradiction; simpl in E; try discriminate;
    repeat match type of E with context [if ?s then _ else _] => destruct s end;
    discriminate.
Qed.

Lemma SFltb_true_SFleb (a b : float) : SFltb a b = true -> SFleb a b = true.
Proof.
  unfold SFltb, SFleb. now destruct (SFcompare a b) as [[]|].
Qed.

Lemma insert_desc_perm (r : PivotRow) (l : list PivotRow) :
  Permutation (insert_desc r l) (r :: l).
Proof.
  induction l as [|h t IH]; simpl; [reflexivity|].
  destruct (SFltb (COVERAGE r) (COVERAGE h)); [|reflexivity].
  rewrite IH. apply perm_swap.
Qed.

Lemma sort_values_desc_perm (l : list PivotRow) :
  Permutation (sort_values_desc l) l.
Proof.
  induction l as [|r l IH]; simpl; [reflexivity|].
  rewrite insert_desc_perm. now constructor.
Qed.

Lemma insert_desc_sorted (r : PivotRow) (l : list PivotRow) :
  has_coverage r -> Forall has_coverage l ->
  Sorted covers_desc l -> Sorted covers_desc (insert_desc r l).
Proof.
  intros Hr Hl Hs. induction Hs as [|h t Hs IH Hh]; simpl.
  - repeat constructor.
  - inversion Hl as [|? ? Hh' Ht']; subst.
    destruct (SFltb (COVERAGE r) (COVERAGE h)) eqn:E.
    + constructor; [now apply IH|].
      destruct t as [|h2 t2]; simpl.
      * constructor. now apply SFltb_true_SFleb.
      * destruct (SFltb (COVERAGE r) (COVERAGE h2)).
        -- constructor. now inversion Hh.
        -- constructor. now apply SFltb_true_SFleb.
    + constructor; [now constructor|].
      constructor. now apply SFltb_false_SFleb.
Qed.

Lemma sort_values_desc_sorted (l : list PivotRow) :
  Forall has_coverage l -> Sorted covers_desc (sort_values_desc l).
Proof.
  induction 1 as [|r l Hr Hl IH]; simpl; [constructor|].
  apply insert_desc_sorted; auto.
  rewrite Forall_forall in *. intros x Hx. apply Hl.
  eapply Permutation_in; [apply sort_values_desc_perm | exact Hx].
Qed.

Lemma coverage_pct_not_nan (a e : Z) : coverage_pct a e <> S754_nan.
Proof.
  unfold coverage_pct, fillna_replace_inf, zero.
  destruct (round1 (percent a e)) as [| [] | |]; discriminate.
Qed.

Lemma same_key_string (a b : string) :
  same_key String.compare a b = (a =? b)%string.
Proof.
  destruct (String.eqb_spec a b) as [->|Hne].
  - now apply (same_key_true _ string_order).
  - destruct (same_key String.compare a b) eqn:E; [|reflexivity].
    apply (same_key_true _ string_order) in E. contradiction.
Qed.

(** A cell of the pivot: the counts of the rows of an epic whose status
    satisfies [q]. *)
Lemma pivot_cell (q : string -> bool) (e : string) (T : list SummaryRow) :
  es_sum
    (filter (fun r => q (es_Status r))
       (filter (fun r => same_key String.compare (es_Epic r) e)
          (epic_status_summary T)))
  = sum_count
      (filter (fun x => q (Status x)) (filter (fun x => (Epic x =? e)%string) T)).
Proof.
  rewrite !filter_filter. unfold epic_status_summary.
  rewrite filter_map_comm. change es_sum with (sum_of es_Count).
  rewrite total_map. cbn [es_Epic es_Status es_Count].
  change sum_count with (sum_of Count).
  rewrite (total_groupby _ epic_status_order (fun r => (Epic r, Status r)) Count
             (fun k => same_key String.compare (fst k) e && q (snd k))).
  apply total_filter_ext. intros x _. cbn [fst snd].
  now rewrite same_key_string.
Qed.

Lemma pivot_total (e : string) (T : list SummaryRow) :
  es_sum
    (filter (fun r => same_key String.compare (es_Epic r) e)
       (epic_status_summary T))
  = sum_count (filter (fun x => (Epic x =? e)%string) T).
Proof.
  rewrite <- (filter_all (filter _ (epic_status_summary T))).
  rewrite (pivot_cell (fun _ => true)). now rewrite filter_all.
Qed.

Lemma pivot_index (T : list SummaryRow) :
  map index (epic_pivot T)
  = unique_sorted String.compare (map es_Epic (epic_status_summary T)).
Proof.
  unfold epic_pivot. rewrite map_map. cbn [index].
  apply (groupby_keys String.compare es_Epic).
Qed.

Lemma epic_status_epics (e : string) (T : list SummaryRow) :
  In e (map es_Epic (epic_status_summary T)) <-> In e (map Epic T).
Proof.
  unfold epic_status_summary, groupby. rewrite !map_map. cbn [es_Epic fst].
  rewrite !in_map_iff. split.
  - intros (k & <- & Hk).
    apply (proj1 (unique_sorted_In _ epic_status_order _ _)) in Hk.
    apply in_map_iff in Hk. destruct Hk as (x & <- & Hx). now exists x.
  - intros (x & <- & Hx). exists (Epic x, Status x). split; [reflexivity|].
    apply (proj2 (unique_sorted_In _ epic_status_order _ _)), in_map_iff.
    now exists x.
Qed.

Lemma contains_is_automated (s : string) :
  In s Resolver.canonical_labels ->
  contains_automated s = Resolver.is_automated s.
Proof.
  simpl. intros H.
  repeat (destruct H as [<-|H]; [reflexivity|]). contradiction.
Qed.

Lemma summary_table_filter (p : SummaryRow -> bool) (T : list SummaryRow) :
  Resolver.summary_table T -> Resolver.summary_table (filter p T).
Proof.
  unfold Resolver.summary_table. rewrite !Forall_forall.
  intros H x Hx. apply filter_In in Hx. now apply H.
Qed.

Lemma sum_count_filter_cons (p : SummaryRow -> bool) (r : SummaryRow)
  (T : list SummaryRow) :
  sum_count (filter p (r :: T))
  = (if p r then Count r else 0) + sum_count (filter p T).
Proof. cbn [filter]. destruct (p r); reflexivity. Qed.

Lemma is_automated_cases (s : string) (c : Z) :
  In s Resolver.canonical_labels ->
  (if Resolver.is_automated s then c else 0)
  = (if (s =? "Automated - Java")%string then c else 0)
    + (if (s =? "Automated - Testim Desktop")%string then c else 0)
    + (if (s =? "Automated - Testim Mobile")%string then c else 0)
    + (if (s =? "Automated - Testim Both")%string then c else 0).
Proof.
  simpl. intros H.
  repeat (destruct H as [<-|H]; [vm_compute; destruct c; reflexivity|]).
  contradiction.
Qed.

Lemma automated_split (T : list SummaryRow) :
  Resolver.summary_table T ->
  sum_count (filter (fun x => Resolver.is_automated (Status x)) T)
  = sum_count (with_status "Automated - Java" T)
    + sum_count (with_status "Automated - Testim Desktop" T)
    + sum_count (with_status "Automated - Testim Mobile" T)
    + sum_count (with_status "Automated - Testim Both" T).
Proof.
  induction 1 as [|r T [Hr _] _ IH]; [reflexivity|].
  rewrite !with_status_cons, sum_count_filter_cons, IH.
  rewrite (is_automated_cases (Status r) (Count r) Hr). lia.
Qed.

(** On mathematical integers: the epic pivot of a SummaryRow table has one
    row per epic, whose counts are the sums over the rows of the epic, and
    is sorted by descending coverage. *)
Lemma epic_pivot_relations (T : list SummaryRow) :
  Resolver.summary_table T ->
  let pivot := calculate_epic_metrics T in
  NoDup (map index pivot)
  /\ (forall e, In e (map index pivot) <-> In e (map Epic T))
  /\ (forall r, In r pivot ->
      let group := filter (fun x => (Epic x =? index r)%string) T in
      Automated r
      = sum_count (filter (fun x => Resolver.is_automated (Status x)) group)
      /\ To_Be_Automated r = sum_count (with_status "To Be Automated" group)
      /\ N_A r = sum_count (with_status "N/A" group)
      /\ Not_Automated r = sum_count (with_status "Not Automated" group)
      /\ TOTAL r = Automated r + To_Be_Automated r + N_A r + Not_Automated r
      /\ EFFECTIVE_TOTAL r = TOTAL r - N_A r
      /\ COVERAGE r
         = fillna_replace_inf
             (round1 (percent (Automated r) (EFFECTIVE_TOTAL r)))
      /\ (EFFECTIVE_TOTAL r <= 0 -> COVERAGE r = zero))
  /\ Sorted covers_desc pivot.
Proof.
  intros HT pivot. subst pivot. unfold calculate_epic_metrics.
  assert (HP := sort_values_desc_perm (epic_pivot T)).
  split; [|split; [|split]].
  - eapply Permutation_NoDup; [apply Permutation_sym, Permutation_map, HP|].
    rewrite pivot_index. apply (unique_sorted_NoDup _ string_order).
  - intros e. transitivity (In e (map index (epic_pivot T))).
    + split; apply Permutation_in; [|apply Permutation_sym];
        apply Permutation_map, HP.
    + rewrite pivot_index, (unique_sorted_In _ string_order).
      apply epic_status_epics.
  - intros r Hr.
    apply (Permutation_in _ HP) in Hr.
    unfold epic_pivot, groupby in Hr. rewrite map_map in Hr.
    apply in_map_iff in Hr. destruct Hr as (e & <- & _).
    cbn [fst snd index Automated To_Be_Automated N_A Not_Automated TOTAL
           EFFECTIVE_TOTAL COVERAGE] in *.
    unfold aggregate_epic_status.
    cbn [ec_Automated ec_To_Be_Automated ec_N_A ec_Not_Automated ec_TOTAL].
    rewrite (pivot_cell contains_automated),
      (pivot_cell (fun s => (s =? "To Be Automated")%string)),
      (pivot_cell (fun s => (s =? "N/A")%string)),
      (pivot_cell (fun s => (s =? "Not Automated")%string)), pivot_total.
    set (group := filter (fun x => (Epic x =? e)%string) T).
    fold (with_status "To Be Automated" group) (with_status "N/A" group)
      (with_status "Not Automated" group).
    assert (HG : Resolver.summary_table group) by now apply summary_table_filter.
    assert (Ha : sum_count (filter (fun x => contains_automated (Status x)) group)
                 = sum_count
                     (filter (fun x => Resolver.is_automated (Status x)) group)).
    { apply (total_filter_ext Count). intros x Hx.
      apply contains_is_automated.
      unfold Resolver.summary_table in HG. rewrite Forall_forall in HG.
      now apply HG. }
    rewrite Ha.
    assert (Hs := automated_split group HG).
    assert (Hp := overall_partition group HG).
    assert (H1 := with_status_nonneg "Automated - Java" group HG).
    assert (H2 := with_status_nonneg "Automated - Testim Desktop" group HG).
    assert (H3 := with_status_nonneg "Automated - Testim Mobile" group HG).
    assert (H4 := with_status_nonneg "Automated - Testim Both" group HG).
    assert (H5 := with_status_nonneg "To Be Automated" group HG).
    assert (H6 := with_status_nonneg "Not Automated" group HG).
    repeat split; try reflexivity; try lia.
    intros Hle.
    replace (sum_count (filter (fun x => Resolver.is_automated (Status x)) group))
      with 0 by lia.
    replace (sum_count group - sum_count (with_status "N/A" group)) with 0 by lia.
    reflexivity.
  - apply sort_values_desc_sorted.
    unfold epic_pivot. rewrite Forall_forall. intros r Hr.
    apply in_map_iff in Hr. destruct Hr as (g & <- & _).
    apply coverage_pct_not_nan.
Qed.

(** ** The pipeline *)

Lemma apply_length {A : Type} (f : value -> result A) (col : list value)
  (l : list A) :
  apply f col = Ok l -> List.length l = List.length col.
Proof.
  revert l. induction col as [|v col IH]; intros l; simpl.
  - intros [= <-]. reflexivity.
  - destruct (f v) as [a|e]; simpl; [|discriminate].
    destruct (apply f col) as [rest|e]; simpl; [|discriminate].
    intros [= <-]. simpl. f_equal. now apply IH.
Qed.

Lemma constant_length {A : Type} (df : DataFrame) (v : A) :
  List.length (constant df v) = List.length (rows df).
Proof. apply length_map. Qed.

Lemma column_length (df : DataFrame) (name : string) :
  List.length (column df name) = List.length (rows df).
Proof. apply length_map. Qed.

Lemma status_rows_length (n : nat) (java desktop mobile : list (option string)) :
  List.length java = n -> List.length desktop = n -> List.length mobile = n ->
  List.length (status_rows java desktop mobile) = n.
Proof.
  revert java desktop mobile.
  induction n as [|n IH]; intros [|j java] [|d desktop] [|m mobile];
    simpl; try discriminate; auto;
    try (intros [= H1] [= H2] [= H3]; f_equal; now apply IH).
Qed.

Lemma case_keys_length (n : nat) (epic status device country priority : list string) :
  List.length epic = n -> List.length status = n -> List.length device = n ->
  List.length country = n -> List.length priority = n ->
  List.length (case_keys epic status device country priority) = n.
Proof.
  revert epic status device country priority.
  induction n as [|n IH];
    intros [|e epic] [|s status] [|d device] [|c country] [|p priority];
    simpl; try discriminate; auto;
    try (intros [= H1] [= H2] [= H3] [= H4] [= H5]; f_equal; now apply IH).
Qed.

Lemma sum_of_ext {A : Type} (f g : A -> Z) (l : list A) :
  (forall x, f x = g x) -> sum_of f l = sum_of g l.
Proof. intros H. induction l as [|x l IH]; simpl; [reflexivity|]. now rewrite H, IH. Qed.

(** The counts of the summary add up to the number of cases. *)
Lemma summarize_sum (cases : list case_key) :
  sum_count (summarize cases) = Z.of_nat (List.length cases).
Proof.
  unfold summarize. change sum_count with (sum_of Count).
  rewrite total_map.
  rewrite (sum_of_ext _ (fun g : case_key * list case_key =>
                           sum_of (fun _ => 1) (snd g))).
  - rewrite <- (filter_all (groupby _ _ _)).
    rewrite (total_groupby _ case_key_order (fun k => k) (fun _ => 1)
               (fun _ => true)).
    now rewrite filter_all, total_ones.
  - intros [[[[[e s] d] c] p] g]. cbn [fst snd Count]. now rewrite total_ones.
Qed.

Lemma process_try_sum (df : DataFrame) (bu_name : string)
  (out : list SummaryRow * list report) :
  find_field df "java" <> None ->
  process_try df bu_name = Ok out ->
  snd out = [] /\ sum_count (fst out) = Z.of_nat (List.length (rows df)).
Proof.
  unfold process_try. intros Hj.
  destruct (find_field df "java") as [java_field|]; [clear Hj|contradiction].
  destruct (apply map_automation_status_java _) as [java|] eqn:Ejava;
    [|discriminate].
  apply apply_length in Ejava. rewrite column_length in Ejava.
  cbn [bind].
  match goal with
  | |- bind ?x _ = _ -> _ => destruct x as [desktop|] eqn:Edesktop; [|discriminate]
  end.
  assert (Hd : List.length desktop = List.length (rows df)).
  { destruct (find_field df "testim_desktop").
    - apply apply_length in Edesktop. now rewrite column_length in Edesktop.
    - injection Edesktop as <-. apply constant_length. }
  cbn [bind].
  match goal with
  | |- bind ?x _ = _ -> _ => destruct x as [mobile|] eqn:Emobile; [|discriminate]
  end.
  assert (Hm : List.length mobile = List.length (rows df)).
  { destruct (find_field df "testim_mobile").
    - apply apply_length in Emobile. now rewrite column_length in Emobile.
    - injection Emobile as <-. apply constant_length. }
  cbn [bind].
  match goal with
  | |- bind ?x _ = _ -> _ => destruct x as [device|] eqn:Edevice; [|discriminate]
  end.
  assert (Hv : List.length device = List.length (rows df)).
  { destruct (find_field df "device").
    - apply apply_length in Edevice. now rewrite column_length in Edevice.
    - injection Edevice as <-. apply constant_length. }
  cbn [bind].
  match goal with
  | |- bind ?x _ = _ -> _ => destruct x as [country|] eqn:Ecountry; [|discriminate]
  end.
  assert (Hc : List.length country = List.length (rows df)).
  { destruct (find_field df "country").
    - apply apply_length in Ecountry. now rewrite column_length in Ecountry.
    - injection Ecountry as <-. apply constant_length. }
  cbn [bind].
  match goal with
  | |- bind ?x _ = _ -> _ => destruct x as [priority|] eqn:Epriority; [|discriminate]
  end.
  assert (Hp : List.length priority = List.length (rows df)).
  { destruct (find_field df "priority").
    - apply apply_length in Epriority. now rewrite column_length in Epriority.
    - injection Epriority as <-. apply constant_length. }
  cbn [bind]. intros [= <-]. cbn [fst snd]. split; [reflexivity|].
  rewrite summarize_sum. f_equal.
  apply case_keys_length; auto.
  - destruct (find_field df "epic"); [|apply constant_length].
    now rewrite length_map, column_length.
  - rewrite length_map. now apply status_rows_length.
Qed.

Lemma plain_status_ok (d : int_dict) (v : value) :
  plain v ->
  exists r,
    (na <- isna_truth v ;;
     if na then Ok None
     else try_except_ValueError_TypeError
            (val_int <- int_float v ;; Ok (int_dict_get d val_int)) (Ok None))
    = Ok r.
Proof.
  destruct v as [x|xs]; [|contradiction]. cbn [plain isna_truth bind].
  intros H. destruct (isna x); [eauto|].
  destruct (int_float (One x)) as [n|[]]; simpl; eauto. contradiction.
Qed.

Lemma plain_java_ok (v : value) :
  plain v -> exists r, map_automation_status_java v = Ok r.
Proof. apply plain_status_ok. Qed.

Lemma plain_testim_ok (v : value) :
  plain v -> exists r, map_automation_status_testim v = Ok r.
Proof. apply plain_status_ok. Qed.

Lemma plain_device_ok (v : value) :
  plain v -> exists r, map_device_status v = Ok r.
Proof.
  destruct v as [x|xs]; [|contradiction].
  unfold map_device_status, _map_field_value. cbn [plain isna_truth bind].
  intros H. destruct (isna x); [eauto|].
  assert (Hl : exists o, int_dict_lookup DEVICE_MAPPINGS (One x) = Ok o)
    by (destruct x; simpl; eauto).
  destruct Hl as [o ->]. cbn [bind]. destruct o; [eauto|].
  destruct (int_float (One x)) as [n|[]]; simpl; eauto. contradiction.
Qed.

Lemma plain_priority_ok (v : value) :
  plain v -> exists r, map_priority v = Ok r.
Proof.
  destruct v as [x|xs]; [|contradiction].
  unfold map_priority. cbn [plain isna_truth bind].
  intros H. destruct (isna x); [eauto|].
  destruct (int_float (One x)) as [n|[]]; eauto; try contradiction;
    repeat match goal with |- context [if ?b then _ else _] => destruct b end;
    eauto.
Qed.

Lemma plain_country_ok (v : value) (bu_name : string) :
  plain_country v -> exists r, map_country_id v bu_name = Ok r.
Proof.
  destruct v as [x|xs]; unfold map_country_id.
  - cbn [plain_country]. intros H. destruct (isna x); [eauto|].
    destruct (str_dict_get _ _); [eauto|].
    destruct (int_float _) as [n|[]]; simpl; eauto. contradiction.
  - intros _. destruct xs; eauto.
Qed.

Lemma apply_ok {A : Type} (f : value -> result A) (col : list value) :
  (forall v, In v col -> exists r, f v = Ok r) -> exists l, apply f col = Ok l.
Proof.
  induction col as [|v col IH]; intros H; simpl; [eauto|].
  destruct (H v (or_introl eq_refl)) as [a ->].
  destruct IH as [l ->]; [intros w Hw; apply H; now right|].
  simpl. eauto.
Qed.

Lemma plain_column_ok {A : Type} (f : value -> result A) (df : DataFrame)
  (field : string) :
  (forall row, In row (rows df) -> exists r, f (row field) = Ok r) ->
  exists l, apply f (column df field) = Ok l.
Proof.
  intros H. apply apply_ok. unfold column. intros v Hv.
  apply in_map_iff in Hv. destruct Hv as (row & <- & Hrow). now apply H.
Qed.

(** On a plain table no mapper raises. *)
Lemma process_try_plain (df : DataFrame) (bu_name : string) :
  plain_table df -> exists out, process_try df bu_name = Ok out.
Proof.
  intros Hplain. unfold process_try.
  destruct (find_field df "java") as [java_field|] eqn:Ej; [|eauto].
  destruct (plain_column_ok map_automation_status_java df java_field) as [java ->].
  { intros row Hrow. apply plain_java_ok.
    apply (proj1 (Hplain row Hrow) "java"); [simpl; auto|exact Ej]. }
  cbn [bind].
  assert (Hd : exists l,
             match find_field df "testim_desktop" with
             | Some f => apply map_automation_status_testim (column df f)
             | None => Ok (constant df None)
             end = Ok l).
  { destruct (find_field df "testim_desktop") as [f|] eqn:E; [|eauto].
    apply plain_column_ok. intros row Hrow. apply plain_testim_ok.
    apply (proj1 (Hplain row Hrow) "testim_desktop"); [simpl; auto|exact E]. }
  destruct Hd as [desktop ->]. cbn [bind].
  assert (Hm : exists l,
             match find_field df "testim_mobile" with
             | Some f => apply map_automation_status_testim (column df f)
             | None => Ok (constant df None)
             end = Ok l).
  { destruct (find_field df "testim_mobile") as [f|] eqn:E; [|eauto].
    apply plain_column_ok. intros row Hrow. apply plain_testim_ok.
    apply (proj1 (Hplain row Hrow) "testim_mobile"); [simpl; auto|exact E]. }
  destruct Hm as [mobile ->]. cbn [bind].
  assert (Hv : exists l,
             match find_field df "device" with
             | Some f => apply map_device_status (column df f)
             | None => Ok (constant df "Both")
             end = Ok l).
  { destruct (find_field df "device") as [f|] eqn:E; [|eauto].
    apply plain_column_ok. intros row Hrow. apply plain_device_ok.
    apply (proj1 (Hplain row Hrow) "device"); [simpl; auto 6|exact E]. }
  destruct Hv as [device ->]. cbn [bind].
  assert (Hc : exists l,
             match find_field df "country" with
             | Some f => apply (fun x => map_country_id x bu_name) (column df f)
             | None => Ok (constant df "Unknown")
             end = Ok l).
  { destruct (find_field df "country") as [f|] eqn:E; [|eauto].
    apply plain_column_ok. intros row Hrow. apply plain_country_ok.
    now apply (proj2 (Hplain row Hrow)). }
  destruct Hc as [country ->]. cbn [bind].
  assert (Hp : exists l,
             match find_field df "priority" with
             | Some f => apply map_priority (column df f)
             | None => Ok (constant df "Unknown")
             end = Ok l).
  { destruct (find_field df "priority") as [f|] eqn:E; [|eauto].
    apply plain_column_ok. intros row Hrow. apply plain_priority_ok.
    apply (proj1 (Hplain row Hrow) "priority"); [simpl; auto 6|exact E]. }
  destruct Hp as [priority ->]. cbn [bind]. eauto.
Qed.

(** On a non-empty input whose schema resolves the primary-framework
    status field, [process] either reports a processing error with an empty
    table, or returns a table whose counts add up to the number of all raw
    cases; on a plain table it is the latter. *)
Lemma process_sums_to_cases (df : DataFrame) (bu_name : string) :
  empty df = false ->
  find_field df "java" <> None ->
  ((exists e, process df bu_name = ([], [ProcessingError e]))
   \/ (snd (process df bu_name) = []
       /\ sum_count (fst (process df bu_name))
          = Z.of_nat (List.length (rows df))))
  /\ (plain_table df ->
      snd (process df bu_name) = []
      /\ sum_count (fst (process df bu_name))
         = Z.of_nat (List.length (rows df))).
Proof.
  intros He Hj. unfold process. rewrite He. split.
  - destruct (process_try df bu_name) as [out|e] eqn:E.
    + right. now apply (process_try_sum df bu_name).
    + left. now exists e.
  - intros Hplain.
    destruct (process_try_plain df bu_name Hplain) as [out E]. rewrite E.
    now apply (process_try_sum df bu_name).
Qed.

(** C1 as stated fails: the single case of [unmapped_case] has the status
    code 99, which no table maps, and [process] still counts it, under
    "Not Automated". *)
Lemma process_keeps_unmapped_case :
  empty Samples.unmapped_case = false
  /\ find_field Samples.unmapped_case "java" = Some "custom_automation_status"
  /\ resolvable_cases Samples.unmapped_case "custom_automation_status" = 0%nat
  /\ process Samples.unmapped_case "Marionnaud"
     = ([ {| Epic := "No Epic Assigned"; Status := "Not Automated";
             Device := "Both"; Country := "Unknown"; Priority := "Unknown";
             Count := 1 |} ], [])
  /\ sum_count (fst (process Samples.unmapped_case "Marionnaud"))
     <> Z.of_nat
          (resolvable_cases Samples.unmapped_case "custom_automation_status").
Proof.
  repeat split; try (vm_compute; reflexivity).
  vm_compute. discriminate.
Qed.

(** C7.  [process] returns on degenerate input: given no raw case it
    returns the empty table and reports that there is no data; when no
    column of the input is an alias of the primary-framework status field it
    returns the empty table and reports the failure.  In both cases the
    result is a value, not an exception. *)
Theorem process_degenerate_input (df : DataFrame) (bu_name : string) :
  (rows df = [] -> process df bu_name = ([], [NoDataToProcess]))
  /\ (find_field df "java" = None ->
      process df bu_name = ([], [NoDataToProcess])
      \/ process df bu_name = ([], [JavaFieldNotFound])).
Proof.
  unfold process, empty. split.
  - intros ->. reflexivity.
  - intros H.
    destruct (rows df); [now left|]. destruct (columns df); [now left|].
    right. unfold process_try. now rewrite H.
Qed.

Lemma process_degenerate_input_witness :
  (rows Samples.no_case = []
   /\ process Samples.no_case "Marionnaud" = ([], [NoDataToProcess]))
  /\ (find_field Samples.no_java_field "java" = None
      /\ (process Samples.no_java_field "Marionnaud" = ([], [NoDataToProcess])
          \/ process Samples.no_java_field "Marionnaud"
             = ([], [JavaFieldNotFound]))).
Proof.
  split; (split; [reflexivity|]).
  - exact (proj1 (process_degenerate_input Samples.no_case "Marionnaud")
             eq_refl).
  - exact (proj2 (process_degenerate_input Samples.no_java_field "Marionnaud")
             eq_refl).
Defined.

(** ** The sample summary *)

Lemma sample_is_summary_table : Resolver.summary_table Samples.sample_summary.
Proof.
  unfold Resolver.summary_table, Samples.sample_summary.
  repeat constructor; simpl; auto 10; discriminate.
Defined.

Lemma metrics_order_independent_witness :
  Permutation Samples.sample_summary (rev Samples.sample_summary)
  /\ calculate_overall_metrics Samples.sample_summary
     = calculate_overall_metrics (rev Samples.sample_summary)
  /\ calculate_testim_metrics Samples.sample_summary
     = calculate_testim_metrics (rev Samples.sample_summary)
  /\ calculate_device_metrics Samples.sample_summary
     = calculate_device_metrics (rev Samples.sample_summary)
  /\ calculate_epic_metrics Samples.sample_summary
     = calculate_epic_metrics (rev Samples.sample_summary).
Proof.
  split; [apply Permutation_rev|].
  exact (metrics_order_independent Samples.sample_summary
           (rev Samples.sample_summary)
           (Permutation_rev Samples.sample_summary)).
Defined.

(** The figures the tests of the repository expect of the sample *)
Example sample_overall_metrics :
  let m := calculate_overall_metrics Samples.sample_summary in
  total m = 58 /\ automated_java m = 10 /\ automated_testim_desktop m = 20
  /\ total_automated m = 30 /\ to_be_automated m = 15 /\ not_automated m = 5
  /\ not_applicable m = 8
  /\ coverage m = Float (S754_finite false 8444249301319680 (-47)).
Proof. vm_compute. repeat split. Qed.

Example sample_epic_pivot :
  map (fun r => (index r, Automated r, TOTAL r, repr_float (COVERAGE r)))
    (calculate_epic_metrics Samples.sample_summary)
  = [ ("Epic1", 30, 30, "100.0"); ("Epic2", 0, 20, "0.0");
      ("Epic3", 0, 8, "0.0") ].
Proof. vm_compute. reflexivity. Qed.

Example empty_table_metrics :
  total (calculate_overall_metrics []) = 0
  /\ coverage (calculate_overall_metrics []) = Int 0
  /\ calculate_epic_metrics [] = [].
Proof. vm_compute. repeat split. Qed.

(** ** The epic search *)

(** An empty search term returns the pivot as it is. *)
Lemma filter_epic_by_search_empty (pivot : list PivotRow) :
  filter_epic_by_search pivot "" = Some pivot.
Proof. reflexivity. Qed.

(** A term of letters, digits and spaces selects the rows whose epic
    contains it, whatever the case. *)
Example filter_epic_by_search_plain_term :
  filter_epic_by_search Samples.sample_pivot "epic"
  = Some [Samples.pivot_row "Epic One" 10; Samples.pivot_row "Epic Two" 20].
Proof. vm_compute. reflexivity. Qed.

(** C4 at a failing input.  The search term is compiled as a regular
    expression: the term [.] selects every epic of the sample, of which
    none contains a dot, and the term [*], which [re] rejects, returns the
    whole pivot. *)
Theorem filter_epic_by_search_is_regex :
  filter_epic_by_search Samples.sample_pivot "." = Some Samples.sample_pivot
  /\ filter (fun r => str_in (lower ".") (lower (index r))) Samples.sample_pivot
     = []
  /\ filter_epic_by_search Samples.sample_pivot "*" = Some Samples.sample_pivot
  /\ filter (fun r => str_in (lower "*") (lower (index r))) Samples.sample_pivot
     = [].
Proof. vm_compute. repeat split. Qed.

(** ** The country mapper *)

(** The literal cases of the tests *)
Example map_country_id_cases :
  map_country_id (One (SStr "3")) "Marionnaud" = Ok "MRN"
  /\ map_country_id (One (SStr "5")) "Drogas" = Ok "LT"
  /\ map_country_id (One (SStr "999")) "Marionnaud" = Ok "ID_999"
  /\ map_country_id (One (SStr "abc")) "Drogas" = Ok "ID_abc"
  /\ map_country_id (Many []) "Marionnaud" = Ok "Unknown"
  /\ map_country_id (Many [SStr "3"; SStr "9"]) "Marionnaud" = Ok "MRN, MFR"
  /\ map_country_id (One (SFloat S754_nan)) "Marionnaud" = Ok "Unknown"
  /\ map_country_id (One SNone) "Marionnaud" = Ok "Unknown".
Proof. vm_compute. repeat split. Qed.

(** C5 as stated fails.  The text [3.7] stands for no integer, and the
    scalar branch truncates it to the key [3]; the list branch looks an
    element up as it is written, so that the text [3.0] maps to MRN as a
    scalar and to a synthetic label as an element. *)
Lemma map_country_id_not_uniform :
  map_country_id (One (SStr "3.7")) "Marionnaud" = Ok "MRN"
  /\ map_country_id (One (SStr "3.7")) "Marionnaud" <> Ok "ID_3.7"
  /\ map_country_id (One (SStr "3.0")) "Marionnaud" = Ok "MRN"
  /\ map_country_id (Many [SStr "3.0"]) "Marionnaud" = Ok "ID_3.0"
  /\ map_country_id (Many [SStr "3.0"]) "Marionnaud"
     <> map_country_id (One (SStr "3.0")) "Marionnaud".
Proof.
  repeat split; try (vm_compute; reflexivity); vm_compute; discriminate.
Qed.

(** The list branch: no coercion of an element, the label of an unknown
    element built from its text before stripping; and the conversion of an
    infinite value, which the scalar branch does not catch. *)
Example map_country_id_list_branch :
  map_country_id (One (SFloat Samples.three)) "Marionnaud" = Ok "MRN"
  /\ map_country_id (Many [SFloat Samples.three]) "Marionnaud" = Ok "ID_3.0"
  /\ map_country_id (One (SStr " 999 ")) "Marionnaud" = Ok "ID_999"
  /\ map_country_id (Many [SStr " 999 "]) "Marionnaud" = Ok "ID_ 999 "
  /\ map_country_id (One (SStr "inf")) "Marionnaud" = Raise OverflowError.
Proof. vm_compute. repeat split. Qed.

(** ** Integers as floats *)

(** An integer below 2^53 in magnitude is a binary64 value: [float] keeps
    it and [int] gives it back. *)
Lemma digits2_pos_bounds (m : positive) :
  2 ^ (Zpos (digits2_pos m) - 1) <= Zpos m < 2 ^ Zpos (digits2_pos m).
Proof.
  induction m as [m IH|m IH|]; cbn [digits2_pos].
  - rewrite Pos2Z.inj_succ, (Pos2Z.inj_xI m).
    replace (Z.succ (Zpos (digits2_pos m)) - 1) with (Z.succ (Zpos (digits2_pos m) - 1)) by lia.
    rewrite !Z.pow_succ_r by lia. lia.
  - rewrite Pos2Z.inj_succ, (Pos2Z.inj_xO m).
    replace (Z.succ (Zpos (digits2_pos m)) - 1) with (Z.succ (Zpos (digits2_pos m) - 1)) by lia.
    rewrite !Z.pow_succ_r by lia. lia.
  - simpl. lia.
Qed.

Lemma iter_xO_value (m p : positive) :
  Zpos (Pos.iter xO m p) = Zpos m * 2 ^ Zpos p.
Proof.
  induction p as [|p IH] using Pos.peano_ind.
  - simpl. lia.
  - rewrite Pos.iter_succ, (Pos2Z.inj_xO (Pos.iter xO m p)), IH, Pos2Z.inj_succ, Z.pow_succ_r by lia. lia.
Qed.

Lemma iter_xO_digits (m p : positive) :
  digits2_pos (Pos.iter xO m p) = (digits2_pos m + p)%positive.
Proof.
  induction p as [|p IH] using Pos.peano_ind.
  - simpl. lia.
  - rewrite Pos.iter_succ. cbn [digits2_pos]. rewrite IH. lia.
Qed.

Lemma binary_round_small (s : bool) (m : positive) :
  Zpos m < 2 ^ 53 ->
  exists mz ez,
    binary_round prec emax s m 0 = S754_finite s mz ez
    /\ ez <= 0 /\ Zpos mz = Zpos m * 2 ^ (- ez).
Proof.
  intros Hm.
  assert (Hb := digits2_pos_bounds m).
  assert (Hd : Zpos (digits2_pos m) <= 53).
  { destruct (Z.le_gt_cases (Zpos (digits2_pos m)) 53) as [H|H]; [exact H|].
    exfalso. assert (2 ^ 53 <= 2 ^ (Zpos (digits2_pos m) - 1)) by (apply Z.pow_le_mono_r; lia). lia. }
  unfold binary_round.
  assert (Hf : fexp prec emax (Zpos (digits2_pos m) + 0) = Zpos (digits2_pos m) - 53).
  { unfold fexp, emin, prec, emax. lia. }
  rewrite Hf. unfold shl_align.
  destruct (Zpos (digits2_pos m) - 53 - 0) as [|q|q] eqn:Eq; try lia.
  - (* 53 digits *)
    exists m, 0. split; [|split; [lia|simpl; lia]].
    unfold binary_round_aux, shr_fexp. cbn [Zdigits2 shr_record_of_loc].
    replace (fexp prec emax (Zpos (digits2_pos m) + 0) - 0) with 0 by lia.
    cbn [shr shr_m loc_of_shr_record round_nearest_even].
    cbn [Zdigits2 shr_record_of_loc].
    replace (fexp prec emax (Zpos (digits2_pos m) + 0) - 0) with 0 by lia.
    cbn [shr shr_m]. reflexivity.
  - set (mz := Pos.iter xO m q).
    assert (Hdz : Zpos (digits2_pos mz) = 53).
    { unfold mz. rewrite iter_xO_digits. lia. }
    exists mz, (Zpos (digits2_pos m) - 53). split; [|split; [lia|]].
    + unfold binary_round_aux, shr_fexp. cbn [Zdigits2 shr_record_of_loc].
      assert (Hf2 : fexp prec emax (Zpos (digits2_pos mz) + (Zpos (digits2_pos m) - 53)) - (Zpos (digits2_pos m) - 53) = 0).
      { unfold fexp, emin, prec, emax. lia. }
      rewrite Hf2.
      cbn [shr shr_m loc_of_shr_record round_nearest_even].
      cbn [Zdigits2 shr_record_of_loc]. rewrite Hf2.
      cbn [shr shr_m].
      replace (Zpos (digits2_pos m) - 53 <=? emax - prec) with true; [reflexivity|].
      symmetry. apply Z.leb_le. unfold emax, prec. lia.
    + unfold mz. rewrite iter_xO_value. f_equal. f_equal. lia.
Qed.

Lemma int_float_exact (n : Z) :
  Z.abs n < 2 ^ 53 -> int_float (One (SInt n)) = Ok n.
Proof.
  intros Hn. unfold int_float, py_float, float_of_int_rounded, binary_normalize.
  destruct n as [|m|m].
  - reflexivity.
  - destruct (binary_round_small false m) as (mz & ez & -> & Hez & Hv); [simpl in Hn; lia|].
    cbn [bind int_of_float]. f_equal.
    destruct (Z.leb_spec 0 ez).
    + assert (ez = 0) by lia. subst. simpl in Hv. rewrite Hv. simpl. lia.
    + rewrite Hv. apply Z.div_mul. apply Z.pow_nonzero; lia.
  - destruct (binary_round_small true m) as (mz & ez & -> & Hez & Hv); [simpl in Hn; lia|].
    cbn [bind int_of_float]. f_equal.
    destruct (Z.leb_spec 0 ez).
    + assert (ez = 0) by lia. subst. simpl in Hv. rewrite Hv. simpl. lia.
    + rewrite Hv, Z.div_mul by (apply Z.pow_nonzero; lia). lia.
Qed.

(** ** The priority mapper *)

(** The literal cases of the tests *)
Example map_priority_cases :
  map_priority (One (SInt 3)) = Ok "High"
  /\ map_priority (One (SInt 4)) = Ok "Highest"
  /\ map_priority (One (SInt 5)) = Ok "Medium"
  /\ map_priority (One (SFloat Samples.three)) = Ok "High"
  /\ map_priority (One (SStr "highest")) = Ok "Highest"
  /\ map_priority (One (SStr "high")) = Ok "High"
  /\ map_priority (One (SStr "medium")) = Ok "Medium"
  /\ map_priority (One (SInt 99)) = Ok "Unknown"
  /\ map_priority (One (SStr "low")) = Ok "Unknown"
  /\ map_priority (One (SFloat S754_nan)) = Ok "Unknown".
Proof. vm_compute. repeat split. Qed.

(** C8 as stated fails: [3.5] is a number and no integer code, and the
    mapper truncates it to the code 3. *)
Lemma map_priority_truncates :
  float_as_int Samples.three_and_a_half = None
  /\ py_float (One (SFloat Samples.three_and_a_half))
     = Ok Samples.three_and_a_half
  /\ map_priority (One (SFloat Samples.three_and_a_half)) = Ok "High"
  /\ map_priority (One (SFloat Samples.three_and_a_half)) <> Ok "Unknown"
  /\ map_priority (One (SStr "3.5")) = Ok "High".
Proof.
  repeat split; try (vm_compute; reflexivity). vm_compute. discriminate.
Qed.

(** The conversion of an infinite value is not caught. *)
Example map_priority_overflow :
  map_priority (One (SStr "inf")) = Raise OverflowError
  /\ map_priority (One (SFloat (S754_infinity false))) = Raise OverflowError
  /\ map_priority (One (SStr "1e999")) = Raise OverflowError.
Proof. vm_compute. repeat split. Qed.

Lemma priority_of_code_get (n : Z) :
  or_default (int_dict_get PRIORITY_MAPPINGS n) "Unknown" = priority_of_code n.
Proof.
  unfold priority_of_code, PRIORITY_MAPPINGS. cbn [int_dict_get].
  rewrite (Z.eqb_sym 3 n), (Z.eqb_sym 4 n), (Z.eqb_sym 5 n).
  destruct (n =? 3), (n =? 4), (n =? 5); reflexivity.
Qed.

(** C8, as the code has it.  For every scalar priority value whose
    conversion does not overflow: a missing value yields "Unknown"; a
    numeric value is truncated toward zero to an integer code, which maps
    through 3: High, 4: Highest, 5: Medium, any other code yielding
    "Unknown"; a value that is not numeric falls back to the search of
    "highest", then "high", then "medium" in its lowered text, and yields
    "Unknown" when none occurs. *)
Theorem map_priority_scalar (x : scalar) :
  int_float (One x) <> Raise OverflowError ->
  map_priority (One x)
  = Ok (if isna x then "Unknown"
        else match int_float (One x) with
             | Ok n => priority_of_code n
             | Raise _ => priority_of_text (str_scalar x)
             end)
  /\ (forall n, x = SInt n -> Z.abs n < 2 ^ 53 ->
      map_priority (One x) = Ok (priority_of_code n)).
Proof.
  intros H.
  assert (Hm : map_priority (One x)
               = Ok (if isna x then "Unknown"
                     else match int_float (One x) with
                          | Ok n => priority_of_code n
                          | Raise _ => priority_of_text (str_scalar x)
                          end)).
  { unfold map_priority. cbn [isna_truth bind].
    destruct (isna x); [reflexivity|].
    destruct (int_float (One x)) as [n|[]]; try contradiction.
    - now rewrite priority_of_code_get.
    - unfold priority_of_text. cbn [py_str].
      repeat match goal with |- context [if ?b then _ else _] => destruct b end;
        reflexivity.
    - unfold priority_of_text. cbn [py_str].
      repeat match goal with |- context [if ?b then _ else _] => destruct b end;
        reflexivity. }
  split; [exact Hm|].
  intros n -> Hn. rewrite Hm. cbn [isna]. now rewrite (int_float_exact n Hn).
Qed.

Lemma map_priority_scalar_witness :
  int_float (One (SInt 4)) <> Raise OverflowError
  /\ (map_priority (One (SInt 4))
      = Ok (if isna (SInt 4) then "Unknown"
            else match int_float (One (SInt 4)) with
                 | Ok n => priority_of_code n
                 | Raise _ => priority_of_text (str_scalar (SInt 4))
                 end)
      /\ (forall n, SInt 4 = SInt n -> Z.abs n < 2 ^ 53 ->
          map_priority (One (SInt 4)) = Ok (priority_of_code n))).
Proof.
  assert (H : int_float (One (SInt 4)) <> Raise OverflowError)
    by (vm_compute; discriminate).
  split; [exact H|].
  exact (map_priority_scalar (SInt 4) H).
Defined.

(** ** Literal cases of the mappers and of the field resolver *)

Example map_automation_status_java_cases :
  map (fun n => map_automation_status_java (One (SInt n))) [1; 2; 3; 4; 10; 99]
  = [ Ok (Some "Not Automated"); Ok (Some "To Be Automated");
      Ok (Some "Automated"); Ok (Some "N/A"); Ok (Some "To Be Automated");
      Ok None ]
  /\ map_automation_status_java (One (SFloat Samples.three))
     = Ok (Some "Automated")
  /\ map_automation_status_java (One (SFloat S754_nan)) = Ok None
  /\ map_automation_status_testim (One (SInt 10)) = Ok None.
Proof. vm_compute. repeat split. Qed.

(** An integer code below 2^53 in magnitude is looked up as it is. *)
Lemma map_automation_status_java_code (n : Z) :
  Z.abs n < 2 ^ 53 ->
  map_automation_status_java (One (SInt n))
  = Ok (int_dict_get JAVA_STATUS_MAPPINGS n).
Proof.
  intros Hn. unfold map_automation_status_java. cbn [isna_truth isna bind].
  now rewrite (int_float_exact n Hn).
Qed.

Example map_device_status_cases :
  map_device_status (One (SInt 1)) = Ok "Desktop"
  /\ map_device_status (One (SInt 2)) = Ok "Mobile"
  /\ map_device_status (One (SInt 3)) = Ok "Both"
  /\ map_device_status (One (SInt 99)) = Ok "Both"
  /\ map_device_status (One (SFloat S754_nan)) = Ok "Both"
  /\ map_device_status (One (SStr "2.0")) = Ok "Mobile".
Proof. vm_compute. repeat split. Qed.

Example determine_final_status_cases :
  let resolve java desktop mobile :=
    determine_final_status
      {| Java_Status := Some java; Testim_Desktop_Status := Some desktop;
         Testim_Mobile_Status := Some mobile |} in
  resolve "Automated" "Automated" "Automated" = "Automated - Testim Both"
  /\ resolve "Not Automated" "Automated" "Not Automated"
     = "Automated - Testim Desktop"
  /\ resolve "Not Automated" "Not Automated" "Automated"
     = "Automated - Testim Mobile"
  /\ resolve "Automated" "Not Automated" "Not Automated" = "Automated - Java"
  /\ resolve "N/A" "Not Automated" "Not Automated" = "N/A"
  /\ resolve "To Be Automated" "Not Automated" "Not Automated"
     = "To Be Automated"
  /\ resolve "Not Automated" "Not Automated" "Not Automated" = "Not Automated".
Proof. vm_compute. repeat split. Qed.

Example find_field_cases :
  let df names := {| columns := names; rows := [] |} in
  find_field (df ["custom_automation_status"; "other_field"]) "java"
  = Some "custom_automation_status"
  /\ find_field (df ["automation_status"; "other_field"]) "java"
     = Some "automation_status"
  /\ find_field (df ["automation_status"; "custom_automation_status"]) "java"
     = Some "custom_automation_status"
  /\ find_field (df ["other_field"; "another_field"]) "java" = None
  /\ find_field (df ["custom_epic_reference"; "other_field"]) "epic"
     = Some "custom_epic_reference".
Proof. vm_compute. repeat split. Qed.

Example sample_device_metrics :
  map (fun d => (fst d, dm_automated (snd d), dm_total (snd d)))
    (calculate_device_metrics Samples.sample_summary)
  = [ ("Desktop", 30, 38); ("Mobile", 0, 15); ("Both", 0, 5) ].
Proof. vm_compute. reflexivity. Qed.

(** What the country mapper does with a collection and with a scalar *)
Lemma map_country_id_collection (xs : list scalar) (bu_name : string) :
  map_country_id (Many xs) bu_name
  = Ok (match xs with
        | [] => "Unknown"
        | _ =>
            join ", "
              (map (fun v =>
                      or_default
                        (str_dict_get (named_get COUNTRY_MAPPINGS bu_name [])
                           (strip (str_scalar v)))
                        ("ID_" ++ str_scalar v)) xs)
        end).
Proof. now destruct xs. Qed.

(* ================================================================== *)
(** * Further properties of the pipeline *)
(* ================================================================== *)

Import Dashboard Connector Terms.

(** ** Field aliases *)

Lemma find_first {A : Type} (p : A -> bool) (l : list A) :
  match find p l with
  | Some x =>
      p x = true
      /\ exists before after,
           l = (before ++ x :: after)%list
           /\ forall a, In a before -> p a = false
  | None => forall a, In a l -> p a = false
  end.
Proof.
  induction l as [|h t IH]; simpl.
  - intros a [].
  - destruct (p h) eqn:Eh.
    + split; [exact Eh|]. exists [], t. split; [reflexivity|]. intros a [].
    + destruct (find p t) as [x|].
      * destruct IH as (Hx & before & after & -> & Hb).
        split; [exact Hx|]. exists (h :: before), after. split; [reflexivity|].
        intros a [<-|Ha]; [exact Eh|exact (Hb a Ha)].
      * intros a [<-|Ha]; [exact Eh|exact (IH a Ha)].
Qed.

Lemma is_column (df : DataFrame) (field : string) :
  existsb (String.eqb field) (columns df) = true <-> In field (columns df).
Proof.
  rewrite existsb_exists. split.
  - intros (x & Hx & E). apply String.eqb_eq in E. subst. exact Hx.
  - intros H. exists field. split; [exact H|apply String.eqb_refl].
Qed.

Lemma named_get_absent {A : Type} (d : list (string * A)) (k : string)
  (default : A) :
  ~ In k (map fst d) -> named_get d k default = default.
Proof.
  induction d as [|[k' v] d IH]; simpl; intros H; [reflexivity|].
  destruct (String.eqb_spec k' k) as [->|_]; [exfalso; apply H; left; reflexivity|].
  apply IH. intros Hin. apply H. right. exact Hin.
Qed.

(** X1. [find_field] returns the first alias of the category, in the order
    of [FIELD_VARIATIONS], that is a column of the table: the alias it
    returns is a column and no alias listed before it is one.  It returns
    nothing exactly when no alias of the category is a column, which is the
    case of a category [FIELD_VARIATIONS] does not list. *)
Theorem find_field_first_alias (df : DataFrame) (field_type : string) :
  let aliases := named_get FIELD_VARIATIONS field_type [] in
  match find_field df field_type with
  | Some field =>
      In field (columns df)
      /\ exists before after,
           aliases = (before ++ field :: after)%list
           /\ Forall (fun a => ~ In a (columns df)) before
  | None =>
      Forall (fun a => ~ In a (columns df)) aliases
      /\ (In field_type (map fst FIELD_VARIATIONS) \/ aliases = [])
  end.
Proof.
  intros aliases. unfold find_field. fold aliases.
  pose proof (find_first (fun field => existsb (String.eqb field) (columns df))
                aliases) as H.
  destruct (find _ aliases) as [field|].
  - destruct H as (Hf & before & after & E & Hb).
    split; [apply is_column; exact Hf|].
    exists before, after. split; [exact E|].
    apply Forall_forall. intros a Ha Hin.
    apply is_column in Hin. rewrite (Hb a Ha) in Hin. discriminate.
  - split.
    + apply Forall_forall. intros a Ha Hin.
      apply is_column in Hin. rewrite (H a Ha) in Hin. discriminate.
    + destruct (in_dec string_dec field_type (map fst FIELD_VARIATIONS)) as [Hin|Hn].
      * left. exact Hin.
      * right. apply named_get_absent. exact Hn.
Qed.

(** ** The mappers: what they return *)

Lemma map_field_value_range (val : value) (mapping : int_dict)
  (default r : string) :
  _map_field_value val mapping default = Ok r ->
  r = default \/ exists k, int_dict_get mapping k = Some r.
Proof.
  unfold _map_field_value.
  destruct (isna_truth val) as [na|e]; cbn [bind]; [|discriminate].
  destruct na; [intros [= <-]; left; reflexivity|].
  destruct (int_dict_lookup mapping val) as [direct|e] eqn:Ed; cbn [bind];
    [|discriminate].
  destruct direct as [v|].
  - intros [= <-]. right.
    destruct val as [[| n | x | s]|xs]; cbn in Ed; try discriminate.
    + injection Ed as Ed. exists n. exact Ed.
    + injection Ed as Ed. destruct (float_as_int x) as [n|]; [|discriminate].
      exists n. exact Ed.
  - destruct (int_float val) as [n|[]]; cbn; try discriminate;
      try (intros [= <-]; left; reflexivity).
    destruct (int_dict_get mapping n) as [v|] eqn:En; cbn; intros [= <-].
    + right. exists n. exact En.
    + left. reflexivity.
Qed.

Lemma map_device_status_range (v : value) (r : string) :
  map_device_status v = Ok r -> In r ["Desktop"; "Mobile"; "Both"].
Proof.
  intros H. apply map_field_value_range in H. destruct H as [->|(k & Hk)].
  - simpl. auto.
  - unfold DEVICE_MAPPINGS in Hk. simpl in Hk.
    repeat match type of Hk with
           | (if ?c then _ else _) = _ => destruct c
           end; try discriminate; injection Hk as <-; simpl; auto.
Qed.

Lemma priority_of_code_range (n : Z) :
  In (priority_of_code n) ["High"; "Highest"; "Medium"; "Unknown"].
Proof.
  unfold priority_of_code.
  repeat match goal with |- context [if ?c then _ else _] => destruct c end;
    simpl; auto.
Qed.

Lemma map_priority_range (v : value) (r : string) :
  map_priority v = Ok r -> In r ["High"; "Highest"; "Medium"; "Unknown"].
Proof.
  unfold map_priority.
  destruct (isna_truth v) as [na|e]; cbn [bind]; [|discriminate].
  destruct na; [intros [= <-]; simpl; auto|].
  destruct (int_float v) as [n|[]]; try discriminate.
  - rewrite priority_of_code_get. intros [= <-]. apply priority_of_code_range.
  - repeat match goal with |- context [if ?c then _ else _] => destruct c end;
      intros [= <-]; simpl; auto.
  - repeat match goal with |- context [if ?c then _ else _] => destruct c end;
      intros [= <-]; simpl; auto.
Qed.


Lemma status_mapper_cases (d : int_dict) (v : value) (r : option string) :
  (na <- isna_truth v ;;
   if na then Ok None
   else try_except_ValueError_TypeError
          (val_int <- int_float v ;; Ok (int_dict_get d val_int)) (Ok None))
  = Ok r ->
  r = None \/ exists n, int_float v = Ok n /\ r = int_dict_get d n.
Proof.
  destruct (isna_truth v) as [na|e]; cbn [bind]; [|discriminate].
  destruct na; [intros [= <-]; left; reflexivity|].
  destruct (int_float v) as [n|[]]; cbn; try discriminate;
    try (intros [= <-]; left; reflexivity).
  intros [= <-]. right. exists n. split; reflexivity.
Qed.

Lemma java_table (n : Z) (s : string) :
  int_dict_get JAVA_STATUS_MAPPINGS n = Some s -> In s status_labels.
Proof.
  unfold JAVA_STATUS_MAPPINGS. simpl. intros H.
  repeat match type of H with
         | (if ?c then _ else _) = _ => destruct c
         end; try discriminate; injection H as <-; simpl; auto.
Qed.

Lemma testim_table (n : Z) :
  int_dict_get TESTIM_STATUS_MAPPINGS n
  = if n =? 10 then None else int_dict_get JAVA_STATUS_MAPPINGS n.
Proof.
  unfold TESTIM_STATUS_MAPPINGS, JAVA_STATUS_MAPPINGS. cbn [int_dict_get].
  destruct (Z.eqb_spec n 10) as [->|Hn]; [reflexivity|].
  repeat match goal with
         | |- context [?k =? n] =>
             destruct (Z.eqb_spec k n); [subst; try reflexivity; try lia|]
         end.
  reflexivity.
Qed.

Lemma scalar_overflow (x : scalar) :
  int_float (One x) = Raise OverflowError ->
  isna x = false /\ forall d n, int_dict_lookup d (One x) = Ok (Some n) ->
                                exists k, int_float (One (SInt k)) = Raise OverflowError
                                          /\ int_dict_get d k = Some n.
Proof.
  intros H. destruct x as [| n | f | s]; cbn in H; try discriminate.
  - split; [reflexivity|]. intros d r Hd. cbn in Hd. injection Hd as Hd.
    exists n. split; [exact H|exact Hd].
  - destruct f; cbn in H; try discriminate.
    split; [reflexivity|]. intros d r Hd. cbn in Hd. discriminate.
  - split; [reflexivity|]. intros d r Hd. cbn in Hd. discriminate.
Qed.

Lemma small_code_no_overflow (k : Z) :
  Z.abs k < 2 ^ 53 -> int_float (One (SInt k)) <> Raise OverflowError.
Proof. intros Hk. rewrite (int_float_exact k Hk). discriminate. Qed.

Lemma device_key_small (k : Z) (r : string) :
  int_dict_get DEVICE_MAPPINGS k = Some r -> Z.abs k < 2 ^ 53.
Proof.
  unfold DEVICE_MAPPINGS. cbn [int_dict_get]. intros H.
  repeat match type of H with
         | context [?c =? k] => destruct (Z.eqb_spec c k); [subst; reflexivity|]
         end.
  discriminate.
Qed.

Lemma status_body_overflow (d : int_dict) (x : scalar) :
  int_float (One x) = Raise OverflowError ->
  (na <- isna_truth (One x) ;;
   if na then Ok None
   else try_except_ValueError_TypeError
          (val_int <- int_float (One x) ;; Ok (int_dict_get d val_int)) (Ok None))
  = Raise OverflowError.
Proof.
  intros H. destruct (scalar_overflow x H) as [Hna _].
  cbn [isna_truth bind]. rewrite Hna, H. reflexivity.
Qed.

(** X2. On a scalar cell each of the four mappers of a status, a device or
    a priority raises exactly when [int(float(val))] overflows, and then
    with [OverflowError], which their [except (ValueError, TypeError)]
    does not catch; otherwise the device mapper returns one of its three
    labels, the priority mapper one of its four, and a status mapper
    nothing or one of the four status labels. *)
Theorem mappers_on_scalars (x : scalar) :
  match int_float (One x) with
  | Raise OverflowError =>
      map_device_status (One x) = Raise OverflowError
      /\ map_priority (One x) = Raise OverflowError
      /\ map_automation_status_java (One x) = Raise OverflowError
      /\ map_automation_status_testim (One x) = Raise OverflowError
  | _ =>
      (exists d, map_device_status (One x) = Ok d
                 /\ In d ["Desktop"; "Mobile"; "Both"])
      /\ (exists p, map_priority (One x) = Ok p
                    /\ In p ["High"; "Highest"; "Medium"; "Unknown"])
      /\ (exists j, map_automation_status_java (One x) = Ok j
                    /\ match j with
                       | Some s => In s status_labels
                       | None => True
                       end)
      /\ (exists t, map_automation_status_testim (One x) = Ok t
                    /\ match t with
                       | Some s => In s status_labels
                       | None => True
                       end)
  end.
Proof.
  assert (Hplain : int_float (One x) <> Raise OverflowError ->
    (exists d, map_device_status (One x) = Ok d
               /\ In d ["Desktop"; "Mobile"; "Both"])
    /\ (exists p, map_priority (One x) = Ok p
                  /\ In p ["High"; "Highest"; "Medium"; "Unknown"])
    /\ (exists j, map_automation_status_java (One x) = Ok j
                  /\ match j with
                     | Some s => In s status_labels
                     | None => True
                     end)
    /\ (exists t, map_automation_status_testim (One x) = Ok t
                  /\ match t with
                     | Some s => In s status_labels
                     | None => True
                     end)).
  { intros Hp. repeat split.
    - destruct (plain_device_ok (One x) Hp) as (d & Hd).
      exists d. split; [exact Hd|exact (map_device_status_range _ _ Hd)].
    - destruct (plain_priority_ok (One x) Hp) as (p & Hq).
      exists p. split; [exact Hq|exact (map_priority_range _ _ Hq)].
    - destruct (plain_java_ok (One x) Hp) as (j & Hj).
      exists j. split; [exact Hj|].
      destruct j as [s|]; [|exact I].
      destruct (status_mapper_cases _ _ _ Hj) as [E|(n & _ & E)]; [discriminate|].
      apply (java_table n). symmetry. exact E.
    - destruct (plain_testim_ok (One x) Hp) as (t & Ht).
      exists t. split; [exact Ht|].
      destruct t as [s|]; [|exact I].
      destruct (status_mapper_cases _ _ _ Ht) as [E|(n & _ & E)]; [discriminate|].
      rewrite testim_table in E. destruct (n =? 10); [discriminate|].
      apply (java_table n). symmetry. exact E. }
  destruct (int_float (One x)) as [n|e] eqn:E.
  - apply Hplain. discriminate.
  - destruct e; try (apply Hplain; discriminate).
    destruct (scalar_overflow x E) as [Hna Hdirect].
    split; [|split; [|split]].
    + unfold map_device_status, _map_field_value.
      cbn [isna_truth bind]. rewrite Hna.
      destruct (int_dict_lookup DEVICE_MAPPINGS (One x)) as [[r|]|e] eqn:Ed.
      * destruct (Hdirect _ _ Ed) as (k & Hk & Hr).
        exfalso. apply (small_code_no_overflow k); [|exact Hk].
        exact (device_key_small k r Hr).
      * cbn [bind]. rewrite E. reflexivity.
      * destruct x; cbn in Ed; discriminate.
    + unfold map_priority. cbn [isna_truth bind]. rewrite Hna, E. reflexivity.
    + apply status_body_overflow. exact E.
    + apply status_body_overflow. exact E.
Qed.

(** X3. The Testim status mapper is the Java status mapper with code 10
    left unmapped: on every cell it fails as the Java mapper fails, and
    returns what the Java mapper returns unless the cell converts to 10,
    for which it returns nothing. *)
Theorem testim_mapper_follows_java (v : value) :
  map_automation_status_testim v
  = (r <- map_automation_status_java v ;;
     Ok (match int_float v with
         | Ok 10 => None
         | _ => r
         end)).
Proof.
  unfold map_automation_status_testim, map_automation_status_java.
  destruct (isna_truth v) as [na|e] eqn:Ena; cbn [bind]; [|reflexivity].
  destruct na.
  - cbn [bind].
    destruct (int_float v) as [n|e]; [|reflexivity].
    destruct n as [|p|p]; try reflexivity.
    repeat (destruct p as [p|p|]; try reflexivity).
  - destruct (int_float v) as [n|[]] eqn:E;
      cbn [bind try_except_ValueError_TypeError]; try reflexivity.
    rewrite testim_table.
    destruct (Z.eqb_spec n 10) as [->|Hn]; [reflexivity|].
    destruct n as [|p|p]; try reflexivity.
    repeat (destruct p as [p|p|]; try reflexivity); lia.
Qed.

Lemma float_code_exact (n : Z) :
  Z.abs n < 2 ^ 53 ->
  let f := float_of_int_rounded n in
  py_float (One (SInt n)) = Ok f
  /\ isna (SFloat f) = false
  /\ float_as_int f = Some n
  /\ int_of_float f = Ok n.
Proof.
  intros Hn f.
  pose proof (int_float_exact n Hn) as Hi.
  unfold int_float, py_float in Hi. fold f in Hi.
  unfold py_float. fold f.
  assert (Hf : float_as_int f = Some n).
  { unfold f, float_of_int_rounded, binary_normalize.
    destruct n as [|m|m].
    - reflexivity.
    - destruct (binary_round_small false m) as (mz & ez & -> & Hez & Hv);
        [simpl in Hn; lia|].
      cbn [float_as_int].
      destruct (Z.leb_spec 0 ez).
      + assert (ez = 0) by lia. subst. simpl in Hv. rewrite Hv.
        f_equal. simpl. lia.
      + rewrite Hv.
        rewrite Z.mod_mul by (apply Z.pow_nonzero; lia).
        rewrite Z.eqb_refl.
        rewrite Z.div_mul by (apply Z.pow_nonzero; lia). reflexivity.
    - destruct (binary_round_small true m) as (mz & ez & -> & Hez & Hv);
        [simpl in Hn; lia|].
      cbn [float_as_int].
      destruct (Z.leb_spec 0 ez).
      + assert (ez = 0) by lia. subst. simpl in Hv. rewrite Hv.
        f_equal. simpl. lia.
      + rewrite Hv.
        rewrite Z.mod_mul by (apply Z.pow_nonzero; lia).
        rewrite Z.eqb_refl.
        rewrite Z.div_mul by (apply Z.pow_nonzero; lia). reflexivity. }
  destruct f as [s| s | | s m e] eqn:Ef; cbn [bind] in Hi; cbn in Hf;
    try discriminate.
  - repeat split; try reflexivity; assumption.
  - repeat split; try reflexivity; assumption.
Qed.

(** X4. A code held as a float maps like the integer it equals: for every
    integer of magnitude below 2^53, the device, priority and status
    mappers return on the float [float(n)] what they return on [n] (pandas
    stores a column of codes with a missing cell as floats). *)
Theorem integral_float_maps_like_int (n : Z) :
  Z.abs n < 2 ^ 53 ->
  let f := One (SFloat (float_of_int_rounded n)) in
  map_device_status f = map_device_status (One (SInt n))
  /\ map_priority f = map_priority (One (SInt n))
  /\ map_automation_status_java f = map_automation_status_java (One (SInt n))
  /\ map_automation_status_testim f
     = map_automation_status_testim (One (SInt n)).
Proof.
  intros Hn f.
  destruct (float_code_exact n Hn) as (Hpy & Hna & Has & Hint).
  pose proof (int_float_exact n Hn) as Hi.
  assert (Hif : int_float f = Ok n).
  { unfold f, int_float. cbn [py_float bind]. exact Hint. }
  assert (Hnaf : isna_truth f = Ok false).
  { unfold f. cbn [isna_truth]. rewrite Hna. reflexivity. }
  assert (Hlook : forall d, int_dict_lookup d f = int_dict_lookup d (One (SInt n))).
  { intros d. unfold f. cbn [int_dict_lookup]. rewrite Has. reflexivity. }
  repeat split.
  - unfold map_device_status, _map_field_value.
    rewrite Hnaf, Hlook, Hif, Hi. reflexivity.
  - unfold map_priority. rewrite Hnaf, Hif, Hi. reflexivity.
  - unfold map_automation_status_java. rewrite Hnaf, Hif, Hi. reflexivity.
  - unfold map_automation_status_testim. rewrite Hnaf, Hif, Hi. reflexivity.
Qed.

Lemma integral_float_maps_like_int_witness :
  Z.abs 3 < 2 ^ 53
  /\ (let f := One (SFloat (float_of_int_rounded 3)) in
      map_device_status f = map_device_status (One (SInt 3))
      /\ map_priority f = map_priority (One (SInt 3))
      /\ map_automation_status_java f
         = map_automation_status_java (One (SInt 3))
      /\ map_automation_status_testim f
         = map_automation_status_testim (One (SInt 3))).
Proof.
  split; [reflexivity|].
  apply (integral_float_maps_like_int 3). reflexivity.
Defined.

(** ** What [process] returns *)

Lemma final_status_canonical (row : status_row) :
  In (determine_final_status row) Resolver.canonical_labels.
Proof.
  rewrite resolver_agrees.
  destruct (Resolver.resolve_final_status _ _ _); simpl; auto 10.
Qed.

Lemma apply_Forall {A : Type} (f : value -> result A) (P : A -> Prop)
  (col : list value) (l : list A) :
  (forall v r, f v = Ok r -> P r) -> apply f col = Ok l -> Forall P l.
Proof.
  intros Hf. revert l. induction col as [|v col IH]; intros l; cbn [apply].
  - intros [= <-]. constructor.
  - destruct (f v) as [a|] eqn:Ea; cbn [bind]; [|discriminate].
    destruct (apply f col) as [rest|]; cbn [bind]; [|discriminate].
    intros [= <-]. constructor; [exact (Hf v a Ea)|apply IH; reflexivity].
Qed.

Lemma constant_Forall {A : Type} (P : A -> Prop) (df : DataFrame) (v : A) :
  P v -> Forall P (constant df v).
Proof.
  intros Hv. unfold constant. apply Forall_forall. intros x Hx.
  apply in_map_iff in Hx. destruct Hx as (_ & <- & _). exact Hv.
Qed.

Lemma case_keys_In (epic status device country priority : list string)
  (k : case_key) :
  In k (case_keys epic status device country priority) ->
  let '(e, s, d, c, p) := k in
  In s status /\ In d device /\ In p priority.
Proof.
  revert status device country priority.
  induction epic as [|e0 epic IH]; intros status device country priority;
    [intros []|].
  destruct status as [|s0 status]; [intros []|].
  destruct device as [|d0 device]; [intros []|].
  destruct country as [|c0 country]; [intros []|].
  destruct priority as [|p0 priority]; [intros []|].
  cbn [case_keys]. intros [<-|Hin].
  - simpl. auto.
  - specialize (IH _ _ _ _ Hin). destruct k as [[[[e s] d] c] p].
    destruct IH as (Hs & Hd & Hp). simpl. auto.
Qed.

Lemma summarize_keys (cases : list case_key) :
  map summary_key (summarize cases) = unique_sorted cmp_case_key cases.
Proof.
  unfold summarize. rewrite map_map.
  rewrite <- (map_id cases) at 2.
  rewrite <- (groupby_keys cmp_case_key (fun k => k) cases).
  apply map_ext. intros [[[[[e s] d] c] p] g]. reflexivity.
Qed.

Lemma summarize_row (cases : list case_key) (r : SummaryRow) :
  In r (summarize cases) ->
  In (summary_key r) cases
  /\ Count r
     = Z.of_nat (List.length
                   (filter (fun k => same_key cmp_case_key k (summary_key r))
                      cases))
  /\ 1 <= Count r.
Proof.
  unfold summarize, groupby. rewrite map_map. intros Hin.
  apply in_map_iff in Hin. destruct Hin as (k & <- & Hk).
  rewrite (map_id cases) in Hk.
  apply (proj1 (unique_sorted_In cmp_case_key case_key_order k cases)) in Hk.
  destruct k as [[[[e s] d] c] p]. cbn [fst snd]. unfold summary_key.
  cbn [Epic Status Device Country Priority Count].
  split; [exact Hk|]. split; [reflexivity|].
  set (q := fun r0 : case_key => same_key cmp_case_key r0 (e, s, d, c, p)).
  assert (Hin : In (e, s, d, c, p) (filter q cases)).
  { apply filter_In. split; [exact Hk|]. unfold q.
    apply (same_key_true cmp_case_key case_key_order). reflexivity. }
  destruct (filter q cases) as [|x l]; [destruct Hin|].
  cbn [List.length]. lia.
Qed.

Lemma process_try_shape (df : DataFrame) (bu_name : string)
  (out : list SummaryRow * list report) :
  process_try df bu_name = Ok out ->
  out = ([], [JavaFieldNotFound])
  \/ exists cases,
       out = (summarize cases, [])
       /\ List.length cases = List.length (rows df)
       /\ Forall (fun k : case_key =>
                    let '(e, s, d, c, p) := k in
                    In s Resolver.canonical_labels
                    /\ In d device_labels /\ In p priority_labels) cases.
Proof.
  unfold process_try.
  destruct (find_field df "java") as [java_field|];
    [|intros [= <-]; left; reflexivity].
  destruct (apply map_automation_status_java _) as [java|] eqn:Ejava;
    [|discriminate].
  apply apply_length in Ejava. rewrite column_length in Ejava.
  cbn [bind].
  match goal with
  | |- bind ?x _ = _ -> _ => destruct x as [desktop|] eqn:Edesktop; [|discriminate]
  end.
  assert (Hd : List.length desktop = List.length (rows df)).
  { destruct (find_field df "testim_desktop").
    - apply apply_length in Edesktop. now rewrite column_length in Edesktop.
    - injection Edesktop as <-. apply constant_length. }
  cbn [bind].
  match goal with
  | |- bind ?x _ = _ -> _ => destruct x as [mobile|] eqn:Emobile; [|discriminate]
  end.
  assert (Hm : List.length mobile = List.length (rows df)).
  { destruct (find_field df "testim_mobile").
    - apply apply_length in Emobile. now rewrite column_length in Emobile.
    - injection Emobile as <-. apply constant_length. }
  cbn [bind].
  match goal with
  | |- bind ?x _ = _ -> _ => destruct x as [device|] eqn:Edevice; [|discriminate]
  end.
  assert (Hv : List.length device = List.length (rows df)
               /\ Forall (fun d => In d device_labels) device).
  { destruct (find_field df "device").
    - split.
      + apply apply_length in Edevice. now rewrite column_length in Edevice.
      + exact (apply_Forall _ _ _ _ map_device_status_range Edevice).
    - injection Edevice as <-. split; [apply constant_length|].
      apply constant_Forall. simpl. auto. }
  destruct Hv as [Hv Hvr].
  cbn [bind].
  match goal with
  | |- bind ?x _ = _ -> _ => destruct x as [country|] eqn:Ecountry; [|discriminate]
  end.
  assert (Hc : List.length country = List.length (rows df)).
  { destruct (find_field df "country").
    - apply apply_length in Ecountry. now rewrite column_length in Ecountry.
    - injection Ecountry as <-. apply constant_length. }
  cbn [bind].
  match goal with
  | |- bind ?x _ = _ -> _ => destruct x as [priority|] eqn:Epriority; [|discriminate]
  end.
  assert (Hp : List.length priority = List.length (rows df)
               /\ Forall (fun p => In p priority_labels) priority).
  { destruct (find_field df "priority").
    - split.
      + apply apply_length in Epriority. now rewrite column_length in Epriority.
      + exact (apply_Forall _ _ _ _ map_priority_range Epriority).
    - injection Epriority as <-. split; [apply constant_length|].
      apply constant_Forall. simpl. auto. }
  destruct Hp as [Hp Hpr].
  cbn [bind]. intros [= <-]. right.
  eexists. split; [reflexivity|]. split.
  - apply case_keys_length; auto.
    + destruct (find_field df "epic"); [|apply constant_length].
      now rewrite length_map, column_length.
    + rewrite length_map. now apply status_rows_length.
  - apply Forall_forall. intros k Hk. apply case_keys_In in Hk.
    destruct k as [[[[e s] d] c] p]. destruct Hk as (Hs & Hdv & Hpv).
    split; [|split].
    + apply in_map_iff in Hs. destruct Hs as (row & <- & _).
      apply final_status_canonical.
    + exact (proj1 (Forall_forall _ _) Hvr d Hdv).
    + exact (proj1 (Forall_forall _ _) Hpr p Hpv).
Qed.

Lemma process_shape (df : DataFrame) (bu_name : string) :
  (fst (process df bu_name) = [] /\ snd (process df bu_name) <> [])
  \/ exists cases,
       process df bu_name = (summarize cases, [])
       /\ List.length cases = List.length (rows df)
       /\ Forall (fun k : case_key =>
                    let '(e, s, d, c, p) := k in
                    In s Resolver.canonical_labels
                    /\ In d device_labels /\ In p priority_labels) cases.
Proof.
  unfold process. destruct (empty df); [left; split; [reflexivity|discriminate]|].
  destruct (process_try df bu_name) as [out|e] eqn:E;
    [|left; split; [reflexivity|discriminate]].
  destruct (process_try_shape _ _ _ E) as [->|H];
    [left; split; [reflexivity|discriminate]|].
  right. exact H.
Qed.

(** X5. Every row of the table [process] returns is well formed, whatever
    the raw table: its Status is one of the seven final labels, its Device
    one of Desktop, Mobile and Both, its Priority one of High, Highest,
    Medium and Unknown, and its Count is at least 1. *)
Theorem process_rows_well_formed (df : DataFrame) (bu_name : string) :
  Forall well_formed_row (fst (process df bu_name)).
Proof.
  destruct (process_shape df bu_name) as [[-> _]|(cases & -> & _ & Hc)];
    [constructor|].
  cbn [fst]. apply Forall_forall. intros r Hr.
  destruct (summarize_row cases r Hr) as (Hk & _ & Hcount).
  apply (proj1 (Forall_forall _ _) Hc) in Hk. unfold summary_key in Hk.
  destruct Hk as (Hs & Hd & Hp). repeat split; assumption.
Qed.

(** X6. The table [process] returns has one row per combination of Epic,
    Status, Device, Country and Priority: its rows come in strictly
    increasing order of that key, so no two rows share it. *)
Theorem process_rows_sorted_by_key (df : DataFrame) (bu_name : string) :
  StronglySorted (fun a b => cmp_case_key a b = Lt)
    (map summary_key (fst (process df bu_name)))
  /\ NoDup (map summary_key (fst (process df bu_name))).
Proof.
  destruct (process_shape df bu_name) as [[-> _]|(cases & -> & _ & _)].
  - split; constructor.
  - cbn [fst]. rewrite summarize_keys. split.
    + apply (unique_sorted_sorted cmp_case_key case_key_order).
    + apply (unique_sorted_NoDup cmp_case_key case_key_order).
Qed.

Lemma well_formed_summary_table (T : list SummaryRow) :
  Forall well_formed_row T -> Resolver.summary_table T.
Proof.
  unfold Resolver.summary_table. apply Forall_impl.
  intros r (Hs & _ & _ & Hc). split; [exact Hs|lia].
Qed.

(** ** Sums over the metrics *)

Lemma filter_keeps_all {A : Type} (p : A -> bool) (l : list A) :
  (forall x, In x l -> p x = true) -> filter p l = l.
Proof.
  induction l as [|h t IH]; intros H; [reflexivity|].
  cbn [filter]. rewrite (H h (or_introl eq_refl)). f_equal.
  apply IH. intros x Hx. apply H. right. exact Hx.
Qed.

Lemma filter_comm {A : Type} (p q : A -> bool) (l : list A) :
  filter p (filter q l) = filter q (filter p l).
Proof.
  rewrite !filter_filter. apply filter_ext. intros x. apply andb_comm.
Qed.

Lemma epic_status_column (q : string -> bool) (T : list SummaryRow) :
  es_sum (filter (fun r => q (es_Status r)) (epic_status_summary T))
  = sum_count (filter (fun x => q (Status x)) T).
Proof.
  unfold epic_status_summary.
  rewrite filter_map_comm. change es_sum with (sum_of es_Count).
  rewrite total_map. cbn [es_Epic es_Status es_Count].
  change sum_count with (sum_of Count).
  exact (total_groupby _ epic_status_order (fun r => (Epic r, Status r)) Count
           (fun k => q (snd k)) T).
Qed.

Lemma pivot_column (q : string -> bool) (T : list SummaryRow) :
  sum_of (fun g : string * list EpicStatusRow =>
            es_sum (filter (fun r => q (es_Status r)) (snd g)))
    (groupby String.compare es_Epic (epic_status_summary T))
  = sum_count (filter (fun x => q (Status x)) T).
Proof.
  rewrite <- epic_status_column.
  set (ess := epic_status_summary T).
  set (l := filter (fun r => q (es_Status r)) ess).
  set (ks := unique_sorted String.compare (map es_Epic ess)).
  pose proof (total_over_keys String.compare string_order es_Epic es_Count
                (fun _ => true) ks l
                (unique_sorted_NoDup String.compare string_order _)) as H.
  rewrite filter_all, total_map in H. cbn [snd] in H.
  change es_sum with (sum_of es_Count).
  unfold groupby. rewrite total_map. cbn [snd]. fold ess. fold ks.
  transitivity
    (sum_of
       (fun x : string =>
          sum_of es_Count
            (filter (fun r => same_key String.compare (es_Epic r) x) l)) ks).
  - apply sum_of_ext. intros k. f_equal. unfold l. apply filter_comm.
  - rewrite H. f_equal. apply filter_keeps_all.
    intros x Hx. cbn [andb].
    apply existsb_exists. exists (es_Epic x). split.
    + unfold ks. apply (unique_sorted_In String.compare string_order).
      apply in_map. unfold l in Hx. apply filter_In in Hx. exact (proj1 Hx).
    + apply (same_key_true String.compare string_order). reflexivity.
Qed.

Lemma pivot_sum (f : PivotRow -> Z) (T : list SummaryRow) :
  sum_of f (calculate_epic_metrics T) = sum_of f (epic_pivot T).
Proof.
  unfold calculate_epic_metrics. apply total_perm. apply sort_values_desc_perm.
Qed.


Lemma sum_count_cons (r : SummaryRow) (T : list SummaryRow) :
  sum_count (r :: T) = Count r + sum_count T.
Proof. reflexivity. Qed.

Lemma sum_count_filter_le (p : SummaryRow -> bool) (T : list SummaryRow) :
  Resolver.summary_table T -> 0 <= sum_count (filter p T) <= sum_count T.
Proof.
  induction 1 as [|r T [_ Hr] _ IH]; [simpl; lia|].
  rewrite sum_count_filter_cons, sum_count_cons. destruct (p r); lia.
Qed.

Lemma to_be_or_not (T : list SummaryRow) :
  sum_count
    (filter (fun r => (Status r =? "To Be Automated")%string
                      || (Status r =? "Not Automated")%string) T)
  = sum_count (with_status "To Be Automated" T)
    + sum_count (with_status "Not Automated" T).
Proof.
  change sum_count with (sum_of Count). unfold with_status.
  apply (total_filter_disjoint Count
           (fun r => (Status r =? "To Be Automated")%string)
           (fun r => (Status r =? "Not Automated")%string)).
  intros x _. destruct (String.eqb_spec (Status x) "To Be Automated") as [->|];
    reflexivity.
Qed.

Lemma percent_if_positive_cases (a b : Z) :
  0 <= b ->
  (b = 0 -> percent_if_positive a b = Int 0)
  /\ (b <> 0 -> percent_if_positive a b = Float (percent a b)).
Proof.
  intros Hb. unfold percent_if_positive. destruct (Z.ltb_spec 0 b); split;
    intros; try reflexivity; lia.
Qed.

(** On mathematical integers: how the Testim metrics of a summary table
    relate to one another and to the overall metrics. *)
Lemma testim_relations (T : list SummaryRow) :
  Resolver.summary_table T ->
  let m := calculate_testim_metrics T in
  let o := calculate_overall_metrics T in
  tm_total_testim m = desktop m + mobile m + both m
  /\ tm_total_testim m = total_testim o
  /\ testim_total m
     = tm_total_testim m + tm_to_be_automated m + tm_not_automated m
  /\ testim_total m = effective_total o - automated_java o
  /\ 0 <= tm_total_testim m <= testim_total m
  /\ (testim_total m = 0 -> testim_coverage m = Int 0)
  /\ (testim_total m <> 0 ->
      testim_coverage m
      = Float (percent (tm_total_testim m) (testim_total m)))
  /\ (tm_total_testim m = 0 ->
      desktop_pct m = Int 0 /\ mobile_pct m = Int 0 /\ both_pct m = Int 0)
  /\ (tm_total_testim m <> 0 ->
      desktop_pct m = Float (percent (desktop m) (tm_total_testim m))
      /\ mobile_pct m = Float (percent (mobile m) (tm_total_testim m))
      /\ both_pct m = Float (percent (both m) (tm_total_testim m))).
Proof.
  intros HT m o.
  pose proof (overall_partition T HT) as Hpart.
  pose proof (with_status_nonneg "Automated - Testim Desktop" T HT) as H1.
  pose proof (with_status_nonneg "Automated - Testim Mobile" T HT) as H2.
  pose proof (with_status_nonneg "Automated - Testim Both" T HT) as H3.
  pose proof (with_status_nonneg "To Be Automated" T HT) as H4.
  pose proof (with_status_nonneg "Not Automated" T HT) as H5.
  pose proof (to_be_or_not T) as Hu.
  unfold m, o.
  cbn [calculate_testim_metrics calculate_overall_metrics tm_total_testim
       desktop mobile both total_testim testim_total tm_to_be_automated
       tm_not_automated effective_total automated_java testim_coverage
       desktop_pct mobile_pct both_pct].
  rewrite Hu.
  set (d := sum_count (with_status "Automated - Testim Desktop" T)) in *.
  set (mo := sum_count (with_status "Automated - Testim Mobile" T)) in *.
  set (b := sum_count (with_status "Automated - Testim Both" T)) in *.
  set (tb := sum_count (with_status "To Be Automated" T)) in *.
  set (na := sum_count (with_status "Not Automated" T)) in *.
  assert (Hbase : 0 <= d + mo + b + (tb + na)) by lia.
  assert (Htt : 0 <= d + mo + b) by lia.
  destruct (percent_if_positive_cases (d + mo + b) (d + mo + b + (tb + na)) Hbase)
    as [Hc0 Hc1].
  destruct (percent_if_positive_cases d (d + mo + b) Htt) as [Hd0 Hd1].
  destruct (percent_if_positive_cases mo (d + mo + b) Htt) as [Hm0 Hm1].
  destruct (percent_if_positive_cases b (d + mo + b) Htt) as [Hb0 Hb1].
  repeat split; auto; lia.
Qed.

(** ** Device metrics *)

Lemma device_split (p : SummaryRow -> bool) (T : list SummaryRow) :
  Forall (fun r => In (Device r) device_labels) T ->
  sum_count (filter p T)
  = sum_count (filter p (filter (fun r => (Device r =? "Desktop")%string) T))
    + sum_count (filter p (filter (fun r => (Device r =? "Mobile")%string) T))
    + sum_count (filter p (filter (fun r => (Device r =? "Both")%string) T)).
Proof.
  induction 1 as [|r T Hr _ IH]; [reflexivity|].
  rewrite sum_count_filter_cons, IH. cbn [filter].
  destruct Hr as [Hd|[Hd|[Hd|[]]]]; rewrite <- Hd; cbn [String.eqb Ascii.eqb Bool.eqb];
    rewrite ?sum_count_filter_cons; destruct (p r); lia.
Qed.

Lemma device_entry (T : list SummaryRow) (device : string) :
  Resolver.summary_table T ->
  let device_data := filter (fun r => (Device r =? device)%string) T in
  let a := sum_count (filter (fun r => contains_automated (Status r)) device_data) in
  let t := sum_count device_data in
  0 <= a <= t
  /\ (t = 0 -> percent_if_positive a t = Int 0)
  /\ (t <> 0 -> percent_if_positive a t = Float (percent a t)).
Proof.
  intros HT device_data a t.
  assert (Hd : Resolver.summary_table device_data)
    by (apply summary_table_filter; exact HT).
  assert (Ha : 0 <= a <= t) by (apply sum_count_filter_le; exact Hd).
  split; [exact Ha|]. apply percent_if_positive_cases. lia.
Qed.

(** On mathematical integers: the device metrics of a summary table whose
    devices are Desktop, Mobile and Both split the overall metrics. *)
Lemma device_relations (T : list SummaryRow) :
  Resolver.summary_table T ->
  Forall (fun r => In (Device r) device_labels) T ->
  let dm := calculate_device_metrics T in
  let o := calculate_overall_metrics T in
  map fst dm = device_labels
  /\ sum_of (fun d => dm_total (snd d)) dm = total o
  /\ sum_of (fun d => dm_automated (snd d)) dm = total_automated o
  /\ Forall (fun d =>
               0 <= dm_automated (snd d) <= dm_total (snd d)
               /\ (dm_total (snd d) = 0 -> dm_coverage (snd d) = Int 0)
               /\ (dm_total (snd d) <> 0 ->
                   dm_coverage (snd d)
                   = Float (percent (dm_automated (snd d)) (dm_total (snd d)))))
       dm.
Proof.
  intros HT HD dm o. unfold dm, o, calculate_device_metrics.
  cbn [map fst snd sum_of fold_right dm_total dm_automated dm_coverage
       calculate_overall_metrics total total_automated].
  split; [reflexivity|]. split; [|split].
  - pose proof (device_split (fun _ => true) T HD) as H.
    rewrite !filter_all in H. lia.
  - pose proof (device_split (fun r => contains_automated (Status r)) T HD) as H.
    rewrite <- (automated_split T HT).
    assert (Ha : sum_count
                   (filter (fun x => Resolver.is_automated (Status x)) T)
                 = sum_count
                     (filter (fun r => contains_automated (Status r)) T)).
    { change sum_count with (sum_of Count). apply total_filter_ext.
      intros x Hx. symmetry. apply contains_is_automated.
      exact (proj1 (proj1 (Forall_forall _ _) HT x Hx)). }
    lia.
  - repeat (apply Forall_cons;
            [cbn [snd dm_total dm_automated dm_coverage];
             apply device_entry; exact HT|]).
    apply Forall_nil.
Qed.

(** ** From the raw cases to the metrics *)

Lemma epic_pivot_total (T : list SummaryRow) :
  sum_of TOTAL (calculate_epic_metrics T) = sum_count T.
Proof.
  rewrite pivot_sum. unfold epic_pivot. rewrite total_map.
  cbn [TOTAL aggregate_epic_status ec_TOTAL].
  rewrite <- (filter_all T) at 2.
  rewrite <- (pivot_column (fun _ => true)).
  apply sum_of_ext. intros g. now rewrite filter_all.
Qed.

(** X10. No case is lost between the raw table and the metrics: when
    [process] reports nothing, the overall total computed from its table is
    the number of raw cases, so is the sum of the automated,
    to-be-automated, not-automated and not-applicable counts, so is the sum
    of the totals of the three devices, and so is the sum of the TOTAL
    column of the epic pivot. *)
Theorem process_conserves_cases (df : DataFrame) (bu_name : string) :
  snd (process df bu_name) = [] ->
  let T := fst (process df bu_name) in
  let o := calculate_overall_metrics T in
  let n := Z.of_nat (List.length (rows df)) in
  total o = n
  /\ total_automated o + to_be_automated o + not_automated o + not_applicable o
     = n
  /\ sum_of (fun d => dm_total (snd d)) (calculate_device_metrics T) = n
  /\ sum_of TOTAL (calculate_epic_metrics T) = n.
Proof.
  intros Hrep T o n.
  destruct (process_shape df bu_name) as [[_ Hn]|(cases & E & Hlen & Hc)];
    [contradiction|].
  assert (Hwf : Forall well_formed_row T).
  { unfold T. rewrite E. cbn [fst]. apply Forall_forall. intros r Hr.
    destruct (summarize_row cases r Hr) as (Hk & _ & Hcount).
    apply (proj1 (Forall_forall _ _) Hc) in Hk. unfold summary_key in Hk.
    destruct Hk as (Hs & Hd & Hp). repeat split; assumption. }
  assert (HT : Resolver.summary_table T)
    by (apply well_formed_summary_table; exact Hwf).
  assert (HD : Forall (fun r => In (Device r) device_labels) T).
  { revert Hwf. apply Forall_impl. intros r (_ & Hd & _). exact Hd. }
  assert (Hsum : sum_count T = n).
  { unfold T, n. rewrite E. cbn [fst]. rewrite summarize_sum. now rewrite Hlen. }
  pose proof (overall_partition T HT) as Hpart.
  pose proof (device_split (fun _ => true) T HD) as Hdev.
  rewrite !filter_all in Hdev.
  unfold o, calculate_device_metrics.
  cbn [calculate_overall_metrics total total_automated to_be_automated
       not_automated not_applicable map snd dm_total sum_of fold_right].
  rewrite epic_pivot_total.
  repeat split; lia.
Qed.

Lemma process_conserves_cases_witness :
  snd (process Samples.unmapped_case "Marionnaud") = []
  /\ (let T := fst (process Samples.unmapped_case "Marionnaud") in
      let o := calculate_overall_metrics T in
      let n := Z.of_nat (List.length (rows Samples.unmapped_case)) in
      total o = n
      /\ total_automated o + to_be_automated o + not_automated o
         + not_applicable o = n
      /\ sum_of (fun d => dm_total (snd d)) (calculate_device_metrics T) = n
      /\ sum_of TOTAL (calculate_epic_metrics T) = n).
Proof.
  split; [reflexivity|].
  apply (process_conserves_cases Samples.unmapped_case "Marionnaud").
  reflexivity.
Defined.

(** ** Epic search with a plain term *)


Lemma match_here_prefix (t s : string) :
  match_here (map ReChar (list_ascii_of_string t)) s
  = prefix (lower t) (lower s).
Proof.
  revert s. induction t as [|a t IH]; intros s.
  - destruct s; reflexivity.
  - destruct s as [|c s]; [reflexivity|].
    cbn [list_ascii_of_string map match_here lower prefix item_matches].
    destruct (ascii_dec (lower_char a) (lower_char c)) as [e|ne].
    + rewrite e, Ascii.eqb_refl. cbn [andb]. apply IH.
    + apply Ascii.eqb_neq in ne. rewrite ne. reflexivity.
Qed.

Lemma re_search_str_in (t s : string) :
  re_search (map ReChar (list_ascii_of_string t)) s
  = str_in (lower t) (lower s).
Proof.
  induction s as [|c s IH].
  - cbn [re_search lower str_in]. rewrite match_here_prefix. reflexivity.
  - cbn [re_search lower str_in]. rewrite match_here_prefix.
    cbn [lower]. rewrite IH. reflexivity.
Qed.

Lemma repeat_is_special (c : ascii) : is_repeat c = true -> is_special c = true.
Proof.
  unfold is_repeat, is_special. cbn [list_ascii_of_string existsb].
  destruct (Ascii.eqb c "*"), (Ascii.eqb c "+"), (Ascii.eqb c "?");
    cbn [orb]; rewrite ?orb_true_r; auto; discriminate.
Qed.

Lemma re_items_plain (t : string) :
  plain_term t = true -> re_items t = Some (map ReChar (list_ascii_of_string t)).
Proof.
  unfold plain_term. induction t as [|c t IH]; [reflexivity|].
  cbn [list_ascii_of_string forallb map re_items].
  intros H. apply andb_prop in H. destruct H as [Hc Ht].
  apply negb_true_iff in Hc.
  destruct (Ascii.eqb_spec c ".") as [->|_]; [discriminate Hc|].
  rewrite Hc, (IH Ht). reflexivity.
Qed.

(** X11. For a search term without any character that is an operator of
    regular expressions, [filter_epic_by_search] is the case-insensitive
    substring filter on the epic names: it keeps, in their order, the rows
    whose lowered name contains the lowered term. *)
Theorem filter_epic_by_search_plain (pivot : list PivotRow) (term : string) :
  plain_term term = true ->
  filter_epic_by_search pivot term
  = Some (filter (fun r => str_in (lower term) (lower (index r))) pivot).
Proof.
  intros Hp. unfold filter_epic_by_search.
  destruct term as [|c t].
  - cbn [String.eqb]. f_equal. symmetry. apply filter_keeps_all.
    intros r _. cbn [lower]. destruct (lower (index r)); reflexivity.
  - cbn [String.eqb]. unfold re_compile.
    assert (Hc : is_special c = false).
    { unfold plain_term in Hp. cbn [list_ascii_of_string forallb] in Hp.
      apply andb_prop in Hp. apply negb_true_iff. exact (proj1 Hp). }
    destruct (is_repeat c) eqn:Er.
    + apply repeat_is_special in Er. congruence.
    + rewrite (re_items_plain _ Hp). f_equal.
      apply filter_ext. intros r. apply re_search_str_in.
Qed.

Lemma filter_epic_by_search_plain_witness :
  plain_term "epic" = true
  /\ filter_epic_by_search Samples.sample_pivot "epic"
     = Some (filter (fun r => str_in (lower "epic") (lower (index r)))
               Samples.sample_pivot).
Proof.
  split; [reflexivity|].
  apply (filter_epic_by_search_plain Samples.sample_pivot "epic").
  reflexivity.
Defined.

(** ** Business units *)

Lemma named_lookup_In {A : Type} (d : list (string * A)) (k : string) :
  match named_lookup d k with
  | Some v => In (k, v) d
  | None => ~ In k (map fst d)
  end.
Proof.
  induction d as [|[k' v] d IH]; cbn [named_lookup]; [intros []|].
  destruct (String.eqb_spec k' k) as [->|Hne].
  - left. reflexivity.
  - destruct (named_lookup d k).
    + right. exact IH.
    + cbn [map fst]. intros [E|Hin]; [exact (Hne E)|exact (IH Hin)].
Qed.

(** X12. [get_bu_config] succeeds exactly on the names [get_bu_names]
    lists, which are distinct: for such a name it returns the
    configuration that carries this name, with the project and the suite
    [_BU_DATA] gives for it; for any other name it raises [ValueError]. *)
Theorem get_bu_config_known (bu_name : string) :
  NoDup get_bu_names
  /\ match get_bu_config bu_name with
     | Ok config =>
         In bu_name get_bu_names
         /\ name config = bu_name
         /\ In (bu_name, (project_id config, suite_id config)) _BU_DATA
     | Raise e => e = ValueError /\ ~ In bu_name get_bu_names
     end.
Proof.
  split.
  - unfold get_bu_names, BU_CONFIG, _BU_DATA. cbn [map fst].
    repeat (constructor; [cbn [In]; intros H; repeat destruct H as [H|H];
                          try discriminate H; exact H|]).
    constructor.
  - unfold get_bu_config, get_bu_names.
    pose proof (named_lookup_In BU_CONFIG bu_name) as H.
    destruct (named_lookup BU_CONFIG bu_name) as [config|].
    + split; [apply (in_map fst) in H; exact H|].
      unfold BU_CONFIG in H. apply in_map_iff in H.
      destruct H as ([n [pid sid]] & E & Hin).
      injection E as -> <-. cbn [name project_id suite_id].
      split; [reflexivity|exact Hin].
    + split; [reflexivity|exact H].
Qed.

(** ** Splitting and joining *)


Lemma append_empty_r (s : string) : s ++ "" = s.
Proof. induction s as [|c s IH]; [reflexivity|]. cbn. now rewrite IH. Qed.

Lemma append_snoc (piece : string) (c : ascii) (s : string) :
  (piece ++ String c "") ++ s = piece ++ String c s.
Proof. induction piece as [|a p IH]; [reflexivity|]. cbn. now rewrite IH. Qed.

Lemma str_in_cons_false (sep : string) (c : ascii) (s : string) :
  str_in sep (String c s) = false ->
  prefix sep (String c s) = false /\ str_in sep s = false.
Proof.
  cbn [str_in]. destruct (prefix sep (String c s)); [discriminate|].
  intros H. split; [reflexivity|exact H].
Qed.

Lemma split_from_no_sep (sep piece s : string) :
  str_in sep s = false -> split_from sep 0 piece s = [piece ++ s].
Proof.
  revert piece. induction s as [|c s IH]; intros piece H.
  - cbn [split_from]. now rewrite append_empty_r.
  - destruct (str_in_cons_false _ _ _ H) as [Hp Hs].
    cbn [split_from]. rewrite Hp, (IH _ Hs), append_snoc. reflexivity.
Qed.

Lemma split_no_sep (s sep : string) :
  str_in sep s = false -> split s sep = [s].
Proof. intros H. unfold split. now rewrite split_from_no_sep. Qed.

(** The test [', ' in s] before a split changes nothing. *)
Lemma split_or_whole (s : string) :
  (if str_in ", " s then split s ", " else [s]) = split s ", ".
Proof.
  destruct (str_in ", " s) eqn:E; [reflexivity|].
  symmetry. apply split_no_sep. exact E.
Qed.

Lemma comma_prefix_app (c : ascii) (l t : string) :
  prefix ", " (String c l) = false ->
  prefix ", " (String c (l ++ ", " ++ t)) = false.
Proof.
  cbn [prefix]. destruct (ascii_dec "," c) as [_|_]; [|reflexivity].
  destruct l as [|d l].
  - intros _. cbn [append prefix].
    destruct (ascii_dec " " ","); [discriminate|reflexivity].
  - cbn [append prefix]. destruct (ascii_dec " " d); [|reflexivity].
    destruct l; intros H; discriminate H.
Qed.

Lemma split_from_label (piece l t : string) :
  str_in ", " l = false ->
  split_from ", " 0 piece (l ++ ", " ++ t)
  = (piece ++ l) :: split_from ", " 0 "" t.
Proof.
  revert piece. induction l as [|c l IH]; intros piece H.
  - cbn [append split_from String.length Nat.sub].
    assert (Hp : prefix ", " (String "," (String " " t)) = true).
    { cbn [prefix].
      destruct (ascii_dec "," ","); [|congruence].
      destruct (ascii_dec " " " "); [|congruence].
      destruct t; reflexivity. }
    rewrite Hp, append_empty_r. reflexivity.
  - destruct (str_in_cons_false _ _ _ H) as [Hp Hs].
    cbn [append split_from].
    change (String c (l ++ String "," (String " " t)))
      with (String c (l ++ ", " ++ t)).
    rewrite (comma_prefix_app c l t Hp), (IH _ Hs), append_snoc. reflexivity.
Qed.

Lemma split_join (labels : list string) :
  labels <> [] ->
  Forall (fun l => str_in ", " l = false) labels ->
  split (join ", " labels) ", " = labels.
Proof.
  intros Hne H. induction H as [|p rest Hp Hrest IH]; [contradiction|].
  destruct rest as [|q rest].
  - cbn [join]. apply split_no_sep. exact Hp.
  - change (join ", " (p :: q :: rest)) with (p ++ ", " ++ join ", " (q :: rest)).
    unfold split. rewrite (split_from_label "" p _ Hp). cbn [append]. f_equal.
    apply IH. discriminate.
Qed.

Lemma str_dict_get_In (d : str_dict) (k c : string) :
  str_dict_get d k = Some c -> In c (map snd d).
Proof.
  induction d as [|[k' v] d IH]; cbn [str_dict_get]; [discriminate|].
  destruct (k' =? k)%string.
  - intros [= <-]. left. reflexivity.
  - intros H. right. exact (IH H).
Qed.

Lemma country_codes_no_sep (bu_name k c : string) :
  str_dict_get (named_get COUNTRY_MAPPINGS bu_name []) k = Some c ->
  str_in ", " c = false.
Proof.
  intros H. apply str_dict_get_In in H. revert c H. apply Forall_forall.
  unfold COUNTRY_MAPPINGS. cbn [named_get].
  destruct ("Marionnaud" =? bu_name)%string;
    [|destruct ("Drogas" =? bu_name)%string];
    cbn [map snd]; repeat constructor.
Qed.

Lemma id_label_no_sep (s : string) :
  str_in ", " s = false -> str_in ", " ("ID_" ++ s) = false.
Proof.
  intros H. cbn [append str_in prefix].
  repeat match goal with
         | |- context [ascii_dec ?a ?b] =>
             destruct (ascii_dec a b); [discriminate|]
         end.
  exact H.
Qed.

(** X13. What [map_country_id] joins, the dashboard splits again: for a
    non-empty collection of country ids whose texts hold no [', '], the
    mapped cell is the [', ']-join of one label per element, the code of
    the element when its stripped text is a key of the table and
    ['ID_'] followed by its text otherwise, and splitting the cell at
    [', '] gives back exactly these labels, in order. *)
Theorem country_labels_round_trip (xs : list scalar) (bu_name : string) :
  xs <> [] ->
  Forall (fun v => str_in ", " (str_scalar v) = false) xs ->
  exists labels,
    map_country_id (Many xs) bu_name = Ok (join ", " labels)
    /\ split (join ", " labels) ", " = labels
    /\ Forall2
         (fun v label =>
            match str_dict_get (named_get COUNTRY_MAPPINGS bu_name [])
                    (strip (str_scalar v)) with
            | Some c => label = c
            | None => label = "ID_" ++ str_scalar v
            end)
         xs labels.
Proof.
  intros Hne Hxs.
  set (label_of := fun v =>
         or_default
           (str_dict_get (named_get COUNTRY_MAPPINGS bu_name [])
              (strip (str_scalar v)))
           ("ID_" ++ str_scalar v)).
  exists (map label_of xs). split; [|split].
  - rewrite map_country_id_collection. destruct xs; [contradiction|reflexivity].
  - apply split_join.
    + destruct xs; [contradiction|discriminate].
    + apply Forall_forall. intros l Hl. apply in_map_iff in Hl.
      destruct Hl as (v & <- & Hv).
      pose proof (proj1 (Forall_forall _ _) Hxs v Hv) as Hs. cbn beta in Hs.
      unfold label_of.
      destruct (str_dict_get _ (strip (str_scalar v))) as [c|] eqn:Ec.
      * cbn [or_default]. exact (country_codes_no_sep _ _ _ Ec).
      * cbn [or_default]. apply id_label_no_sep. exact Hs.
  - clear Hne Hxs. induction xs as [|v xs IH]; [constructor|].
    cbn [map]. constructor; [|exact IH].
    unfold label_of. destruct (str_dict_get _ _); reflexivity.
Qed.

Lemma country_labels_round_trip_witness :
  ([SInt 3; SStr "9"; SStr "77"] <> []
   /\ Forall (fun v => str_in ", " (str_scalar v) = false)
        [SInt 3; SStr "9"; SStr "77"])
  /\ exists labels,
       map_country_id (Many [SInt 3; SStr "9"; SStr "77"]) "Marionnaud"
       = Ok (join ", " labels)
       /\ split (join ", " labels) ", " = labels
       /\ Forall2
            (fun v label =>
               match str_dict_get (named_get COUNTRY_MAPPINGS "Marionnaud" [])
                       (strip (str_scalar v)) with
               | Some c => label = c
               | None => label = "ID_" ++ str_scalar v
               end)
            [SInt 3; SStr "9"; SStr "77"] labels.
Proof.
  assert (Hne : [SInt 3; SStr "9"; SStr "77"] <> []) by discriminate.
  assert (Hxs : Forall (fun v => str_in ", " (str_scalar v) = false)
                  [SInt 3; SStr "9"; SStr "77"])
    by (repeat constructor).
  split; [split; [exact Hne|exact Hxs]|].
  exact (country_labels_round_trip [SInt 3; SStr "9"; SStr "77"] "Marionnaud"
           Hne Hxs).
Defined.

(** ** The filter options *)

Lemma filter_values_of_In (exclude_prefix : option string) (x : scalar)
  (v : string) :
  In v (filter_values_of exclude_prefix x)
  <-> is_text x "Unknown" = false
      /\ In v (split (str_scalar x) ", ")
      /\ not_excluded exclude_prefix v = true.
Proof.
  unfold filter_values_of. destruct (is_text x "Unknown").
  - split; [intros []|intros [H _]; discriminate H].
  - destruct (str_in ", " (str_scalar x)) eqn:E.
    + rewrite filter_In. tauto.
    + rewrite (split_no_sep _ _ E).
      destruct (not_excluded exclude_prefix (str_scalar x)) eqn:En.
      * cbn [In]. split.
        -- intros [<-|[]]. repeat split; auto.
        -- intros (_ & [<-|[]] & _). left. reflexivity.
      * cbn [In]. split; [intros []|].
        intros (_ & [<-|[]] & Hv). congruence.
Qed.

Lemma get_unique_filter_values_In (df : list SummaryRow) (column : string)
  (exclude_prefix : option string) (v : string) :
  In v (get_unique_filter_values df column exclude_prefix)
  <-> exists cell r,
        summary_column column = Some cell
        /\ In r df
        /\ is_text (cell r) "Unknown" = false
        /\ In v (split (str_scalar (cell r)) ", ")
        /\ not_excluded exclude_prefix v = true.
Proof.
  unfold get_unique_filter_values.
  destruct (summary_column column) as [cell|].
  - rewrite (unique_sorted_In String.compare string_order).
    rewrite in_flat_map. split.
    + intros (r & Hr & Hv). apply filter_values_of_In in Hv.
      exists cell, r. tauto.
    + intros (cell' & r & [= <-] & Hr & Hv).
      exists r. split; [exact Hr|]. apply filter_values_of_In. exact Hv.
  - split; [intros []|]. intros (cell & r & E & _). discriminate E.
Qed.

(** X14. [get_unique_filter_values] returns, in strictly increasing order
    and so without repetition, exactly the values that some cell of the
    column other than ['Unknown'] yields when split at [', '] and that the
    prefix does not exclude; with a non-empty prefix, no value it returns
    starts with that prefix; for a column the summary does not have it
    returns nothing. *)
Theorem get_unique_filter_values_spec (df : list SummaryRow)
  (column : string) (exclude_prefix : option string) :
  let values := get_unique_filter_values df column exclude_prefix in
  StronglySorted (fun a b => String.compare a b = Lt) values
  /\ NoDup values
  /\ (forall v,
        In v values
        <-> exists cell r,
              summary_column column = Some cell
              /\ In r df
              /\ is_text (cell r) "Unknown" = false
              /\ In v (split (str_scalar (cell r)) ", ")
              /\ not_excluded exclude_prefix v = true)
  /\ match exclude_prefix with
     | Some (String c p) =>
         Forall (fun v => startswith v (String c p) = false) values
     | _ => True
     end
  /\ match summary_column column with
     | None => values = []
     | Some _ => True
     end.
Proof.
  intros values.
  assert (Hin := get_unique_filter_values_In df column exclude_prefix).
  fold values in Hin.
  split; [|split; [|split; [exact Hin|split]]].
  - unfold values, get_unique_filter_values.
    destruct (summary_column column); [|constructor].
    apply (unique_sorted_sorted String.compare string_order).
  - unfold values, get_unique_filter_values.
    destruct (summary_column column); [|constructor].
    apply (unique_sorted_NoDup String.compare string_order).
  - destruct exclude_prefix as [[|c p]|]; try exact I.
    apply Forall_forall. intros v Hv. apply Hin in Hv.
    destruct Hv as (_ & _ & _ & _ & _ & _ & Hn).
    cbn [not_excluded] in Hn. apply negb_true_iff. exact Hn.
  - unfold values, get_unique_filter_values.
    destruct (summary_column column); [exact I|reflexivity].
Qed.

(** ** Applying the filters *)

Lemma country_matches_split (s : string) (filter_list : list string) :
  country_matches_filter s filter_list
  = negb (s =? "Unknown")%string
    && existsb (fun c => isin c filter_list) (split s ", ").
Proof.
  unfold country_matches_filter. destruct (s =? "Unknown")%string; [reflexivity|].
  cbn [negb andb]. destruct (str_in ", " s) eqn:E; [reflexivity|].
  rewrite (split_no_sep _ _ E). cbn [existsb]. now rewrite orb_false_r.
Qed.

Lemma filter_idem {A : Type} (p : A -> bool) (l : list A) :
  filter p (filter p l) = filter p l.
Proof.
  apply filter_keeps_all. intros x Hx. apply filter_In in Hx. exact (proj2 Hx).
Qed.

Lemma apply_filters_filter (df : list SummaryRow)
  (device_filter country_filter priority_filter : list string) :
  apply_filters df device_filter country_filter priority_filter
  = filter (row_passes device_filter country_filter priority_filter) df.
Proof.
  unfold apply_filters, row_passes.
  destruct country_filter as [|c0 cs], priority_filter as [|p0 ps];
    rewrite ?filter_filter; apply filter_ext; intros r;
    rewrite ?country_matches_split, ?andb_true_r, ?andb_assoc; reflexivity.
Qed.

(** ** The filters after a reset *)

Lemma isin_In (x : string) (l : list string) : isin x l = true <-> In x l.
Proof.
  unfold isin. rewrite existsb_exists. split.
  - intros (y & Hy & E). apply String.eqb_eq in E. subst. exact Hy.
  - intros H. exists x. split; [exact H|apply String.eqb_refl].
Qed.

Lemma country_options_In (df : list SummaryRow) (v : string) :
  In v (reset_country_filter df)
  <-> exists r,
        In r df /\ Country r <> "Unknown"
        /\ In v (split (Country r) ", ") /\ startswith v "ID_" = false.
Proof.
  unfold reset_country_filter. rewrite get_unique_filter_values_In.
  cbn [summary_column String.eqb Ascii.eqb Bool.eqb].
  split.
  - intros (cell & r & [= <-] & Hr & Hu & Hv & Hn).
    exists r. cbn [is_text str_scalar] in *.
    apply String.eqb_neq in Hu. cbn [not_excluded] in Hn.
    apply negb_true_iff in Hn. auto.
  - intros (r & Hr & Hu & Hv & Hn).
    exists (fun r => SStr (Country r)), r. cbn [is_text str_scalar].
    apply String.eqb_neq in Hu. cbn [not_excluded]. rewrite Hn. auto.
Qed.

Lemma priority_options_In (df : list SummaryRow) (v : string) :
  In v (reset_priority_filter df)
  <-> exists r,
        In r df /\ Priority r <> "Unknown" /\ In v (split (Priority r) ", ").
Proof.
  unfold reset_priority_filter. rewrite get_unique_filter_values_In.
  cbn [summary_column String.eqb Ascii.eqb Bool.eqb].
  split.
  - intros (cell & r & [= <-] & Hr & Hu & Hv & _).
    exists r. cbn [is_text str_scalar] in *.
    apply String.eqb_neq in Hu. auto.
  - intros (r & Hr & Hu & Hv).
    exists (fun r => SStr (Priority r)), r. cbn [is_text str_scalar].
    apply String.eqb_neq in Hu. cbn [not_excluded]. auto.
Qed.

Lemma priority_label_split (p : string) :
  In p priority_labels -> split p ", " = [p].
Proof.
  intros [<-|[<-|[<-|[<-|[]]]]]; reflexivity.
Qed.

(** X16. What a reset of the filters shows.  On a table of well-formed
    rows, with the device filter set to the three devices and the country
    and priority filters set to all their options, a row is shown exactly
    when its country is not ['Unknown'] and has a part that does not start
    with ['ID_'], unless the table offers no country option at all, and its
    priority is not ['Unknown'], unless the table offers no priority
    option at all. *)
Theorem reset_filters_visible (df : list SummaryRow) (r : SummaryRow) :
  Forall well_formed_row df ->
  In r df ->
  let country_filter := reset_country_filter df in
  let priority_filter := reset_priority_filter df in
  In r (apply_filters df reset_device_filter country_filter priority_filter)
  <-> (country_filter = []
       \/ (Country r <> "Unknown"
           /\ exists part,
                In part (split (Country r) ", ")
                /\ startswith part "ID_" = false))
      /\ (priority_filter = [] \/ Priority r <> "Unknown").
Proof.
  intros Hwf Hr country_filter priority_filter.
  rewrite apply_filters_filter, filter_In. unfold row_passes.
  assert (Hdev : isin (Device r) reset_device_filter = true).
  { destruct (proj1 (Forall_forall _ _) Hwf r Hr) as (_ & Hd & _).
    apply isin_In. exact Hd. }
  rewrite Hdev. cbn [andb].
  assert (Hc : match country_filter with
               | [] => true
               | _ => negb (Country r =? "Unknown")%string
                      && existsb (fun c => isin c country_filter)
                           (split (Country r) ", ")
               end = true
               <-> (country_filter = []
                    \/ (Country r <> "Unknown"
                        /\ exists part,
                             In part (split (Country r) ", ")
                             /\ startswith part "ID_" = false))).
  { destruct country_filter as [|c0 cs] eqn:Ec; [tauto|].
    rewrite <- Ec. rewrite andb_true_iff, negb_true_iff, String.eqb_neq.
    rewrite existsb_exists. split.
    - intros (Hu & part & Hp & Hi). right. split; [exact Hu|].
      exists part. split; [exact Hp|].
      apply isin_In in Hi. apply country_options_In in Hi.
      destruct Hi as (_ & _ & _ & _ & Hn). exact Hn.
    - intros [E|(Hu & part & Hp & Hn)]; [rewrite Ec in E; discriminate E|].
      split; [exact Hu|]. exists part. split; [exact Hp|].
      apply isin_In. apply country_options_In. exists r. auto. }
  assert (Hp : match priority_filter with
               | [] => true
               | _ => isin (Priority r) priority_filter
               end = true
               <-> (priority_filter = [] \/ Priority r <> "Unknown")).
  { destruct priority_filter as [|p0 ps] eqn:Ep; [tauto|].
    rewrite <- Ep. rewrite isin_In. split.
    - intros Hi. right. apply priority_options_In in Hi.
      destruct Hi as (r' & Hr' & Hu & Hv).
      destruct (proj1 (Forall_forall _ _) Hwf r' Hr') as (_ & _ & Hlab & _).
      rewrite (priority_label_split _ Hlab) in Hv.
      destruct Hv as [E|[]]. rewrite <- E. exact Hu.
    - intros [E|Hu]; [rewrite Ep in E; discriminate E|].
      apply priority_options_In. exists r. split; [exact Hr|].
      split; [exact Hu|].
      destruct (proj1 (Forall_forall _ _) Hwf r Hr) as (_ & _ & Hlab & _).
      rewrite (priority_label_split _ Hlab). left. reflexivity. }
  rewrite andb_true_iff, Hc, Hp. tauto.
Qed.

Lemma sample_well_formed : Forall well_formed_row Samples.sample_summary.
Proof.
  unfold Samples.sample_summary.
  repeat (apply Forall_cons;
          [unfold well_formed_row, Resolver.canonical_labels, device_labels,
             priority_labels;
           cbn [Status Device Priority Count In];
           repeat split;
           try (repeat first [left; reflexivity | right]); lia|]).
  apply Forall_nil.
Qed.

Lemma reset_filters_visible_witness :
  (Forall well_formed_row Samples.sample_summary
   /\ In (nth 0 Samples.sample_summary
            {| Epic := ""; Status := ""; Device := ""; Country := "";
               Priority := ""; Count := 0 |})
        Samples.sample_summary)
  /\ (let r := nth 0 Samples.sample_summary
                 {| Epic := ""; Status := ""; Device := ""; Country := "";
                    Priority := ""; Count := 0 |} in
      let country_filter := reset_country_filter Samples.sample_summary in
      let priority_filter := reset_priority_filter Samples.sample_summary in
      In r (apply_filters Samples.sample_summary reset_device_filter
              country_filter priority_filter)
      <-> (country_filter = []
           \/ (Country r <> "Unknown"
               /\ exists part,
                    In part (split (Country r) ", ")
                    /\ startswith part "ID_" = false))
          /\ (priority_filter = [] \/ Priority r <> "Unknown")).
Proof.
  assert (Hin : In (nth 0 Samples.sample_summary
                      {| Epic := ""; Status := ""; Device := ""; Country := "";
                         Priority := ""; Count := 0 |})
                  Samples.sample_summary)
    by (left; reflexivity).
  split; [split; [exact sample_well_formed|exact Hin]|].
  exact (reset_filters_visible Samples.sample_summary _ sample_well_formed Hin).
Defined.

(** ** Paging *)

Section Paging.

Context {case : Type}.
Variable get_cases : nat -> nat -> option (response case).
Variable data : list case.
Variable limit : nat.
Hypothesis limit_positive : (0 < limit)%nat.

(** The call at page [i] is answered with the cases of that page. *)
Let serves (i : nat) : Prop :=
  exists r,
    get_cases limit (i * limit)%nat = Some r
    /\ batch_of r = firstn limit (skipn (i * limit) data).

Lemma fetch_loop_serves (fuel j : nat) (acc : list case) :
  (forall i, (j <= i)%nat -> (i * limit <= List.length data)%nat -> serves i) ->
  (j * limit <= List.length data)%nat ->
  (List.length data < (j + fuel) * limit)%nat ->
  fetch_loop get_cases fuel limit (j * limit) acc
  = Returned (acc ++ skipn (j * limit) data)%list.
Proof.
  revert j acc. induction fuel as [|fuel IH]; intros j acc Hs Hj Hf.
  - exfalso. rewrite Nat.add_0_r in Hf. lia.
  - cbn [fetch_loop].
    destruct (Hs j (le_n j) Hj) as (r & -> & Hb). rewrite Hb.
    set (rest := skipn (j * limit) data) in *.
    assert (Hrest : List.length rest = (List.length data - j * limit)%nat)
      by (unfold rest; apply length_skipn).
    destruct (firstn limit rest) as [|c batch] eqn:Ebatch.
    + assert (Hl : List.length (firstn limit rest) = 0%nat)
        by (rewrite Ebatch; reflexivity).
      rewrite length_firstn in Hl.
      destruct rest; [now rewrite app_nil_r|cbn [List.length] in Hl; lia].
    + rewrite <- Ebatch.
      destruct (Nat.ltb_spec (List.length (firstn limit rest)) limit) as [Hlt|Hge].
      * rewrite length_firstn in Hlt.
        rewrite firstn_all2 by lia. reflexivity.
      * rewrite length_firstn in Hge.
        replace (j * limit + limit)%nat with (S j * limit)%nat by lia.
        rewrite IH.
        -- rewrite <- app_assoc. f_equal. f_equal.
           replace (S j * limit)%nat with (limit + j * limit)%nat by lia.
           rewrite <- skipn_skipn. fold rest. apply firstn_skipn.
        -- intros i Hi. apply Hs. lia.
        -- lia.
        -- lia.
Qed.

Lemma fetch_loop_fails (fuel j k : nat) (acc : list case) :
  (forall i, (j <= i < k)%nat -> serves i) ->
  get_cases limit (k * limit)%nat = None ->
  (j <= k)%nat ->
  (k * limit <= List.length data)%nat ->
  (k < j + fuel)%nat ->
  fetch_loop get_cases fuel limit (j * limit) acc = Raised.
Proof.
  revert j acc. induction fuel as [|fuel IH]; intros j acc Hs Hk Hjk Hd Hf.
  - exfalso. lia.
  - cbn [fetch_loop].
    destruct (Nat.eq_dec j k) as [->|Hne]; [rewrite Hk; reflexivity|].
    destruct (Hs j) as (r & -> & Hb); [lia|]. rewrite Hb.
    set (rest := skipn (j * limit) data) in *.
    assert (Hrest : List.length rest = (List.length data - j * limit)%nat)
      by (unfold rest; apply length_skipn).
    assert (Hfull : (limit <= List.length rest)%nat) by nia.
    assert (Hlen : List.length (firstn limit rest) = limit)
      by (rewrite length_firstn; lia).
    destruct (firstn limit rest) as [|c batch] eqn:Ebatch;
      [cbn [List.length] in Hlen; lia|].
    rewrite Hlen, Nat.ltb_irrefl.
    replace (j * limit + limit)%nat with (S j * limit)%nat by lia.
    apply IH; try assumption; try lia.
    intros i Hi. apply Hs. lia.
Qed.

End Paging.

Lemma batch_of_paging {case : Type} (as_dict : bool) (batch : list case) :
  batch_of (if as_dict then Dict (Some batch) else Cases batch) = batch.
Proof. destruct as_dict; reflexivity. Qed.

(** X17. Paging loses and repeats nothing: against a server that answers
    each call with the cases from the offset on, at most [limit] of them,
    as a dictionary or as a plain list, [fetch_data_recursive] returns all
    the cases of the server in their order, once the loop is given more
    calls than the cases fill pages of 250, whether or not their number is
    a multiple of 250. *)
Theorem fetch_data_recursive_complete {case : Type} (as_dict : bool)
  (data : list case) (fuel : nat) :
  (List.length data < fuel * API_BATCH_SIZE)%nat ->
  fetch_data_recursive (Some (paging_server as_dict data)) fuel = Returned data.
Proof.
  intros Hf. unfold fetch_data_recursive.
  change 0%nat with (0 * API_BATCH_SIZE)%nat at 1.
  rewrite (fetch_loop_serves (paging_server as_dict data) data API_BATCH_SIZE).
  - reflexivity.
  - unfold API_BATCH_SIZE. lia.
  - intros i _ _. eexists. split; [reflexivity|]. apply batch_of_paging.
  - cbn. lia.
  - exact Hf.
Qed.

(** X18. A failing call discards what was fetched: against the same
    server, when the call for page [k] raises and that page is reached,
    the cases numbering at least [k * 250], [fetch_data_recursive] returns
    the empty table, the cases of the pages before it included, once the
    loop is given more than [k] calls. *)
Theorem fetch_data_recursive_all_or_nothing {case : Type} (as_dict : bool)
  (data : list case) (k fuel : nat) :
  (k * API_BATCH_SIZE <= List.length data)%nat ->
  (k < fuel)%nat ->
  fetch_data_recursive
    (Some (failing_server (k * API_BATCH_SIZE) as_dict data)) fuel
  = Returned [].
Proof.
  intros Hk Hf. unfold fetch_data_recursive.
  change 0%nat with (0 * API_BATCH_SIZE)%nat at 1.
  rewrite (fetch_loop_fails
             (failing_server (k * API_BATCH_SIZE) as_dict data) data
             API_BATCH_SIZE) with (k := k).
  - reflexivity.
  - unfold API_BATCH_SIZE. lia.
  - intros i Hi. unfold failing_server.
    destruct (Nat.eqb_spec (i * API_BATCH_SIZE) (k * API_BATCH_SIZE)) as [E|_].
    + exfalso. unfold API_BATCH_SIZE in E. lia.
    + eexists. split; [reflexivity|]. apply batch_of_paging.
  - unfold failing_server. now rewrite Nat.eqb_refl.
  - lia.
  - exact Hk.
  - lia.
Qed.

(** ** The order of the raw cases *)

Lemma apply_succeeds {A : Type} (f : value -> result A) (col : list value) :
  (exists l, apply f col = Ok l) <-> Forall (fun v => exists a, f v = Ok a) col.
Proof.
  split.
  - intros (l & H). revert l H. induction col as [|v col IH]; intros l H;
      [constructor|].
    cbn [apply] in H. destruct (f v) as [a|] eqn:Ea; cbn [bind] in H;
      [|discriminate].
    destruct (apply f col) as [rest|]; cbn [bind] in H; [|discriminate].
    constructor; [exists a; exact Ea|exact (IH rest eq_refl)].
  - intros H. apply apply_ok. intros v Hv.
    exact (proj1 (Forall_forall _ _) H v Hv).
Qed.

Lemma apply_values {A : Type} (f : value -> result A) (col : list value)
  (l : list A) :
  apply f col = Ok l -> Forall2 (fun v a => f v = Ok a) col l.
Proof.
  revert l. induction col as [|v col IH]; intros l; cbn [apply].
  - intros [= <-]. constructor.
  - destruct (f v) as [a|] eqn:Ea; cbn [bind]; [|discriminate].
    destruct (apply f col) as [rest|]; cbn [bind]; [|discriminate].
    intros [= <-]. constructor; [exact Ea|apply IH; reflexivity].
Qed.

Lemma apply_perm {A : Type} (f : value -> result A) (col col' : list value)
  (l : list A) :
  Permutation col col' ->
  apply f col = Ok l ->
  exists l', apply f col' = Ok l'.
Proof.
  intros Hp H. apply apply_succeeds.
  apply (Permutation_Forall Hp). apply apply_succeeds. exists l. exact H.
Qed.


Lemma apply_forced {A : Type} (f : value -> result A) (default : A)
  (col : list value) (l : list A) :
  apply f col = Ok l -> l = map (fun v => forced default (f v)) col.
Proof.
  revert l. induction col as [|v col IH]; intros l; cbn [apply].
  - intros [= <-]. reflexivity.
  - destruct (f v) as [a|] eqn:Ea; cbn [bind]; [|discriminate].
    destruct (apply f col) as [rest|]; cbn [bind]; [|discriminate].
    intros [= <-]. cbn [map]. rewrite Ea. cbn [forced]. f_equal.
    apply IH. reflexivity.
Qed.

Lemma status_rows_map {R : Type} (j d m : R -> option string) (l : list R) :
  status_rows (map j l) (map d l) (map m l)
  = map (fun r => {| Java_Status := j r; Testim_Desktop_Status := d r;
                     Testim_Mobile_Status := m r |}) l.
Proof. induction l as [|r l IH]; [reflexivity|]. cbn. now rewrite IH. Qed.

Lemma case_keys_map {R : Type} (e s d c p : R -> string) (l : list R) :
  case_keys (map e l) (map s l) (map d l) (map c l) (map p l)
  = map (fun r => (e r, s r, d r, c r, p r)) l.
Proof. induction l as [|r l IH]; [reflexivity|]. cbn. now rewrite IH. Qed.

Lemma mapped_column {A : Type} (df : DataFrame) (f : value -> result A)
  (default : A) (field : option string) (l : list A) :
  match field with
  | Some name => apply f (column df name)
  | None => Ok (constant df default)
  end = Ok l ->
  l = map (fun row =>
             match field with
             | Some name => forced default (f (row name))
             | None => default
             end) (rows df).
Proof.
  destruct field as [name|].
  - intros H. apply (apply_forced f default) in H. rewrite H.
    unfold column. now rewrite map_map.
  - intros [= <-]. reflexivity.
Qed.

Lemma process_try_rowwise (df : DataFrame) (bu_name : string)
  (out : list SummaryRow * list report) :
  find_field df "java" <> None ->
  process_try df bu_name = Ok out ->
  out = (summarize (map (row_case df bu_name) (rows df)), []).
Proof.
  unfold process_try. intros Hj.
  destruct (find_field df "java") as [java_field|] eqn:Ejf; [clear Hj|contradiction].
  destruct (apply map_automation_status_java _) as [java|] eqn:Ejava;
    [|discriminate].
  apply (mapped_column df _ None (Some java_field)) in Ejava.
  cbn [bind].
  match goal with
  | |- bind ?x _ = _ -> _ => destruct x as [desktop|] eqn:Edesktop; [|discriminate]
  end.
  apply (mapped_column df _ None) in Edesktop.
  cbn [bind].
  match goal with
  | |- bind ?x _ = _ -> _ => destruct x as [mobile|] eqn:Emobile; [|discriminate]
  end.
  apply (mapped_column df _ None) in Emobile.
  cbn [bind].
  match goal with
  | |- bind ?x _ = _ -> _ => destruct x as [device|] eqn:Edevice; [|discriminate]
  end.
  apply (mapped_column df _ "Both") in Edevice.
  cbn [bind].
  match goal with
  | |- bind ?x _ = _ -> _ => destruct x as [country|] eqn:Ecountry; [|discriminate]
  end.
  apply (mapped_column df (fun x => map_country_id x bu_name) "Unknown") in Ecountry.
  cbn [bind].
  match goal with
  | |- bind ?x _ = _ -> _ => destruct x as [priority|] eqn:Epriority; [|discriminate]
  end.
  apply (mapped_column df _ "Unknown") in Epriority.
  cbn [bind]. intros [= <-]. f_equal. f_equal.
  assert (Hepic : match find_field df "epic" with
                  | Some f => map epic_label (column df f)
                  | None => constant df "No Epic Assigned"
                  end
                  = map (fun row =>
                           match find_field df "epic" with
                           | Some field => epic_label (row field)
                           | None => "No Epic Assigned"
                           end) (rows df)).
  { destruct (find_field df "epic"); [|reflexivity].
    unfold column. now rewrite map_map. }
  rewrite Hepic, Ejava, Edesktop, Emobile, Edevice, Ecountry, Epriority.
  rewrite status_rows_map, map_map, case_keys_map.
  apply map_ext. intros row. unfold row_case. rewrite Ejf. reflexivity.
Qed.

Lemma find_field_columns (df df' : DataFrame) (field_type : string) :
  columns df' = columns df -> find_field df' field_type = find_field df field_type.
Proof. intros H. unfold find_field. now rewrite H. Qed.

Lemma empty_perm (df df' : DataFrame) :
  columns df' = columns df -> Permutation (rows df) (rows df') ->
  empty df' = empty df.
Proof.
  intros Hc Hp. unfold empty. rewrite Hc.
  destruct (rows df) as [|r l].
  - apply Permutation_nil in Hp. now rewrite Hp.
  - destruct (rows df') as [|r' l']; [|reflexivity].
    apply Permutation_sym, Permutation_nil in Hp. discriminate Hp.
Qed.

Lemma mapped_column_perm {A : Type} (df df' : DataFrame)
  (f : value -> result A) (default : A) (field : option string) (l : list A) :
  Permutation (rows df) (rows df') ->
  match field with
  | Some name => apply f (column df name)
  | None => Ok (constant df default)
  end = Ok l ->
  exists l',
    match field with
    | Some name => apply f (column df' name)
    | None => Ok (constant df' default)
    end = Ok l'.
Proof.
  intros Hp. destruct field as [name|]; [|eexists; reflexivity].
  apply apply_perm. unfold column. apply Permutation_map. exact Hp.
Qed.

Lemma process_try_perm (df df' : DataFrame) (bu_name : string)
  (out : list SummaryRow * list report) :
  columns df' = columns df ->
  Permutation (rows df) (rows df') ->
  process_try df bu_name = Ok out ->
  exists out', process_try df' bu_name = Ok out'.
Proof.
  intros Hc Hp. unfold process_try.
  rewrite !(find_field_columns df df' _ Hc).
  destruct (find_field df "java") as [java_field|]; [|eexists; reflexivity].
  destruct (apply map_automation_status_java (column df java_field))
    as [java|] eqn:Ejava; [|discriminate].
  destruct (mapped_column_perm df df' _ None (Some java_field) _ Hp Ejava)
    as (java' & ->).
  cbn [bind].
  match goal with
  | |- bind ?x _ = _ -> _ => destruct x as [desktop|] eqn:Edesktop; [|discriminate]
  end.
  destruct (mapped_column_perm df df' _ None _ _ Hp Edesktop) as (desktop' & ->).
  cbn [bind].
  match goal with
  | |- bind ?x _ = _ -> _ => destruct x as [mobile|] eqn:Emobile; [|discriminate]
  end.
  destruct (mapped_column_perm df df' _ None _ _ Hp Emobile) as (mobile' & ->).
  cbn [bind].
  match goal with
  | |- bind ?x _ = _ -> _ => destruct x as [device|] eqn:Edevice; [|discriminate]
  end.
  destruct (mapped_column_perm df df' _ "Both" _ _ Hp Edevice) as (device' & ->).
  cbn [bind].
  match goal with
  | |- bind ?x _ = _ -> _ => destruct x as [country|] eqn:Ecountry; [|discriminate]
  end.
  destruct (mapped_column_perm df df' (fun x => map_country_id x bu_name)
              "Unknown" _ _ Hp Ecountry) as (country' & ->).
  cbn [bind].
  match goal with
  | |- bind ?x _ = _ -> _ => destruct x as [priority|] eqn:Epriority; [|discriminate]
  end.
  destruct (mapped_column_perm df df' _ "Unknown" _ _ Hp Epriority)
    as (priority' & ->).
  cbn [bind]. intros _. eexists. reflexivity.
Qed.

Lemma summarize_perm (cases cases' : list case_key) :
  Permutation cases cases' -> summarize cases = summarize cases'.
Proof.
  intros Hp. unfold summarize.
  apply (map_Forall2
           (fun g1 g2 : case_key * list case_key =>
              fst g1 = fst g2 /\ Permutation (snd g1) (snd g2))).
  - intros [k1 g1] [k2 g2] [E P]. cbn [fst snd] in *. subst k2.
    now rewrite (Permutation_length P).
  - apply (groupby_perm cmp_case_key case_key_order). exact Hp.
Qed.

Lemma row_case_columns (df df' : DataFrame) (bu_name : string)
  (row : string -> value) :
  columns df' = columns df -> row_case df' bu_name row = row_case df bu_name row.
Proof.
  intros Hc. unfold row_case. now rewrite !(find_field_columns df df' _ Hc).
Qed.

(** X19. The table [process] returns does not depend on the order of the
    raw cases: two raw tables with the same columns whose rows are a
    permutation of one another give the same summary, the empty one when a
    cell of either makes a mapper raise. *)
Theorem process_order_independent (df df' : DataFrame) (bu_name : string) :
  columns df' = columns df ->
  Permutation (rows df) (rows df') ->
  fst (process df' bu_name) = fst (process df bu_name).
Proof.
  intros Hc Hp. unfold process. rewrite (empty_perm df df' Hc Hp).
  destruct (empty df); [reflexivity|].
  destruct (process_try df bu_name) as [out|e] eqn:E;
    destruct (process_try df' bu_name) as [out'|e'] eqn:E'.
  - destruct (find_field df "java") as [java_field|] eqn:Ej.
    + assert (Ho : out = (summarize (map (row_case df bu_name) (rows df)), []))
        by (apply process_try_rowwise; [rewrite Ej; discriminate|exact E]).
      assert (Ho' : out'
                    = (summarize (map (row_case df' bu_name) (rows df')), [])).
      { apply process_try_rowwise; [|exact E'].
        rewrite (find_field_columns df df' _ Hc), Ej. discriminate. }
      rewrite Ho, Ho'. cbn [fst]. apply summarize_perm.
      rewrite (map_ext _ _ (fun row => row_case_columns df df' bu_name row Hc)).
      apply Permutation_map, Permutation_sym, Hp.
    + unfold process_try in E, E'.
      rewrite (find_field_columns df df' _ Hc) in E'. rewrite Ej in E, E'.
      congruence.
  - destruct (process_try_perm df df' bu_name out Hc Hp E) as (o & Ho). congruence.
  - destruct (process_try_perm df' df bu_name out' (eq_sym Hc)
                (Permutation_sym Hp) E') as (o & Ho). congruence.
  - reflexivity.
Qed.

Lemma process_order_independent_witness :
  (columns two_cases_swapped = columns two_cases
   /\ Permutation (rows two_cases) (rows two_cases_swapped))
  /\ fst (process two_cases_swapped "Marionnaud")
     = fst (process two_cases "Marionnaud").
Proof.
  assert (Hp : Permutation (rows two_cases) (rows two_cases_swapped))
    by apply perm_swap.
  split; [split; [reflexivity|exact Hp]|].
  exact (process_order_independent two_cases two_cases_swapped "Marionnaud"
           eq_refl Hp).
Defined.

(** ** Each case in the row of its key *)

Lemma process_rowwise (df : DataFrame) (bu_name : string) :
  snd (process df bu_name) = [] ->
  fst (process df bu_name)
  = summarize (map (row_case df bu_name) (rows df)).
Proof.
  unfold process. destruct (empty df); [discriminate|].
  destruct (process_try df bu_name) as [out|e] eqn:E; [|discriminate].
  intros Hs.
  destruct (find_field df "java") as [java_field|] eqn:Ej.
  - rewrite (process_try_rowwise df bu_name out); [reflexivity| |exact E].
    rewrite Ej. discriminate.
  - unfold process_try in E. rewrite Ej in E. injection E as <-.
    discriminate Hs.
Qed.

(** X20. [process] counts each raw case in the row of its key: when it
    reports nothing, every raw case has its five derived columns as the
    key of a row of the table, and the Count of each row is the number of
    raw cases whose derived columns are the key of that row. *)
Theorem process_counts_per_key (df : DataFrame) (bu_name : string) :
  snd (process df bu_name) = [] ->
  let T := fst (process df bu_name) in
  Forall (fun row => In (row_case df bu_name row) (map summary_key T)) (rows df)
  /\ Forall (fun r =>
               Count r
               = Z.of_nat
                   (List.length
                      (filter (fun row =>
                                 same_key cmp_case_key (row_case df bu_name row)
                                   (summary_key r))
                         (rows df)))) T.
Proof.
  intros Hs T. unfold T. rewrite (process_rowwise df bu_name Hs). split.
  - apply Forall_forall. intros row Hrow.
    rewrite summarize_keys.
    apply (unique_sorted_In cmp_case_key case_key_order).
    apply in_map. exact Hrow.
  - apply Forall_forall. intros r Hr.
    destruct (summarize_row _ r Hr) as (_ & Hc & _).
    rewrite Hc. rewrite filter_map_comm, length_map. reflexivity.
Qed.

Lemma process_counts_per_key_witness :
  snd (process two_cases "Marionnaud") = []
  /\ (let T := fst (process two_cases "Marionnaud") in
      Forall (fun row => In (row_case two_cases "Marionnaud" row)
                           (map summary_key T)) (rows two_cases)
      /\ Forall (fun r =>
                   Count r
                   = Z.of_nat
                       (List.length
                          (filter (fun row =>
                                     same_key cmp_case_key
                                       (row_case two_cases "Marionnaud" row)
                                       (summary_key r))
                             (rows two_cases)))) T).
Proof.
  split; [reflexivity|].
  apply (process_counts_per_key two_cases "Marionnaud"). reflexivity.
Defined.

(** ** Metrics of a filtered table *)

Lemma filtered_status_bound (pass : SummaryRow -> bool) (label : string)
  (T : list SummaryRow) :
  Resolver.summary_table T ->
  0 <= sum_count (with_status label (filter pass T))
    <= sum_count (with_status label T).
Proof.
  intros HT. unfold with_status. rewrite filter_comm.
  apply sum_count_filter_le. apply summary_table_filter. exact HT.
Qed.

(** On mathematical integers and on the rows the three masks keep: each
    count of the overall metrics of the filtered rows lies between 0 and
    the same count of all rows. *)
Lemma filtered_relations (df : list SummaryRow)
  (device_filter country_filter priority_filter : list string) :
  Resolver.summary_table df ->
  let shown := apply_filters df device_filter country_filter priority_filter in
  let m := calculate_overall_metrics df in
  let m' := calculate_overall_metrics shown in
  Resolver.summary_table shown
  /\ 0 <= total m' <= total m
  /\ 0 <= automated_java m' <= automated_java m
  /\ 0 <= automated_testim_desktop m' <= automated_testim_desktop m
  /\ 0 <= automated_testim_mobile m' <= automated_testim_mobile m
  /\ 0 <= automated_testim_both m' <= automated_testim_both m
  /\ 0 <= total_automated m' <= total_automated m
  /\ 0 <= to_be_automated m' <= to_be_automated m
  /\ 0 <= not_automated m' <= not_automated m
  /\ 0 <= not_applicable m' <= not_applicable m.
Proof.
  intros HT shown m m'. subst m m' shown.
  rewrite apply_filters_filter.
  set (pass := row_passes device_filter country_filter priority_filter).
  pose proof (filtered_status_bound pass "Automated - Java" df HT).
  pose proof (filtered_status_bound pass "Automated - Testim Desktop" df HT).
  pose proof (filtered_status_bound pass "Automated - Testim Mobile" df HT).
  pose proof (filtered_status_bound pass "Automated - Testim Both" df HT).
  pose proof (filtered_status_bound pass "To Be Automated" df HT).
  pose proof (filtered_status_bound pass "Not Automated" df HT).
  pose proof (filtered_status_bound pass "N/A" df HT).
  pose proof (sum_count_filter_le pass df HT).
  cbn [calculate_overall_metrics total automated_java automated_testim_desktop
       automated_testim_mobile automated_testim_both total_automated
       to_be_automated not_automated not_applicable].
  split; [apply summary_table_filter; exact HT|].
  repeat split; lia.
Qed.

(* ================================================================== *)
(** * The metrics on int64 counts *)
(* ================================================================== *)

(** ** Sums in int64 *)

Lemma int64_small (z : Z) : - 2 ^ 63 <= z < 2 ^ 63 -> Metrics64.int64 z = z.
Proof.
  intros H. unfold Metrics64.int64.
  rewrite Z.mod_small by lia. lia.
Qed.

Lemma sum_count64 (T : list SummaryRow) :
  Resolver.summary_table T -> sum_count T < 2 ^ 63 ->
  Metrics64.sum_count T = sum_count T.
Proof.
  induction 1 as [|r T [_ Hr] HT IH]; [reflexivity|].
  rewrite sum_count_cons. intros Hb.
  pose proof (sum_count_filter_le (fun _ => true) T HT) as Hs.
  rewrite filter_all in Hs.
  cbn [Metrics64.sum_count fold_right].
  change (fold_right (fun r acc => Metrics64.int64 (Count r + acc)) 0 T)
    with (Metrics64.sum_count T).
  rewrite IH by lia. apply int64_small. lia.
Qed.

Lemma sum_count64_filter (p : SummaryRow -> bool) (T : list SummaryRow) :
  Resolver.summary_table T -> sum_count T < 2 ^ 63 ->
  Metrics64.sum_count (filter p T) = sum_count (filter p T).
Proof.
  intros HT Hb. apply sum_count64.
  - apply summary_table_filter. exact HT.
  - pose proof (sum_count_filter_le p T HT). lia.
Qed.

Lemma overall_metrics64 (T : list SummaryRow) :
  Resolver.summary_table T -> sum_count T < 2 ^ 63 ->
  Metrics64.calculate_overall_metrics T = calculate_overall_metrics T.
Proof.
  intros HT Hb.
  unfold Metrics64.calculate_overall_metrics, calculate_overall_metrics.
  unfold with_status.
  rewrite !(sum_count64_filter _ T HT Hb), (sum_count64 T HT Hb).
  fold (with_status "Automated - Java" T).
  fold (with_status "Automated - Testim Desktop" T).
  fold (with_status "Automated - Testim Mobile" T).
  fold (with_status "Automated - Testim Both" T).
  fold (with_status "To Be Automated" T).
  fold (with_status "Not Automated" T).
  fold (with_status "N/A" T).
  pose proof (overall_partition T HT) as Hpart.
  pose proof (with_status_nonneg "Automated - Java" T HT).
  pose proof (with_status_nonneg "Automated - Testim Desktop" T HT).
  pose proof (with_status_nonneg "Automated - Testim Mobile" T HT).
  pose proof (with_status_nonneg "Automated - Testim Both" T HT).
  pose proof (with_status_nonneg "To Be Automated" T HT).
  pose proof (with_status_nonneg "Not Automated" T HT).
  pose proof (with_status_nonneg "N/A" T HT).
  set (j := sum_count (with_status "Automated - Java" T)) in *.
  set (d := sum_count (with_status "Automated - Testim Desktop" T)) in *.
  set (m := sum_count (with_status "Automated - Testim Mobile" T)) in *.
  set (b := sum_count (with_status "Automated - Testim Both" T)) in *.
  set (na := sum_count (with_status "N/A" T)) in *.
  rewrite (int64_small (j + d)) by lia.
  rewrite (int64_small (j + d + m)) by lia.
  rewrite (int64_small (j + d + m + b)) by lia.
  rewrite (int64_small (d + m)) by lia.
  rewrite (int64_small (d + m + b)) by lia.
  rewrite (int64_small (sum_count T - na)) by lia.
  reflexivity.
Qed.

Lemma testim_metrics64 (T : list SummaryRow) :
  Resolver.summary_table T -> sum_count T < 2 ^ 63 ->
  Metrics64.calculate_testim_metrics T = calculate_testim_metrics T.
Proof.
  intros HT Hb.
  unfold Metrics64.calculate_testim_metrics, calculate_testim_metrics.
  unfold with_status.
  rewrite !(sum_count64_filter _ T HT Hb).
  fold (with_status "Automated - Testim Desktop" T).
  fold (with_status "Automated - Testim Mobile" T).
  fold (with_status "Automated - Testim Both" T).
  fold (with_status "To Be Automated" T).
  fold (with_status "Not Automated" T).
  pose proof (overall_partition T HT) as Hpart.
  pose proof (to_be_or_not T) as Hu.
  pose proof (with_status_nonneg "Automated - Java" T HT).
  pose proof (with_status_nonneg "Automated - Testim Desktop" T HT).
  pose proof (with_status_nonneg "Automated - Testim Mobile" T HT).
  pose proof (with_status_nonneg "Automated - Testim Both" T HT).
  pose proof (with_status_nonneg "To Be Automated" T HT).
  pose proof (with_status_nonneg "Not Automated" T HT).
  pose proof (with_status_nonneg "N/A" T HT).
  set (d := sum_count (with_status "Automated - Testim Desktop" T)) in *.
  set (m := sum_count (with_status "Automated - Testim Mobile" T)) in *.
  set (b := sum_count (with_status "Automated - Testim Both" T)) in *.
  rewrite (int64_small (d + m)) by lia.
  rewrite (int64_small (d + m + b)) by lia.
  rewrite int64_small by lia.
  reflexivity.
Qed.

Lemma device_metrics64 (T : list SummaryRow) :
  Resolver.summary_table T -> sum_count T < 2 ^ 63 ->
  Metrics64.calculate_device_metrics T = calculate_device_metrics T.
Proof.
  intros HT Hb.
  unfold Metrics64.calculate_device_metrics, calculate_device_metrics.
  apply map_ext. intros device.
  assert (Hd : Resolver.summary_table
                 (filter (fun r => (Device r =? device)%string) T))
    by (apply summary_table_filter; exact HT).
  assert (Hdb : sum_count (filter (fun r => (Device r =? device)%string) T)
                < 2 ^ 63)
    by (pose proof (sum_count_filter_le
                      (fun r => (Device r =? device)%string) T HT); lia).
  rewrite (sum_count64_filter _ _ Hd Hdb), (sum_count64 _ Hd Hdb).
  reflexivity.
Qed.

Lemma es_sum_cons (r : EpicStatusRow) (l : list EpicStatusRow) :
  es_sum (r :: l) = es_Count r + es_sum l.
Proof. reflexivity. Qed.

Lemma es_sum_filter_le (p : EpicStatusRow -> bool) (l : list EpicStatusRow) :
  Forall (fun r => 0 <= es_Count r) l ->
  0 <= es_sum (filter p l) <= es_sum l.
Proof.
  induction 1 as [|r l Hr _ IH]; [simpl; lia|].
  cbn [filter]. destruct (p r); rewrite ?es_sum_cons; lia.
Qed.

Lemma es_sum64 (l : list EpicStatusRow) :
  Forall (fun r => 0 <= es_Count r) l -> es_sum l < 2 ^ 63 ->
  Metrics64.es_sum l = es_sum l.
Proof.
  induction 1 as [|r l Hr Hl IH]; [reflexivity|].
  rewrite es_sum_cons. intros Hb.
  pose proof (es_sum_filter_le (fun _ => true) l Hl) as Hs.
  rewrite filter_all in Hs.
  cbn [Metrics64.es_sum fold_right].
  change (fold_right (fun r acc => Metrics64.int64 (es_Count r + acc)) 0 l)
    with (Metrics64.es_sum l).
  rewrite IH by lia. apply int64_small. lia.
Qed.

Lemma es_sum64_filter (p : EpicStatusRow -> bool) (l : list EpicStatusRow) :
  Forall (fun r => 0 <= es_Count r) l -> es_sum l < 2 ^ 63 ->
  Metrics64.es_sum (filter p l) = es_sum (filter p l).
Proof.
  intros Hl Hb. pose proof (es_sum_filter_le p l Hl).
  apply es_sum64; [|lia].
  apply Forall_forall. intros r Hr. apply filter_In in Hr.
  exact (proj1 (Forall_forall _ _) Hl r (proj1 Hr)).
Qed.

Lemma epic_status_summary64 (T : list SummaryRow) :
  Resolver.summary_table T -> sum_count T < 2 ^ 63 ->
  Metrics64.epic_status_summary T = epic_status_summary T.
Proof.
  intros HT Hb. unfold Metrics64.epic_status_summary, epic_status_summary.
  unfold groupby. rewrite !map_map. apply map_ext. intros k. cbn [fst snd].
  now rewrite (sum_count64_filter _ T HT Hb).
Qed.

Lemma epic_status_nonneg (T : list SummaryRow) :
  Resolver.summary_table T ->
  Forall (fun r => 0 <= es_Count r) (epic_status_summary T).
Proof.
  intros HT. unfold epic_status_summary, groupby. rewrite map_map.
  apply Forall_forall. intros r Hr. apply in_map_iff in Hr.
  destruct Hr as (k & <- & _). cbn [es_Count snd].
  apply (sum_count_filter_le _ T HT).
Qed.

Lemma epic_status_total (T : list SummaryRow) :
  es_sum (epic_status_summary T) = sum_count T.
Proof.
  rewrite <- (filter_all (epic_status_summary T)).
  rewrite (epic_status_column (fun _ => true)). now rewrite filter_all.
Qed.

Lemma epic_pivot64 (T : list SummaryRow) :
  Resolver.summary_table T -> sum_count T < 2 ^ 63 ->
  Metrics64.epic_pivot T = epic_pivot T.
Proof.
  intros HT Hb. unfold Metrics64.epic_pivot, epic_pivot.
  rewrite (epic_status_summary64 T HT Hb).
  unfold groupby. rewrite !map_map. apply map_ext. intros k. cbn [fst snd].
  set (group := filter (fun r => same_key String.compare (es_Epic r) k)
                  (epic_status_summary T)).
  assert (Hg : Forall (fun r => 0 <= es_Count r) group).
  { apply Forall_forall. intros r Hr. apply filter_In in Hr.
    exact (proj1 (Forall_forall _ _) (epic_status_nonneg T HT) r (proj1 Hr)). }
  assert (Hgb : es_sum group < 2 ^ 63).
  { pose proof (es_sum_filter_le
                  (fun r => same_key String.compare (es_Epic r) k)
                  (epic_status_summary T) (epic_status_nonneg T HT)) as H.
    fold group in H. rewrite epic_status_total in H. lia. }
  unfold Metrics64.aggregate_epic_status, aggregate_epic_status.
  cbn [ec_Automated ec_To_Be_Automated ec_N_A ec_Not_Automated ec_TOTAL].
  rewrite !(es_sum64_filter _ group Hg Hgb), (es_sum64 group Hg Hgb).
  pose proof (es_sum_filter_le (fun r => (es_Status r =? "N/A")%string)
                group Hg).
  rewrite int64_small by lia. reflexivity.
Qed.

Lemma epic_metrics64 (T : list SummaryRow) :
  Resolver.summary_table T -> sum_count T < 2 ^ 63 ->
  Metrics64.calculate_epic_metrics T = calculate_epic_metrics T.
Proof.
  intros HT Hb. unfold Metrics64.calculate_epic_metrics, calculate_epic_metrics.
  now rewrite epic_pivot64.
Qed.

(** ** Overall metrics on int64 counts *)

Lemma sample_in_range : sum_count Samples.sample_summary < 2 ^ 63.
Proof. reflexivity. Qed.

Lemma wrapping_is_summary_table : Resolver.summary_table wrapping_summary.
Proof.
  unfold wrapping_summary.
  repeat (apply Forall_cons;
          [unfold Resolver.canonical_labels; cbn [Status Count In];
           split; [repeat first [left; reflexivity | right]|discriminate]|]).
  apply Forall_nil.
Qed.

(** C3 as stated fails.  The two rows of [wrapping_summary] have canonical
    statuses and the counts 2^62 and 2^62, whose sum is not an int64: the
    total and the effective total wrap around to -2^63, which is not
    positive, so that the coverage is the integer 0 although the effective
    total is not 0; and the four classes add up to 2^63, not to the
    total. *)
Lemma overall_metrics_wrap :
  Resolver.summary_table wrapping_summary
  /\ (let m := Metrics64.calculate_overall_metrics wrapping_summary in
      total m = - 2 ^ 63
      /\ effective_total m = - 2 ^ 63
      /\ effective_total m <> 0
      /\ coverage m = Int 0
      /\ coverage m <> Float (percent (total_automated m) (effective_total m))
      /\ total_automated m + to_be_automated m + not_automated m
         + not_applicable m <> total m).
Proof.
  split; [exact wrapping_is_summary_table|].
  vm_compute. repeat split; discriminate.
Qed.

(** C3, as the code has it.  On a SummaryRow table whose counts sum to
    less than 2^63 the four classes of the overall metrics add up to the
    total, the effective total is the total less the not-applicable count,
    and the coverage is the integer 0 when the effective total is 0 and the
    binary64 value of [total_automated / effective_total * 100]
    otherwise. *)
Theorem overall_metrics_sum_and_coverage (T : list SummaryRow) :
  Resolver.summary_table T ->
  sum_count T < 2 ^ 63 ->
  let m := Metrics64.calculate_overall_metrics T in
  total_automated m + to_be_automated m + not_automated m + not_applicable m
  = total m
  /\ effective_total m = total m - not_applicable m
  /\ (effective_total m = 0 -> coverage m = Int 0)
  /\ (effective_total m <> 0 ->
      coverage m = Float (percent (total_automated m) (effective_total m))).
Proof.
  intros HT Hb. rewrite (overall_metrics64 T HT Hb).
  exact (overall_relations T HT).
Qed.

Lemma overall_metrics_sum_and_coverage_witness :
  (Resolver.summary_table Samples.sample_summary
   /\ sum_count Samples.sample_summary < 2 ^ 63)
  /\ (let m := Metrics64.calculate_overall_metrics Samples.sample_summary in
      total_automated m + to_be_automated m + not_automated m + not_applicable m
      = total m
      /\ effective_total m = total m - not_applicable m
      /\ (effective_total m = 0 -> coverage m = Int 0)
      /\ (effective_total m <> 0 ->
          coverage m
          = Float (percent (total_automated m) (effective_total m)))).
Proof.
  split; [split; [exact sample_is_summary_table|exact sample_in_range]|].
  exact (overall_metrics_sum_and_coverage Samples.sample_summary
           sample_is_summary_table sample_in_range).
Defined.

(** ** Testim and device metrics on int64 counts *)

(** X8. The Testim metrics of a summary table whose counts sum to less
    than 2^63: the Testim total is the sum of its desktop, mobile and both
    counts and equals the overall [total_testim]; the base [testim_total]
    adds the to-be-automated and the not-automated counts, which makes it
    the overall effective total less the cases automated in Java; the
    Testim total lies between 0 and that base; and each ratio is the
    integer 0 when its denominator is 0, the float quotient times 100
    otherwise. *)
Theorem testim_metrics_relations (T : list SummaryRow) :
  Resolver.summary_table T ->
  sum_count T < 2 ^ 63 ->
  let m := Metrics64.calculate_testim_metrics T in
  let o := Metrics64.calculate_overall_metrics T in
  tm_total_testim m = desktop m + mobile m + both m
  /\ tm_total_testim m = total_testim o
  /\ testim_total m
     = tm_total_testim m + tm_to_be_automated m + tm_not_automated m
  /\ testim_total m = effective_total o - automated_java o
  /\ 0 <= tm_total_testim m <= testim_total m
  /\ (testim_total m = 0 -> testim_coverage m = Int 0)
  /\ (testim_total m <> 0 ->
      testim_coverage m
      = Float (percent (tm_total_testim m) (testim_total m)))
  /\ (tm_total_testim m = 0 ->
      desktop_pct m = Int 0 /\ mobile_pct m = Int 0 /\ both_pct m = Int 0)
  /\ (tm_total_testim m <> 0 ->
      desktop_pct m = Float (percent (desktop m) (tm_total_testim m))
      /\ mobile_pct m = Float (percent (mobile m) (tm_total_testim m))
      /\ both_pct m = Float (percent (both m) (tm_total_testim m))).
Proof.
  intros HT Hb.
  rewrite (testim_metrics64 T HT Hb), (overall_metrics64 T HT Hb).
  exact (testim_relations T HT).
Qed.

Lemma testim_metrics_relations_witness :
  (Resolver.summary_table Samples.sample_summary
   /\ sum_count Samples.sample_summary < 2 ^ 63)
  /\ (let m := Metrics64.calculate_testim_metrics Samples.sample_summary in
      let o := Metrics64.calculate_overall_metrics Samples.sample_summary in
      tm_total_testim m = desktop m + mobile m + both m
      /\ tm_total_testim m = total_testim o
      /\ testim_total m
         = tm_total_testim m + tm_to_be_automated m + tm_not_automated m
      /\ testim_total m = effective_total o - automated_java o
      /\ 0 <= tm_total_testim m <= testim_total m
      /\ (testim_total m = 0 -> testim_coverage m = Int 0)
      /\ (testim_total m <> 0 ->
          testim_coverage m
          = Float (percent (tm_total_testim m) (testim_total m)))
      /\ (tm_total_testim m = 0 ->
          desktop_pct m = Int 0 /\ mobile_pct m = Int 0 /\ both_pct m = Int 0)
      /\ (tm_total_testim m <> 0 ->
          desktop_pct m = Float (percent (desktop m) (tm_total_testim m))
          /\ mobile_pct m = Float (percent (mobile m) (tm_total_testim m))
          /\ both_pct m = Float (percent (both m) (tm_total_testim m)))).
Proof.
  split; [split; [exact sample_is_summary_table|exact sample_in_range]|].
  exact (testim_metrics_relations Samples.sample_summary
           sample_is_summary_table sample_in_range).
Defined.

(** X9. The device metrics of a summary table whose devices are Desktop,
    Mobile and Both, as [process] forms them, and whose counts sum to less
    than 2^63: there is one entry per device, in that order; the totals of
    the three devices add up to the overall total and their automated
    counts to the overall [total_automated]; for each device the automated
    count lies between 0 and the total, and the coverage is the integer 0
    when the total is 0, the float quotient times 100 otherwise. *)
Theorem device_metrics_partition (T : list SummaryRow) :
  Resolver.summary_table T ->
  sum_count T < 2 ^ 63 ->
  Forall (fun r => In (Device r) device_labels) T ->
  let dm := Metrics64.calculate_device_metrics T in
  let o := Metrics64.calculate_overall_metrics T in
  map fst dm = device_labels
  /\ sum_of (fun d => dm_total (snd d)) dm = total o
  /\ sum_of (fun d => dm_automated (snd d)) dm = total_automated o
  /\ Forall (fun d =>
               0 <= dm_automated (snd d) <= dm_total (snd d)
               /\ (dm_total (snd d) = 0 -> dm_coverage (snd d) = Int 0)
               /\ (dm_total (snd d) <> 0 ->
                   dm_coverage (snd d)
                   = Float (percent (dm_automated (snd d)) (dm_total (snd d)))))
       dm.
Proof.
  intros HT Hb HD.
  rewrite (device_metrics64 T HT Hb), (overall_metrics64 T HT Hb).
  exact (device_relations T HT HD).
Qed.

Lemma device_metrics_partition_witness :
  (Resolver.summary_table Samples.sample_summary
   /\ sum_count Samples.sample_summary < 2 ^ 63
   /\ Forall (fun r => In (Device r) device_labels) Samples.sample_summary)
  /\ (let dm := Metrics64.calculate_device_metrics Samples.sample_summary in
      let o := Metrics64.calculate_overall_metrics Samples.sample_summary in
      map fst dm = device_labels
      /\ sum_of (fun d => dm_total (snd d)) dm = total o
      /\ sum_of (fun d => dm_automated (snd d)) dm = total_automated o
      /\ Forall (fun d =>
                   0 <= dm_automated (snd d) <= dm_total (snd d)
                   /\ (dm_total (snd d) = 0 -> dm_coverage (snd d) = Int 0)
                   /\ (dm_total (snd d) <> 0 ->
                       dm_coverage (snd d)
                       = Float (percent (dm_automated (snd d))
                                  (dm_total (snd d)))))
           dm).
Proof.
  assert (HD : Forall (fun r => In (Device r) device_labels)
                 Samples.sample_summary).
  { apply Forall_forall. intros r Hr.
    destruct (proj1 (Forall_forall _ _) sample_well_formed r Hr)
      as (_ & Hd & _). exact Hd. }
  split; [split; [exact sample_is_summary_table|split;
                  [exact sample_in_range|exact HD]]|].
  exact (device_metrics_partition Samples.sample_summary
           sample_is_summary_table sample_in_range HD).
Defined.

(** ** The coverage of an epic, to one decimal *)

Lemma float_same_eq (x y : float) : float_same x y = true -> x = y.
Proof.
  destruct x as [a|a| |a m e], y as [b|b| |b n f]; cbn [float_same];
    try discriminate; intros H.
  - apply Bool.eqb_prop in H. now subst.
  - apply Bool.eqb_prop in H. now subst.
  - reflexivity.
  - apply andb_prop in H. destruct H as [H He].
    apply andb_prop in H. destruct H as [Hs Hm].
    apply Bool.eqb_prop in Hs. apply Pos.eqb_eq in Hm. apply Z.eqb_eq in He.
    now subst.
Qed.

Lemma nearest_tenth_sound (a e : Z) (x : float) :
  0 < e -> 0 <= a -> nearest_tenth a e x = true -> one_decimal_of a e x.
Proof.
  intros He Ha. unfold nearest_tenth.
  set (k := 1000 * a / e).
  assert (Hk : k * e <= 1000 * a < (k + 1) * e).
  { unfold k. pose proof (Z.div_mod (1000 * a) e ltac:(lia)).
    pose proof (Z.mod_pos_bound (1000 * a) e He). nia. }
  intros H. apply orb_prop in H. destruct H as [H|H];
    apply andb_prop in H; destruct H as [Hd Hx];
    apply Z.leb_le in Hd; apply float_same_eq in Hx.
  - exists k. split; [lia|exact Hx].
  - exists (k + 1). split; [lia|exact Hx].
Qed.

Lemma down_from_In (n : nat) (z : Z) :
  0 <= z <= Z.of_nat n -> In z (down_from n).
Proof.
  induction n as [|n IH]; intros H.
  - left. cbn in H. lia.
  - cbn [down_from]. destruct (Z.eq_dec z (Z.of_nat (S n))) as [->|Hne].
    + left. reflexivity.
    + right. apply IH. lia.
Qed.

Lemma coverage_rounds_sound (n : nat) (a e : Z) :
  coverage_rounds_upto n = true ->
  0 <= a <= e -> 0 < e <= Z.of_nat n ->
  one_decimal_of a e (coverage_pct a e).
Proof.
  intros H Ha He. unfold coverage_rounds_upto in H.
  rewrite forallb_forall in H.
  specialize (H e (down_from_In n e ltac:(lia))).
  apply orb_prop in H. destruct H as [H|H]; [apply Z.eqb_eq in H; lia|].
  rewrite forallb_forall in H.
  assert (Hin : In a (down_from (Z.to_nat e)))
    by (apply down_from_In; rewrite Z2Nat.id by lia; lia).
  specialize (H a Hin).
  apply nearest_tenth_sound; [lia|lia|exact H].
Qed.

Lemma coverage_rounds_checked :
  coverage_rounds_upto checked_effective_total = true.
Proof. vm_compute. reflexivity. Qed.

(** ** The epic pivot on int64 counts *)

(** C6 as stated fails.  The one epic of [wrapping_summary] has the counts
    2^62 and 2^62: its TOTAL and its EFFECTIVE TOTAL wrap around to -2^63,
    so that TOTAL is not the sum of the four counts, and its coverage is
    -50.0, not 0, although the effective total is not positive. *)
Lemma epic_pivot_wraps :
  Resolver.summary_table wrapping_summary
  /\ Metrics64.calculate_epic_metrics wrapping_summary
     = [ {| index := "Epic1"; Automated := 2 ^ 62; To_Be_Automated := 0;
            N_A := 0; Not_Automated := 2 ^ 62; TOTAL := - 2 ^ 63;
            EFFECTIVE_TOTAL := - 2 ^ 63;
            COVERAGE := S754_finite true 7036874417766400 (-47) |} ]
  /\ repr_float (S754_finite true 7036874417766400 (-47)) = "-50.0"
  /\ Forall (fun r =>
               EFFECTIVE_TOTAL r <= 0
               /\ COVERAGE r <> zero
               /\ TOTAL r
                  <> Automated r + To_Be_Automated r + N_A r + Not_Automated r)
       (Metrics64.calculate_epic_metrics wrapping_summary).
Proof.
  split; [exact wrapping_is_summary_table|].
  split; [vm_compute; reflexivity|]. split; [vm_compute; reflexivity|].
  vm_compute. repeat constructor; discriminate.
Qed.

(** C6, as the code has it.  On a SummaryRow table whose counts sum to
    less than 2^63 the epic pivot has one row per epic of the table; in
    each row Automated is the sum of the counts under the four
    [Automated - ...] statuses, the three other counts are the sums under
    their status, TOTAL is the sum of the four, EFFECTIVE TOTAL is TOTAL
    less N/A, and the coverage is the binary64 ratio times 100 rounded by
    NumPy to one decimal, with NaN and infinity replaced by 0: it is 0 when
    the effective total is not positive, and for an effective total up to
    [checked_effective_total] it is [k / 10] for an integer [k] nearest to
    [1000 * Automated / EFFECTIVE TOTAL]; the rows come in descending
    order of coverage. *)
Theorem epic_pivot_correct (T : list SummaryRow) :
  Resolver.summary_table T ->
  sum_count T < 2 ^ 63 ->
  let pivot := Metrics64.calculate_epic_metrics T in
  NoDup (map index pivot)
  /\ (forall e, In e (map index pivot) <-> In e (map Epic T))
  /\ (forall r, In r pivot ->
      let group := filter (fun x => (Epic x =? index r)%string) T in
      Automated r
      = sum_count (filter (fun x => Resolver.is_automated (Status x)) group)
      /\ To_Be_Automated r = sum_count (with_status "To Be Automated" group)
      /\ N_A r = sum_count (with_status "N/A" group)
      /\ Not_Automated r = sum_count (with_status "Not Automated" group)
      /\ TOTAL r = Automated r + To_Be_Automated r + N_A r + Not_Automated r
      /\ EFFECTIVE_TOTAL r = TOTAL r - N_A r
      /\ COVERAGE r
         = fillna_replace_inf
             (round1 (percent (Automated r) (EFFECTIVE_TOTAL r)))
      /\ (EFFECTIVE_TOTAL r <= 0 -> COVERAGE r = zero)
      /\ (0 < EFFECTIVE_TOTAL r <= Z.of_nat checked_effective_total ->
          one_decimal_of (Automated r) (EFFECTIVE_TOTAL r) (COVERAGE r)))
  /\ Sorted covers_desc pivot.
Proof.
  intros HT Hb. rewrite (epic_metrics64 T HT Hb).
  destruct (epic_pivot_relations T HT) as (Hnd & Hin & Hrows & Hsorted).
  split; [exact Hnd|]. split; [exact Hin|]. split; [|exact Hsorted].
  intros r Hr group.
  destruct (Hrows r Hr) as (Ha & Htb & Hna & Hno & Htot & Heff & Hcov & Hzero).
  fold group in Ha, Htb, Hna, Hno.
  repeat (split; [assumption|]).
  intros He. rewrite Hcov.
  change (fillna_replace_inf
            (round1 (percent (Automated r) (EFFECTIVE_TOTAL r))))
    with (coverage_pct (Automated r) (EFFECTIVE_TOTAL r)).
  assert (Hg : Resolver.summary_table group)
    by (apply summary_table_filter; exact HT).
  pose proof (sum_count_filter_le
                (fun x => Resolver.is_automated (Status x)) group Hg).
  pose proof (with_status_nonneg "To Be Automated" group Hg).
  pose proof (with_status_nonneg "Not Automated" group Hg).
  apply (coverage_rounds_sound checked_effective_total);
    [exact coverage_rounds_checked|lia|lia].
Qed.

Lemma thirds_is_summary_table : Resolver.summary_table thirds_summary.
Proof.
  unfold thirds_summary.
  repeat (apply Forall_cons;
          [unfold Resolver.canonical_labels; cbn [Status Count In];
           split; [repeat first [left; reflexivity | right]|discriminate]|]).
  apply Forall_nil.
Qed.

Lemma epic_pivot_correct_witness :
  (Resolver.summary_table thirds_summary /\ sum_count thirds_summary < 2 ^ 63)
  /\ (let pivot := Metrics64.calculate_epic_metrics thirds_summary in
      NoDup (map index pivot)
      /\ (forall e, In e (map index pivot) <-> In e (map Epic thirds_summary))
      /\ (forall r, In r pivot ->
          let group :=
            filter (fun x => (Epic x =? index r)%string) thirds_summary in
          Automated r
          = sum_count (filter (fun x => Resolver.is_automated (Status x)) group)
          /\ To_Be_Automated r = sum_count (with_status "To Be Automated" group)
          /\ N_A r = sum_count (with_status "N/A" group)
          /\ Not_Automated r = sum_count (with_status "Not Automated" group)
          /\ TOTAL r
             = Automated r + To_Be_Automated r + N_A r + Not_Automated r
          /\ EFFECTIVE_TOTAL r = TOTAL r - N_A r
          /\ COVERAGE r
             = fillna_replace_inf
                 (round1 (percent (Automated r) (EFFECTIVE_TOTAL r)))
          /\ (EFFECTIVE_TOTAL r <= 0 -> COVERAGE r = zero)
          /\ (0 < EFFECTIVE_TOTAL r <= Z.of_nat checked_effective_total ->
              one_decimal_of (Automated r) (EFFECTIVE_TOTAL r) (COVERAGE r)))
      /\ Sorted covers_desc pivot).
Proof.
  assert (Hb : sum_count thirds_summary < 2 ^ 63) by reflexivity.
  split; [split; [exact thirds_is_summary_table|exact Hb]|].
  exact (epic_pivot_correct thirds_summary thirds_is_summary_table Hb).
Defined.

(** The pivot of [thirds_summary]: two thirds is shown as 66.7, one third
    as 33.3. *)
Example thirds_epic_pivot :
  map (fun r => (index r, Automated r, EFFECTIVE_TOTAL r, repr_float (COVERAGE r)))
    (Metrics64.calculate_epic_metrics thirds_summary)
  = [ ("Epic2", 2, 3, "66.7"); ("Epic1", 1, 3, "33.3") ]
  /\ map COVERAGE (Metrics64.calculate_epic_metrics thirds_summary)
     = [tenths 667; tenths 333].
Proof. split; vm_compute; reflexivity. Qed.

(* ================================================================== *)
(** * Cases, countries, filters and pages *)
(* ================================================================== *)

(** ** Every case is counted *)

Lemma unmapped_case_plain : plain_table Samples.unmapped_case.
Proof.
  intros row [<-|[]]. split.
  - intros category field Hc Hf.
    cbn [scalar_categories In] in Hc.
    destruct Hc as [<-|[<-|[<-|[<-|[<-|[]]]]]]; vm_compute in Hf;
      try discriminate Hf.
    injection Hf as <-. vm_compute. discriminate.
  - intros field Hf. vm_compute in Hf. discriminate Hf.
Qed.

(** C1, as the code has it.  On a non-empty input whose schema resolves
    the primary-framework status field, [process] either reports a
    processing error with an empty table, or returns a table whose counts
    add up to the number of all raw cases; on a plain table it is the
    latter.  When it reports nothing, every raw case is counted in the row
    of its five derived columns, whose Count is the number of raw cases
    with these columns; and a case whose primary status code is unmapped
    or missing is counted under the final status the Status Resolver gives
    with the primary status absent. *)
Theorem process_counts_every_case (df : DataFrame) (bu_name : string) :
  empty df = false ->
  find_field df "java" <> None ->
  ((exists e, process df bu_name = ([], [ProcessingError e]))
   \/ (snd (process df bu_name) = []
       /\ sum_count (fst (process df bu_name))
          = Z.of_nat (List.length (rows df))))
  /\ (plain_table df ->
      snd (process df bu_name) = []
      /\ sum_count (fst (process df bu_name))
         = Z.of_nat (List.length (rows df)))
  /\ (snd (process df bu_name) = [] ->
      forall field row,
        find_field df "java" = Some field ->
        In row (rows df) ->
        exists r,
          In r (fst (process df bu_name))
          /\ summary_key r = row_case df bu_name row
          /\ Count r
             = Z.of_nat
                 (List.length
                    (filter (fun row' =>
                               same_key cmp_case_key
                                 (row_case df bu_name row') (summary_key r))
                       (rows df)))
          /\ 1 <= Count r
          /\ (map_automation_status_java (row field) = Ok None ->
              Status r
              = Resolver.label
                  (Resolver.resolve_final_status None
                     (Resolver.status_code
                        (secondary_status df "testim_desktop" row))
                     (Resolver.status_code
                        (secondary_status df "testim_mobile" row))))).
Proof.
  intros He Hj.
  destruct (process_sums_to_cases df bu_name He Hj) as [Hsum Hplain].
  split; [exact Hsum|]. split; [exact Hplain|].
  intros Hs field row Hfield Hrow.
  pose proof (process_rowwise df bu_name Hs) as HT.
  assert (Hk : In (row_case df bu_name row)
                 (map summary_key (fst (process df bu_name)))).
  { rewrite HT, summarize_keys.
    apply (unique_sorted_In cmp_case_key case_key_order).
    apply in_map. exact Hrow. }
  apply in_map_iff in Hk. destruct Hk as (r & Hkey & Hr).
  exists r. split; [exact Hr|]. split; [exact Hkey|].
  rewrite HT in Hr. destruct (summarize_row _ r Hr) as (_ & Hc & Hpos).
  split; [|split; [exact Hpos|]].
  - rewrite Hc, filter_map_comm, length_map. reflexivity.
  - intros Hjava.
    assert (Est : Status r = snd (fst (fst (fst (row_case df bu_name row)))))
      by (rewrite <- Hkey; reflexivity).
    rewrite Est. unfold row_case. cbn [fst snd].
    rewrite Hfield, Hjava. cbn [forced].
    rewrite resolver_agrees. reflexivity.
Qed.

Lemma process_counts_every_case_witness :
  (empty Samples.unmapped_case = false
   /\ find_field Samples.unmapped_case "java" <> None
   /\ plain_table Samples.unmapped_case
   /\ snd (process Samples.unmapped_case "Marionnaud") = []
   /\ find_field Samples.unmapped_case "java" = Some "custom_automation_status"
   /\ In (fun name : string =>
            if (name =? "custom_automation_status")%string
            then One (SInt 99) else One SNone)
        (rows Samples.unmapped_case)
   /\ map_automation_status_java (One (SInt 99)) = Ok None)
  /\ sum_count (fst (process Samples.unmapped_case "Marionnaud"))
     = Z.of_nat (List.length (rows Samples.unmapped_case))
  /\ exists r,
       In r (fst (process Samples.unmapped_case "Marionnaud"))
       /\ Count r = 1
       /\ Status r
          = Resolver.label
              (Resolver.resolve_final_status None
                 (Resolver.status_code
                    (secondary_status Samples.unmapped_case "testim_desktop"
                       (fun name : string =>
                          if (name =? "custom_automation_status")%string
                          then One (SInt 99) else One SNone)))
                 (Resolver.status_code
                    (secondary_status Samples.unmapped_case "testim_mobile"
                       (fun name : string =>
                          if (name =? "custom_automation_status")%string
                          then One (SInt 99) else One SNone)))).
Proof.
  assert (He : empty Samples.unmapped_case = false) by reflexivity.
  assert (Hj : find_field Samples.unmapped_case "java" <> None)
    by (vm_compute; discriminate).
  assert (Hs : snd (process Samples.unmapped_case "Marionnaud") = [])
    by reflexivity.
  assert (Hf : find_field Samples.unmapped_case "java"
               = Some "custom_automation_status") by reflexivity.
  assert (Hin : In (fun name : string =>
                      if (name =? "custom_automation_status")%string
                      then One (SInt 99) else One SNone)
                  (rows Samples.unmapped_case)) by (left; reflexivity).
  assert (Hu : map_automation_status_java (One (SInt 99)) = Ok None)
    by reflexivity.
  destruct (process_counts_every_case Samples.unmapped_case "Marionnaud" He Hj)
    as (_ & Hplain & Hcases).
  split.
  { split; [exact He|]. split; [exact Hj|].
    split; [exact unmapped_case_plain|]. split; [exact Hs|].
    split; [exact Hf|]. split; [exact Hin|exact Hu]. }
  split; [exact (proj2 (Hplain unmapped_case_plain))|].
  destruct (Hcases Hs _ _ Hf Hin) as (r & Hr & _ & Hc & _ & Hst).
  exists r. split; [exact Hr|]. split; [|exact (Hst Hu)].
  rewrite Hc. destruct Hr as [<-|[]]. reflexivity.
Defined.

(** ** The country mapper *)

Lemma labelled_elements (country_map : str_dict) (xs : list scalar) :
  Forall2
    (fun v label =>
       match str_dict_get country_map (strip (str_scalar v)) with
       | Some c => label = c
       | None => label = "ID_" ++ str_scalar v
       end)
    xs
    (map (fun v =>
            or_default (str_dict_get country_map (strip (str_scalar v)))
              ("ID_" ++ str_scalar v)) xs).
Proof.
  induction xs as [|v xs IH]; simpl; constructor; [|exact IH].
  destruct (str_dict_get country_map (strip (str_scalar v))); reflexivity.
Qed.

(** C5, as the code has it.  A missing value and an empty collection yield
    "Unknown".  A scalar whose conversion does not overflow is looked up by
    its stripped text; failing that, a numeric text is truncated toward zero
    to an integer, whose text is looked up; failing that too, the result is
    the stripped text prefixed with [ID_].  A collection is mapped element
    by element and the results are joined in their order with [", "]: an
    element whose stripped text is a key of the table is mapped to its
    code, and any other element to [ID_] followed by its text. *)
Theorem map_country_id_rule (val : value) (bu_name : string) :
  plain_country val ->
  let country_map := named_get COUNTRY_MAPPINGS bu_name [] in
  match val with
  | One x =>
      map_country_id val bu_name
      = Ok (if isna x then "Unknown"
            else
              let text := strip (str_scalar x) in
              match str_dict_get country_map text with
              | Some c => c
              | None =>
                  match int_float (One (SStr text)) with
                  | Ok n =>
                      or_default (str_dict_get country_map (str_of_int n))
                        ("ID_" ++ text)
                  | Raise _ => "ID_" ++ text
                  end
              end)
  | Many [] => map_country_id val bu_name = Ok "Unknown"
  | Many xs =>
      exists labels,
        map_country_id val bu_name = Ok (join ", " labels)
        /\ Forall2
             (fun v label =>
                match str_dict_get country_map (strip (str_scalar v)) with
                | Some c => label = c
                | None => label = "ID_" ++ str_scalar v
                end)
             xs labels
  end.
Proof.
  intros Hplain country_map. destruct val as [x|[|v xs]].
  - unfold map_country_id. fold country_map. cbn [plain_country] in Hplain.
    destruct (isna x); [reflexivity|]. cbn zeta.
    destruct (str_dict_get country_map (strip (str_scalar x))); [reflexivity|].
    destruct (int_float _) as [n|[]]; try reflexivity. contradiction.
  - reflexivity.
  - eexists. split; [reflexivity|]. apply labelled_elements.
Qed.

Lemma map_country_id_rule_witness :
  (plain_country (One (SStr " 3.0 "))
   /\ plain_country (One (SStr "abc"))
   /\ plain_country (Many [SInt 3; SStr "77"; SStr " 9 "]))
  /\ map_country_id (One (SStr " 3.0 ")) "Marionnaud" = Ok "MRN"
  /\ map_country_id (One (SStr "abc")) "Marionnaud" = Ok "ID_abc"
  /\ exists labels,
       map_country_id (Many [SInt 3; SStr "77"; SStr " 9 "]) "Marionnaud"
       = Ok (join ", " labels)
       /\ labels = ["MRN"; "ID_77"; "MFR"].
Proof.
  assert (H1 : plain_country (One (SStr " 3.0 ")))
    by (vm_compute; discriminate).
  assert (H2 : plain_country (One (SStr "abc")))
    by (vm_compute; discriminate).
  assert (H3 : plain_country (Many [SInt 3; SStr "77"; SStr " 9 "]))
    by exact I.
  split; [split; [exact H1|split; [exact H2|exact H3]]|].
  split; [exact (map_country_id_rule (One (SStr " 3.0 ")) "Marionnaud" H1)|].
  split; [exact (map_country_id_rule (One (SStr "abc")) "Marionnaud" H2)|].
  destruct (map_country_id_rule (Many [SInt 3; SStr "77"; SStr " 9 "])
              "Marionnaud" H3) as (labels & E & HL).
  exists labels. split; [exact E|].
  inversion HL as [|v1 l1 xs1 ls1 E1 HL1]; subst.
  inversion HL1 as [|v2 l2 xs2 ls2 E2 HL2]; subst.
  inversion HL2 as [|v3 l3 xs3 ls3 E3 HL3]; subst.
  inversion HL3; subst.
  vm_compute in E1, E2, E3. rewrite E1, E2, E3. reflexivity.
Defined.

(** ** The filters on frames *)

Lemma no_row_passes {A : Type} (p : A -> bool) (l : list A) :
  existsb p l = false -> filter p l = [].
Proof.
  induction l as [|a l IH]; [reflexivity|].
  cbn [existsb filter]. destruct (p a); [discriminate|exact IH].
Qed.

Lemma some_row_passes {A : Type} (p : A -> bool) (l : list A) :
  existsb p l = true -> filter p l <> [].
Proof.
  induction l as [|a l IH]; [discriminate|].
  cbn [existsb filter]. destruct (p a); [discriminate|exact IH].
Qed.

Lemma frames_apply_filters (df : list SummaryRow)
  (device_filter country_filter priority_filter : list string) :
  Frames.apply_filters df device_filter country_filter priority_filter
  = if match country_filter with [] => true | _ => false end
       || existsb (fun r => isin (Device r) device_filter) df
    then Frames.Table
           (apply_filters df device_filter country_filter priority_filter)
    else match priority_filter with
         | [] => Frames.NoColumns
         | _ => Frames.KeyError
         end.
Proof.
  unfold Frames.apply_filters, apply_filters.
  destruct country_filter as [|c0 cs].
  - cbn [orb]. destruct priority_filter; reflexivity.
  - cbn [orb].
    destruct (existsb (fun r => isin (Device r) device_filter) df) eqn:E.
    + apply some_row_passes in E.
      destruct (filter (fun r => isin (Device r) device_filter) df) as [|r l];
        [contradiction|].
      destruct priority_filter; reflexivity.
    + rewrite (no_row_passes _ _ E). destruct priority_filter; reflexivity.
Qed.

(** X15. What [apply_filters] ends in.  When the country filter is empty
    or some row has its Device in the device filter, it returns, in their
    order, the rows that pass the three filters: Device in the device
    filter, Country (unless the country filter is empty) other than
    "Unknown" with a part between [", "] in the filter, Priority (unless
    the priority filter is empty) in the filter.  When the country filter
    is not empty and no row has its Device in the device filter, the
    selection by country leaves a frame without columns: this frame is
    returned when the priority filter is empty, and the selection by
    priority raises [KeyError] when it is not. *)
Theorem apply_filters_outcome (df : list SummaryRow)
  (device_filter country_filter priority_filter : list string) :
  Frames.apply_filters df device_filter country_filter priority_filter
  = if match country_filter with [] => true | _ => false end
       || existsb (fun r => isin (Device r) device_filter) df
    then Frames.Table
           (filter (row_passes device_filter country_filter priority_filter)
              df)
    else match priority_filter with
         | [] => Frames.NoColumns
         | _ => Frames.KeyError
         end.
Proof.
  rewrite frames_apply_filters, apply_filters_filter. reflexivity.
Qed.

(** The three outcomes on the sample table *)
Example sample_filter_outcomes :
  Frames.apply_filters Samples.sample_summary ["Desktop"] ["MRN"] ["High"]
  = Frames.Table
      (filter (row_passes ["Desktop"] ["MRN"] ["High"]) Samples.sample_summary)
  /\ Frames.apply_filters Samples.sample_summary [] [] ["High"]
     = Frames.Table []
  /\ Frames.apply_filters Samples.sample_summary [] ["MRN"] []
     = Frames.NoColumns
  /\ Frames.apply_filters Samples.sample_summary [] ["MRN"] ["High"]
     = Frames.KeyError
  /\ Frames.apply_filters Samples.sample_summary ["Tablet"] ["MRN"] ["High"]
     = Frames.KeyError.
Proof. vm_compute. repeat split. Qed.

(** X21. Filtering never adds to a metric.  For a summary table whose
    counts sum to less than 2^63, when [apply_filters] returns a table,
    this table is again a summary table whose counts sum to less than
    2^63, and each count of its overall metrics lies between 0 and the
    same count of the unfiltered table. *)
Theorem filtered_metrics_bounded (df shown : list SummaryRow)
  (device_filter country_filter priority_filter : list string) :
  Resolver.summary_table df ->
  sum_count df < 2 ^ 63 ->
  Frames.apply_filters df device_filter country_filter priority_filter
  = Frames.Table shown ->
  let m := Metrics64.calculate_overall_metrics df in
  let m' := Metrics64.calculate_overall_metrics shown in
  Resolver.summary_table shown
  /\ sum_count shown < 2 ^ 63
  /\ 0 <= total m' <= total m
  /\ 0 <= automated_java m' <= automated_java m
  /\ 0 <= automated_testim_desktop m' <= automated_testim_desktop m
  /\ 0 <= automated_testim_mobile m' <= automated_testim_mobile m
  /\ 0 <= automated_testim_both m' <= automated_testim_both m
  /\ 0 <= total_automated m' <= total_automated m
  /\ 0 <= to_be_automated m' <= to_be_automated m
  /\ 0 <= not_automated m' <= not_automated m
  /\ 0 <= not_applicable m' <= not_applicable m.
Proof.
  intros HT Hb Hshown m m'. subst m m'.
  rewrite frames_apply_filters in Hshown.
  destruct (_ || _) in Hshown;
    [|destruct priority_filter; discriminate Hshown].
  injection Hshown as <-.
  pose proof (filtered_relations df device_filter country_filter
                priority_filter HT) as H.
  cbv zeta in H. destruct H as (HT' & Hrel).
  assert (Hb' : sum_count
                  (apply_filters df device_filter country_filter
                     priority_filter) < 2 ^ 63).
  { rewrite apply_filters_filter.
    pose proof (sum_count_filter_le
                  (row_passes device_filter country_filter priority_filter)
                  df HT). lia. }
  rewrite (overall_metrics64 df HT Hb), (overall_metrics64 _ HT' Hb').
  split; [exact HT'|]. split; [exact Hb'|]. exact Hrel.
Qed.

Lemma filtered_metrics_bounded_witness :
  (Resolver.summary_table Samples.sample_summary
   /\ sum_count Samples.sample_summary < 2 ^ 63
   /\ Frames.apply_filters Samples.sample_summary ["Desktop"; "Both"] ["MRN"] []
      = Frames.Table
          (filter (row_passes ["Desktop"; "Both"] ["MRN"] [])
             Samples.sample_summary))
  /\ 0 <= total (Metrics64.calculate_overall_metrics
                   (filter (row_passes ["Desktop"; "Both"] ["MRN"] [])
                      Samples.sample_summary))
       <= total (Metrics64.calculate_overall_metrics Samples.sample_summary)
  /\ 0 <= total_automated
            (Metrics64.calculate_overall_metrics
               (filter (row_passes ["Desktop"; "Both"] ["MRN"] [])
                  Samples.sample_summary))
       <= total_automated
            (Metrics64.calculate_overall_metrics Samples.sample_summary).
Proof.
  assert (Hb : sum_count Samples.sample_summary < 2 ^ 63) by exact sample_in_range.
  assert (Hs : Frames.apply_filters Samples.sample_summary
                 ["Desktop"; "Both"] ["MRN"] []
               = Frames.Table
                   (filter (row_passes ["Desktop"; "Both"] ["MRN"] [])
                      Samples.sample_summary))
    by (vm_compute; reflexivity).
  split; [split; [exact sample_is_summary_table|split; [exact Hb|exact Hs]]|].
  destruct (filtered_metrics_bounded _ _ _ _ _ sample_is_summary_table Hb Hs)
    as (_ & _ & Ht & _ & _ & _ & _ & Ha & _).
  split; [exact Ht|exact Ha].
Defined.

(** ** Paging *)

Lemma fetch_data_recursive_complete_witness :
  ((List.length (List.seq 0 500) < 3 * API_BATCH_SIZE)%nat
   /\ (List.length (List.seq 0 600) < 3 * API_BATCH_SIZE)%nat)
  /\ fetch_data_recursive (Some (paging_server true (List.seq 0 500))) 3
     = Returned (List.seq 0 500)
  /\ fetch_data_recursive (Some (paging_server false (List.seq 0 600))) 3
     = Returned (List.seq 0 600).
Proof.
  assert (H1 : (List.length (List.seq 0 500) < 3 * API_BATCH_SIZE)%nat)
    by (rewrite length_seq; unfold API_BATCH_SIZE; lia).
  assert (H2 : (List.length (List.seq 0 600) < 3 * API_BATCH_SIZE)%nat)
    by (rewrite length_seq; unfold API_BATCH_SIZE; lia).
  split; [split; [exact H1|exact H2]|].
  split.
  - exact (fetch_data_recursive_complete true (List.seq 0 500) 3 H1).
  - exact (fetch_data_recursive_complete false (List.seq 0 600) 3 H2).
Defined.

Lemma fetch_data_recursive_all_or_nothing_witness :
  ((1 * API_BATCH_SIZE <= List.length (List.seq 0 300))%nat /\ (1 < 2)%nat)
  /\ fetch_loop (paging_server true (List.seq 0 300)) 1 API_BATCH_SIZE 0 []
     = Running
  /\ fetch_data_recursive
       (Some (failing_server (1 * API_BATCH_SIZE) true (List.seq 0 300))) 2
     = Returned [].
Proof.
  assert (H1 : (1 * API_BATCH_SIZE <= List.length (List.seq 0 300))%nat)
    by (rewrite length_seq; unfold API_BATCH_SIZE; lia).
  assert (H2 : (1 < 2)%nat) by lia.
  split; [split; [exact H1|exact H2]|].
  split; [vm_compute; reflexivity|].
  exact (fetch_data_recursive_all_or_nothing true (List.seq 0 300) 1 2 H1 H2).
Defined.
